(** * VidFlow: the WAV encoder, the audio-effect presets and the export jobs

    A shallow embedding of [src/modules/export.js] (class [Exporter]) and of
    the audio-effects module (class [AudioFX]), with the properties the
    specification states about them.

    JavaScript numbers are modelled exactly: integers as [Z], offsets and
    counts as [nat], samples and gains as rationals [Q].  Every sample of a
    [Float32Array] is a dyadic rational with a 24-bit significand, so the
    products with [0x8000] and [0x7FFF] the encoder computes are exact in
    double precision and agree with the rational products used here.  The
    gains of the presets, which the source computes in double precision,
    are exact rationals here. *)

From Stdlib Require Import ZArith QArith Qabs Lia Lqa String Ascii List.
From stdpp Require Import base option list.
Import ListNotations.

Local Open Scope Z_scope.

(** ** DataView over an ArrayBuffer *)

Module DataView.

(** The bytes of the underlying [ArrayBuffer], each in [0, 256). *)
Abbreviation t := (list Z).

(** [new ArrayBuffer(n)]: [n] zero bytes. *)
Definition ArrayBuffer (n : nat) : t := replicate n 0.

(** Byte [k] of the two's-complement, little-endian image of [v]. *)
Definition byte (k : Z) (v : Z) : Z := (v / 2 ^ (8 * k)) mod 256.

(** [view.setUint8(offset, v)]: a [RangeError] ([None]) outside the
    buffer, else the byte [v mod 2^8] is stored. *)
Definition setUint8 (offset : nat) (v : Z) (view : t) : option t :=
  if (offset + 1 <=? length view)%nat
  then Some (<[offset := byte 0 v]> view)
  else None.

(** [view.setUint16(offset, v, true)]: little-endian, [v] modulo 2^16. *)
Definition setUint16 (offset : nat) (v : Z) (view : t) : option t :=
  if (offset + 2 <=? length view)%nat
  then Some (<[S offset := byte 1 v]> (<[offset := byte 0 v]> view))
  else None.

(** [view.setUint32(offset, v, true)]: little-endian, [v] modulo 2^32. *)
Definition setUint32 (offset : nat) (v : Z) (view : t) : option t :=
  if (offset + 4 <=? length view)%nat
  then Some (<[S (S (S offset)) := byte 3 v]>
            (<[S (S offset) := byte 2 v]>
            (<[S offset := byte 1 v]>
            (<[offset := byte 0 v]> view))))
  else None.

(** A JavaScript number as the encoder meets it: a finite value, or [NaN]
    ([None]), which is what arithmetic on [undefined] gives. *)
Definition number := option Q.

(** [ToInt16]'s integer part: truncation towards zero; [NaN] becomes 0. *)
Definition ToIntegerOrZero (x : number) : Z :=
  match x with
  | Some q => Z.quot (Qnum q) (Z.pos (Qden q))
  | None => 0
  end.

(** [view.setInt16(offset, x, true)]: the truncated value modulo 2^16, in
    two's complement, little-endian. *)
Definition setInt16 (offset : nat) (x : number) (view : t) : option t :=
  setUint16 offset (ToIntegerOrZero x) view.

(** Readers, the inverses of the setters ([getUint16(offset, true)] ...). *)
Definition getUint16 (offset : nat) (view : t) : option Z :=
  b0 ← view !! offset; b1 ← view !! S offset; Some (b0 + 256 * b1).

Definition getUint32 (offset : nat) (view : t) : option Z :=
  b0 ← view !! offset; b1 ← view !! S offset;
  b2 ← view !! S (S offset); b3 ← view !! S (S (S offset));
  Some (b0 + 256 * b1 + 65536 * b2 + 16777216 * b3).

Definition getInt16 (offset : nat) (view : t) : option Z :=
  u ← getUint16 offset view;
  Some (if u <? 32768 then u else u - 65536).

End DataView.

(** ** The WAV encoder ([Exporter.audioBufferToWav]) *)

Module Wav.
Import DataView.

(** An [AudioBuffer]: [numberOfChannels] is the number of channel arrays,
    [length] the number of sample frames. *)
Record AudioBuffer := {
  sampleRate : Z;
  length : nat;
  channelData : list (list Q)
}.

Definition numberOfChannels (buffer : AudioBuffer) : nat :=
  List.length (channelData buffer).

(** Every channel array of a buffer holds [length] samples. *)
Definition wellFormed (buffer : AudioBuffer) : Prop :=
  Forall (fun ch => List.length ch = length buffer) (channelData buffer).

(** [Math.min(a, x)] and [Math.max(a, x)] with a finite [a]. *)
Definition Math_min (a : Q) (x : number) : number :=
  match x with
  | Some q => Some (if Qlt_le_dec q a then q else a)
  | None => None
  end.

Definition Math_max (a : Q) (x : number) : number :=
  match x with
  | Some q => Some (if Qlt_le_dec a q then q else a)
  | None => None
  end.

(** [channels[channel][i]]; out of range it is [undefined]. *)
Definition channelSample (channels : list (list Q)) (channel i : nat) : number :=
  ch ← channels !! channel; ch !! i.

(** [Math.max(-1, Math.min(1, x))] *)
Definition clampSample (x : number) : number :=
  Math_max (-1) (Math_min 1 x).

(** [sample < 0 ? sample * 0x8000 : sample * 0x7FFF] *)
Definition intSample (sample : number) : number :=
  match sample with
  | Some s => Some (if Qlt_le_dec s 0 then s * 32768 else s * 32767)%Q
  | None => None
  end.

(** [writeString(offset, string)] *)
Fixpoint writeString (offset : nat) (s : string) (view : t) : option t :=
  match s with
  | EmptyString => Some view
  | String c s' =>
      view' ← setUint8 offset (Z.of_nat (nat_of_ascii c)) view;
      writeString (S offset) s' view'
  end.

(** The 44-byte header, in the order the source writes it. *)
Definition writeHeader (format bitDepth : Z) (numChannels : nat)
    (sampleRate : Z) (blockAlign dataLength bufferLength : nat)
    (view : t) : option t :=
  view ← writeString 0 "RIFF" view;
  view ← setUint32 4 (Z.of_nat bufferLength - 8) view;
  view ← writeString 8 "WAVE" view;
  view ← writeString 12 "fmt " view;
  view ← setUint32 16 16 view;
  view ← setUint16 20 format view;
  view ← setUint16 22 (Z.of_nat numChannels) view;
  view ← setUint32 24 sampleRate view;
  view ← setUint32 28 (sampleRate * Z.of_nat blockAlign) view;
  view ← setUint16 32 (Z.of_nat blockAlign) view;
  view ← setUint16 34 bitDepth view;
  view ← writeString 36 "data" view;
  setUint32 40 (Z.of_nat dataLength) view.

(** The inner loop: one frame, every channel in turn. The state is the
    view and the running [offset]. *)
Fixpoint writeFrame (channels : list (list Q)) (i : nat)
    (chans : list nat) (st : t * nat) : option (t * nat) :=
  match chans with
  | [] => Some st
  | channel :: rest =>
      let '(view, offset) := st in
      let sample := clampSample (channelSample channels channel i) in
      view' ← setInt16 offset (intSample sample) view;
      writeFrame channels i rest (view', (offset + 2)%nat)
  end.

(** The outer loop over the frames. *)
Fixpoint writeFrames (channels : list (list Q)) (numChannels : nat)
    (frames : list nat) (st : t * nat) : option (t * nat) :=
  match frames with
  | [] => Some st
  | i :: rest =>
      st' ← writeFrame channels i (seq 0 numChannels) st;
      writeFrames channels numChannels rest st'
  end.

Definition audioBufferToWav (buffer : AudioBuffer) : option t :=
  let numChannels := numberOfChannels buffer in
  let sampleRate := sampleRate buffer in
  let format := 1 in (* PCM *)
  let bitDepth := 16%nat in
  let bytesPerSample := (bitDepth / 8)%nat in
  let blockAlign := (numChannels * bytesPerSample)%nat in
  let dataLength := (length buffer * blockAlign)%nat in
  let bufferLength := (44 + dataLength)%nat in
  let view := ArrayBuffer bufferLength in
  view ← writeHeader format (Z.of_nat bitDepth) numChannels sampleRate
           blockAlign dataLength bufferLength view;
  (* Interleave channels and write samples *)
  let channels := channelData buffer in
  st ← writeFrames channels numChannels (seq 0 (length buffer)) (view, 44%nat);
  Some (fst st).

(** The layout of the file the encoder leaves, in closed form: the
    little-endian images of the header fields, then every frame's
    samples, channel after channel. *)
Definition le16 (v : Z) : list Z := [byte 0 v; byte 1 v].
Definition le32 (v : Z) : list Z := [byte 0 v; byte 1 v; byte 2 v; byte 3 v].

Definition headerBytes (numChannels : nat) (sampleRate : Z)
    (dataLength bufferLength : nat) : list Z :=
  [82; 73; 70; 70] ++ le32 (Z.of_nat bufferLength - 8) ++
  [87; 65; 86; 69] ++ [102; 109; 116; 32] ++ le32 16 ++ le16 1 ++
  le16 (Z.of_nat numChannels) ++ le32 sampleRate ++
  le32 (sampleRate * Z.of_nat (numChannels * 2)) ++
  le16 (Z.of_nat (numChannels * 2)) ++ le16 16 ++
  [100; 97; 116; 97] ++ le32 (Z.of_nat dataLength).

(** The number stored for sample [i] of channel [channel]. *)
Definition storedSample (channels : list (list Q)) (i channel : nat) : Z :=
  ToIntegerOrZero (intSample (clampSample (channelSample channels channel i))).

Definition frameBytes (channels : list (list Q)) (chans : list nat)
    (i : nat) : list Z :=
  flat_map (fun channel => le16 (storedSample channels i channel)) chans.

Definition sampleBytes (channels : list (list Q)) (numChannels : nat)
    (frames : list nat) : list Z :=
  flat_map (frameBytes channels (seq 0 numChannels)) frames.

(** Reading a file back: the decoder a player applies to one stored
    sample, the inverse of the encoder's two scale factors. *)
Definition decodeSample (v : Z) : Q :=
  if v <? 0 then inject_Z v / 32768 else inject_Z v / 32767.

(** The position of sample [i] of channel [channel] in the file. *)
Definition sampleOffset (numChannels i channel : nat) : nat :=
  (44 + 2 * (i * numChannels + channel))%nat.

End Wav.

(** ** The audio-effects processor (class [AudioFX]) *)

Module AudioFX.
Local Open Scope Q_scope.
Local Open Scope string_scope.

(** The parameters of the four nodes of the processed path. *)
Record Filters := {
  lowShelf_frequency : Q;
  lowShelf_gain : Q;
  highShelf_frequency : Q;
  highShelf_gain : Q;
  bandpass_frequency : Q;
  bandpass_Q : Q;
  bandpass_gain : Q;
  compressor_threshold : Q;
  compressor_knee : Q;
  compressor_ratio : Q;
  compressor_attack : Q;
  compressor_release : Q
}.

(** [createFilters]: the values every node is created with. *)
Definition createFilters : Filters := {|
  lowShelf_frequency := 200;
  lowShelf_gain := 0;
  highShelf_frequency := 4000;
  highShelf_gain := 0;
  bandpass_frequency := 2000;
  bandpass_Q := 5 # 10;
  bandpass_gain := 0;
  compressor_threshold := -24;
  compressor_knee := 30;
  compressor_ratio := 4;
  compressor_attack := 3 # 1000;
  compressor_release := 25 # 100
|}.

(** The audio graph, present once [initAudioContext] has run: the filter
    chain and the targets of the two gain ramps of the A/B crossfade. *)
Record Graph := {
  filters : Filters;
  bypassGain : Q;
  processedGain : Q
}.

Record t := {
  audioContext : option Graph;
  currentPreset : string;
  reductionStrength : Z;
  isProcessed : bool
}.

(** The state the constructor leaves. *)
Definition new : t := {|
  audioContext := None;
  currentPreset := "off";
  reductionStrength := 50;
  isProcessed := false
|}.

(** The [switch] of [updateFilters] on the preset, applied to the nodes'
    current values; [strength] is [reductionStrength / 100]. *)
Definition presetFilters (preset : string) (reductionStrength : Z)
    (f : Filters) : Filters :=
  let strength := inject_Z reductionStrength / 100 in
  if String.eqb preset "speech" then
    {| lowShelf_frequency := lowShelf_frequency f;
       lowShelf_gain := -12 * strength;
       highShelf_frequency := highShelf_frequency f;
       highShelf_gain := -8 * strength;
       bandpass_frequency := 2500;
       bandpass_Q := 8 # 10;
       bandpass_gain := 6 * strength;
       compressor_threshold := -20 - (10 * strength);
       compressor_knee := compressor_knee f;
       compressor_ratio := 4 + (4 * strength);
       compressor_attack := compressor_attack f;
       compressor_release := compressor_release f |}
  else if String.eqb preset "music-reduce" then
    {| lowShelf_frequency := lowShelf_frequency f;
       lowShelf_gain := -15 * strength;
       highShelf_frequency := highShelf_frequency f;
       highShelf_gain := -10 * strength;
       bandpass_frequency := 1500;
       bandpass_Q := 5 # 10;
       bandpass_gain := 3 * strength;
       compressor_threshold := -30;
       compressor_knee := compressor_knee f;
       compressor_ratio := 6 + (6 * strength);
       compressor_attack := compressor_attack f;
       compressor_release := compressor_release f |}
  else
    (* case 'off' and default *)
    {| lowShelf_frequency := lowShelf_frequency f;
       lowShelf_gain := 0;
       highShelf_frequency := highShelf_frequency f;
       highShelf_gain := 0;
       bandpass_frequency := bandpass_frequency f;
       bandpass_Q := bandpass_Q f;
       bandpass_gain := 0;
       compressor_threshold := -24;
       compressor_knee := compressor_knee f;
       compressor_ratio := 4;
       compressor_attack := compressor_attack f;
       compressor_release := compressor_release f |}.

Definition updateFilters (fx : t) : t :=
  match audioContext fx with
  | None => fx
  | Some g =>
      {| audioContext :=
           Some {| filters := presetFilters (currentPreset fx)
                                (reductionStrength fx) (filters g);
                   bypassGain := bypassGain g;
                   processedGain := processedGain g |};
         currentPreset := currentPreset fx;
         reductionStrength := reductionStrength fx;
         isProcessed := isProcessed fx |}
  end.

(** [updateBypass]: the two ramps of the 50 ms crossfade, by their
    targets. *)
Definition updateBypass (fx : t) : t :=
  match audioContext fx with
  | None => fx
  | Some g =>
      {| audioContext :=
           Some {| filters := filters g;
                   bypassGain := if isProcessed fx then 0 else 1;
                   processedGain := if isProcessed fx then 1 else 0 |};
         currentPreset := currentPreset fx;
         reductionStrength := reductionStrength fx;
         isProcessed := isProcessed fx |}
  end.

(** [initAudioContext], when the browser builds the graph. *)
Definition initAudioContext (fx : t) : t :=
  match audioContext fx with
  | Some _ => fx
  | None =>
      updateBypass
        {| audioContext := Some {| filters := createFilters;
                                   bypassGain := 1; processedGain := 1 |};
           currentPreset := currentPreset fx;
           reductionStrength := reductionStrength fx;
           isProcessed := isProcessed fx |}
  end.

Definition set_isProcessed (b : bool) (fx : t) : t :=
  {| audioContext := audioContext fx;
     currentPreset := currentPreset fx;
     reductionStrength := reductionStrength fx;
     isProcessed := b |}.

Definition setPreset (preset : string) (fx : t) : t :=
  let fx := {| audioContext := audioContext fx;
               currentPreset := preset;
               reductionStrength := reductionStrength fx;
               isProcessed := isProcessed fx |} in
  let fx := updateFilters fx in
  if negb (String.eqb preset "off") && negb (isProcessed fx) then
    updateBypass (set_isProcessed true fx)
  else if String.eqb preset "off" && isProcessed fx then
    updateBypass (set_isProcessed false fx)
  else fx.

(** The slider's [input] listener. *)
Definition setStrength (value : Z) (fx : t) : t :=
  updateFilters
    {| audioContext := audioContext fx;
       currentPreset := currentPreset fx;
       reductionStrength := value;
       isProcessed := isProcessed fx |}.

(** The click listener of the A/B toggle. *)
Definition toggleAB (fx : t) : t :=
  updateBypass (set_isProcessed (negb (isProcessed fx)) fx).

(** What [getProcessedStream] taps. *)
Inductive Stream := CompressorTap | SourceTap.

Definition getProcessedStream (fx : t) : option Stream :=
  match audioContext fx with
  | None => None
  | Some _ =>
      Some (if negb (String.eqb (currentPreset fx) "off")
            then CompressorTap else SourceTap)
  end.

Definition getCurrentPreset (fx : t) : string := currentPreset fx.

Definition isAudioProcessed (fx : t) : bool :=
  isProcessed fx && negb (String.eqb (currentPreset fx) "off").

(** The specification's view of [updateFilters]: the parameter set. *)
Record FilterParameterSet := {
  lowShelfGainDb : Q;
  highShelfGainDb : Q;
  peakFrequencyHz : Q;
  peakGainDb : Q;
  peakQ : Q;
  compressorThresholdDb : Q;
  compressorRatio : Q
}.

Definition parametersOf (f : Filters) : FilterParameterSet := {|
  lowShelfGainDb := lowShelf_gain f;
  highShelfGainDb := highShelf_gain f;
  peakFrequencyHz := bandpass_frequency f;
  peakGainDb := bandpass_gain f;
  peakQ := bandpass_Q f;
  compressorThresholdDb := compressor_threshold f;
  compressorRatio := compressor_ratio f
|}.

(** [computeParameters preset strengthPercent]: what [updateFilters]
    leaves in a freshly created filter chain. *)
Definition computeParameters (preset : string) (strengthPercent : Z)
    : FilterParameterSet :=
  parametersOf (presetFilters preset strengthPercent createFilters).

End AudioFX.

(** ** The export jobs (class [Exporter])

    One state [t] holds the exporter's own fields, the fields of the
    application it reads, the parts of the page it touches, the store the
    closures of a capture share, and a log of what was shown, downloaded
    and asked of the transcoding engine.  Methods are state transformers
    that may throw.  An [async] method runs to its settlement in one step:
    what it awaits settles as an [Env] says, and nothing else happens in
    between.  The callbacks the browser owes afterwards (the recorder's
    [stop] event, the progress timer, the [ended] event of the media, the
    timeout of the success path) are events of their own, see [step]. *)

Module Exporter.
Local Open Scope string_scope.

Inductive Severity := success | warning | error.

(** The [<video>] element, as far as the exporter touches it. *)
Record Media := {
  currentTime : Q;
  paused : bool;
  duration : Q
}.

(** What the closures of one call of [downloadProcessedAudio] share: the
    saved position, the recorder, the progress timer and the [ended]
    listener. *)
Record Capture := {
  startTime : Q;
  recording : bool;        (* mediaRecorder.state === 'recording' *)
  onstopPending : bool;    (* a 'stop' event is queued *)
  progressInterval : bool; (* the interval timer is alive *)
  onEnded : bool           (* the 'ended' listener is attached *)
}.

(** The transcoding engine: whether [load] has completed, and the names
    in its working storage. *)
Record FFmpeg := {
  loaded : bool;
  files : list string
}.

(** The audio filter handed to the engine; its filter-graph text is kept
    symbolic. *)
Inductive AudioFilter := NoFilter | SpeechFilter | MusicReduceFilter.

Inductive EngineOp :=
| ImportModules
| LoadCore
| WriteFile (name : string)
| Exec (filter : AudioFilter)
| ReadFile (name : string)
| DeleteFile (name : string).

Inductive Blob :=
| WavBlob (bytes : list Z)
| WebmBlob
| Mp4Blob.

Record Modal := {
  hidden : bool;
  title : string;
  status : string;
  percent : Q
}.

Record t := {
  ffmpeg : option FFmpeg;
  isLoading : bool;
  isExporting : bool;
  abortController : option nat;
  audioFx : option AudioFX.t;
  videoFile : option (list Z);
  currentVideo : option string;
  video : option Media;
  modal : Modal;
  captures : list Capture;
  timeouts : nat;
  toasts : list (string * Severity);
  downloads : list (string * Blob);
  engineLog : list EngineOp
}.

Definition set_ffmpeg (v : option FFmpeg) (s : t) : t :=
  {| ffmpeg := v;
     isLoading := isLoading s;
     isExporting := isExporting s;
     abortController := abortController s;
     audioFx := audioFx s;
     videoFile := videoFile s;
     currentVideo := currentVideo s;
     video := video s;
     modal := modal s;
     captures := captures s;
     timeouts := timeouts s;
     toasts := toasts s;
     downloads := downloads s;
     engineLog := engineLog s |}.

Definition set_isLoading (v : bool) (s : t) : t :=
  {| ffmpeg := ffmpeg s;
     isLoading := v;
     isExporting := isExporting s;
     abortController := abortController s;
     audioFx := audioFx s;
     videoFile := videoFile s;
     currentVideo := currentVideo s;
     video := video s;
     modal := modal s;
     captures := captures s;
     timeouts := timeouts s;
     toasts := toasts s;
     downloads := downloads s;
     engineLog := engineLog s |}.

Definition set_isExporting (v : bool) (s : t) : t :=
  {| ffmpeg := ffmpeg s;
     isLoading := isLoading s;
     isExporting := v;
     abortController := abortController s;
     audioFx := audioFx s;
     videoFile := videoFile s;
     currentVideo := currentVideo s;
     video := video s;
     modal := modal s;
     captures := captures s;
     timeouts := timeouts s;
     toasts := toasts s;
     downloads := downloads s;
     engineLog := engineLog s |}.

Definition set_abortController (v : option nat) (s : t) : t :=
  {| ffmpeg := ffmpeg s;
     isLoading := isLoading s;
     isExporting := isExporting s;
     abortController := v;
     audioFx := audioFx s;
     videoFile := videoFile s;
     currentVideo := currentVideo s;
     video := video s;
     modal := modal s;
     captures := captures s;
     timeouts := timeouts s;
     toasts := toasts s;
     downloads := downloads s;
     engineLog := engineLog s |}.

Definition set_audioFx (v : option AudioFX.t) (s : t) : t :=
  {| ffmpeg := ffmpeg s;
     isLoading := isLoading s;
     isExporting := isExporting s;
     abortController := abortController s;
     audioFx := v;
     videoFile := videoFile s;
     currentVideo := currentVideo s;
     video := video s;
     modal := modal s;
     captures := captures s;
     timeouts := timeouts s;
     toasts := toasts s;
     downloads := downloads s;
     engineLog := engineLog s |}.

Definition set_videoFile (v : option (list Z)) (s : t) : t :=
  {| ffmpeg := ffmpeg s;
     isLoading := isLoading s;
     isExporting := isExporting s;
     abortController := abortController s;
     audioFx := audioFx s;
     videoFile := v;
     currentVideo := currentVideo s;
     video := video s;
     modal := modal s;
     captures := captures s;
     timeouts := timeouts s;
     toasts := toasts s;
     downloads := downloads s;
     engineLog := engineLog s |}.

Definition set_currentVideo (v : option string) (s : t) : t :=
  {| ffmpeg := ffmpeg s;
     isLoading := isLoading s;
     isExporting := isExporting s;
     abortController := abortController s;
     audioFx := audioFx s;
     videoFile := videoFile s;
     currentVideo := v;
     video := video s;
     modal := modal s;
     captures := captures s;
     timeouts := timeouts s;
     toasts := toasts s;
     downloads := downloads s;
     engineLog := engineLog s |}.

Definition set_video (v : option Media) (s : t) : t :=
  {| ffmpeg := ffmpeg s;
     isLoading := isLoading s;
     isExporting := isExporting s;
     abortController := abortController s;
     audioFx := audioFx s;
     videoFile := videoFile s;
     currentVideo := currentVideo s;
     video := v;
     modal := modal s;
     captures := captures s;
     timeouts := timeouts s;
     toasts := toasts s;
     downloads := downloads s;
     engineLog := engineLog s |}.

Definition set_modal (v : Modal) (s : t) : t :=
  {| ffmpeg := ffmpeg s;
     isLoading := isLoading s;
     isExporting := isExporting s;
     abortController := abortController s;
     audioFx := audioFx s;
     videoFile := videoFile s;
     currentVideo := currentVideo s;
     video := video s;
     modal := v;
     captures := captures s;
     timeouts := timeouts s;
     toasts := toasts s;
     downloads := downloads s;
     engineLog := engineLog s |}.

Definition set_captures (v : list Capture) (s : t) : t :=
  {| ffmpeg := ffmpeg s;
     isLoading := isLoading s;
     isExporting := isExporting s;
     abortController := abortController s;
     audioFx := audioFx s;
     videoFile := videoFile s;
     currentVideo := currentVideo s;
     video := video s;
     modal := modal s;
     captures := v;
     timeouts := timeouts s;
     toasts := toasts s;
     downloads := downloads s;
     engineLog := engineLog s |}.

Definition set_timeouts (v : nat) (s : t) : t :=
  {| ffmpeg := ffmpeg s;
     isLoading := isLoading s;
     isExporting := isExporting s;
     abortController := abortController s;
     audioFx := audioFx s;
     videoFile := videoFile s;
     currentVideo := currentVideo s;
     video := video s;
     modal := modal s;
     captures := captures s;
     timeouts := v;
     toasts := toasts s;
     downloads := downloads s;
     engineLog := engineLog s |}.

Definition set_toasts (v : list (string * Severity)) (s : t) : t :=
  {| ffmpeg := ffmpeg s;
     isLoading := isLoading s;
     isExporting := isExporting s;
     abortController := abortController s;
     audioFx := audioFx s;
     videoFile := videoFile s;
     currentVideo := currentVideo s;
     video := video s;
     modal := modal s;
     captures := captures s;
     timeouts := timeouts s;
     toasts := v;
     downloads := downloads s;
     engineLog := engineLog s |}.

Definition set_downloads (v : list (string * Blob)) (s : t) : t :=
  {| ffmpeg := ffmpeg s;
     isLoading := isLoading s;
     isExporting := isExporting s;
     abortController := abortController s;
     audioFx := audioFx s;
     videoFile := videoFile s;
     currentVideo := currentVideo s;
     video := video s;
     modal := modal s;
     captures := captures s;
     timeouts := timeouts s;
     toasts := toasts s;
     downloads := v;
     engineLog := engineLog s |}.

Definition set_engineLog (v : list EngineOp) (s : t) : t :=
  {| ffmpeg := ffmpeg s;
     isLoading := isLoading s;
     isExporting := isExporting s;
     abortController := abortController s;
     audioFx := audioFx s;
     videoFile := videoFile s;
     currentVideo := currentVideo s;
     video := video s;
     modal := modal s;
     captures := captures s;
     timeouts := timeouts s;
     toasts := toasts s;
     downloads := downloads s;
     engineLog := v |}.

(** What a rejected promise or a [throw] carries: an object with a
    [message], as every [Error] and [DOMException] is, or a value without
    one, as a string is. *)
Inductive Exception :=
| ErrorObject (message : string)
| Primitive (value : string).

(** [e.message]; [None] stands for [undefined]. *)
Definition messageOf (e : Exception) : option string :=
  match e with
  | ErrorObject message => Some message
  | Primitive _ => None
  end.

(** [text + e.message] *)
Definition appendMessage (text : string) (e : Exception) : string :=
  text ++ from_option id "undefined" (messageOf e).

(** How an awaited operation of the browser or of the engine settles: it
    resolves, it rejects with an error object, or it rejects with a
    string. *)
Inductive Outcome :=
| Resolves
| Rejects (message : string)
| RejectsValue (value : string).

(** The settlements that one run of an entry point meets. *)
Record Env := {
  play : Outcome;                       (* video.play() *)
  decodeAudioData : option Wav.AudioBuffer; (* None: rejected *)
  importFFmpeg : Outcome;               (* the two dynamic imports *)
  loadFFmpeg_core : Outcome;            (* ffmpeg.load(...) *)
  writeFile : Outcome;
  exec : Outcome;
  execProgress : list Q;                (* the engine's progress events *)
  readFile : Outcome;
  deleteInput : Outcome;
  deleteOutput : Outcome;
  notLoaded : Exception                 (* a call of an engine never loaded *)
}.

(** A method body: it returns or throws, and leaves a state either way. *)
Inductive Result (A : Type) :=
| Return (a : A) (s : t)
| Throw (e : Exception) (s : t).
Arguments Return {A} a s.
Arguments Throw {A} e s.

Definition M (A : Type) := t -> Result A.

Definition ret {A} (a : A) : M A := fun s => Return a s.
(** [throw new Error(message)], and the errors the language raises. *)
Definition throw {A} (message : string) : M A :=
  fun s => Throw (ErrorObject message) s.
Definition reject {A} (e : Exception) : M A := fun s => Throw e s.
Definition bind {A B} (m : M A) (k : A -> M B) : M B :=
  fun s => match m s with
           | Return a s' => k a s'
           | Throw e s' => Throw e s'
           end.
Definition get : M t := fun s => Return s s.
Definition modify (f : t -> t) : M unit := fun s => Return tt (f s).
(** [try { body } catch (e) { handler(e) }] *)
Definition try_catch {A} (body : M A) (handler : Exception -> M A) : M A :=
  fun s => match body s with
           | Return a s' => Return a s'
           | Throw e s' => handler e s'
           end.
(** [try { body } finally { fin }] *)
Definition try_finally {A} (body : M A) (fin : t -> t) : M A :=
  fun s => match body s with
           | Return a s' => Return a (fin s')
           | Throw e s' => Throw e (fin s')
           end.
Definition await (o : Outcome) : M unit :=
  match o with
  | Resolves => ret tt
  | Rejects message => throw message
  | RejectsValue value => reject (Primitive value)
  end.
(** The state an event handler leaves; an exception that escapes it is
    reported by the browser and goes no further. *)
Definition run {A} (m : M A) (s : t) : t :=
  match m s with
  | Return _ s' => s'
  | Throw _ s' => s'
  end.

Declare Scope exporter_scope.
Delimit Scope exporter_scope with exporter.
Notation "x <- m ;; k" := (bind m (fun x => k))
  (at level 100, m at next level, right associativity) : exporter_scope.
Notation "m ;; k" := (bind m (fun _ => k))
  (at level 100, right associativity) : exporter_scope.
Local Open Scope exporter_scope.

(** *** The page and the user-interface collaborators *)

Definition showToast (message : string) (type : Severity) : M unit :=
  modify (fun s => set_toasts (toasts s ++ [(message, type)]) s).

Definition updateExportProgress (p : Q) : M unit :=
  modify (fun s => set_modal {| hidden := hidden (modal s);
                                title := title (modal s);
                                status := status (modal s);
                                percent := p |} s).

Definition updateExportStatus (text : string) : M unit :=
  modify (fun s => set_modal {| hidden := hidden (modal s);
                                title := title (modal s);
                                status := text;
                                percent := percent (modal s) |} s).

Definition showExportModal (text : string) : M unit :=
  modify (fun s => set_modal {| hidden := false;
                                title := text;
                                status := status (modal s);
                                percent := percent (modal s) |} s) ;;
  updateExportProgress 0.

Definition hideExportModal : M unit :=
  modify (fun s => set_modal {| hidden := true;
                                title := title (modal s);
                                status := status (modal s);
                                percent := percent (modal s) |} s).

Definition downloadBlob (blob : Blob) (filename : string) : M unit :=
  modify (fun s => set_downloads (downloads s ++ [(filename, blob)]) s).

(** [video.currentTime = x], [video.pause()], and [video.play()] once
    its promise has resolved. *)
Definition seek (x : Q) (m : Media) : Media :=
  {| currentTime := x; paused := paused m; duration := duration m |}.
Definition pause (m : Media) : Media :=
  {| currentTime := currentTime m; paused := true; duration := duration m |}.
Definition played (m : Media) : Media :=
  {| currentTime := currentTime m; paused := false; duration := duration m |}.

Definition onVideo (f : Media -> Media) : M unit :=
  modify (fun s => set_video (f <$> video s) s).

Definition onCapture (id : nat) (f : Capture -> Capture) : M unit :=
  modify (fun s => set_captures (alter f id (captures s)) s).

(** *** Export file names *)

(** The length of the final extension, read from the end of the name:
    the characters up to the last dot, none of them a slash. *)
Fixpoint extensionLength (reversed : list ascii) : option nat :=
  match reversed with
  | [] => None
  | c :: rest =>
      if Ascii.eqb c "." then Some 0%nat
      else if Ascii.eqb c "/" then None
      else S <$> extensionLength rest
  end.

(** [name.replace(/\.[^/.]+$/, '')] *)
Definition stripExtension (name : string) : string :=
  let chars := list_ascii_of_string name in
  match extensionLength (rev chars) with
  | Some (S n) => string_of_list_ascii (take (length chars - S (S n)) chars)
  | _ => name
  end.

(** [x || fallback] on strings: the empty string is falsy. *)
Definition orElse (x fallback : string) : string :=
  if String.eqb x EmptyString then fallback else x.

Definition getExportFilename (extension : string) : M string :=
  s <- get ;;
  let baseName :=
    match currentVideo s with
    | Some name => orElse (stripExtension name) "video"
    | None => "video"
    end in
  let preset :=
    match audioFx s with
    | Some fx => orElse (AudioFX.getCurrentPreset fx) "original"
    | None => "original"
    end in
  ret (baseName ++ "_" ++ preset ++ "." ++ extension).

(** [haystack.includes(needle)] *)
Fixpoint includes (needle haystack : string) : bool :=
  String.prefix needle haystack ||
  match haystack with
  | EmptyString => false
  | String _ rest => includes needle rest
  end.

(** *** Audio export *)

Definition convertToWav (env : Env) : M Blob :=
  match decodeAudioData env with
  | None => throw "EncodingError"
  | Some audioBuffer =>
      match Wav.audioBufferToWav audioBuffer with
      | Some wavBuffer => ret (WavBlob wavBuffer)
      | None => throw "RangeError"
      end
  end.

(** [mediaRecorder.onstop] of capture [id] *)
Definition onstop (id : nat) (env : Env) : M unit :=
  updateExportStatus "Creating audio file..." ;;
  updateExportProgress 80 ;;
  try_catch
    (wavBlob <- convertToWav env ;;
     filename <- getExportFilename "wav" ;;
     downloadBlob wavBlob filename ;;
     showToast "Audio exported successfully!" success)
    (fun _ =>
     filename <- getExportFilename "webm" ;;
     downloadBlob WebmBlob filename ;;
     showToast "Audio exported as WebM (WAV conversion unavailable)" success) ;;
  hideExportModal ;;
  modify (set_isExporting false).

(** [mediaRecorder.stop()]: an [InvalidStateError] on an inactive
    recorder; else the recorder turns inactive and a [stop] event is
    queued. *)
Definition mediaRecorder_stop (id : nat) : M unit :=
  s <- get ;;
  match captures s !! id with
  | Some c =>
      if recording c then
        onCapture id (fun c => {| startTime := startTime c;
                                  recording := false;
                                  onstopPending := true;
                                  progressInterval := progressInterval c;
                                  onEnded := onEnded c |})
      else throw "InvalidStateError"
  | None => throw "InvalidStateError"
  end.

Definition clearInterval (id : nat) : M unit :=
  onCapture id (fun c => {| startTime := startTime c;
                            recording := recording c;
                            onstopPending := onstopPending c;
                            progressInterval := false;
                            onEnded := onEnded c |}).

Definition setInterval (id : nat) : M unit :=
  onCapture id (fun c => {| startTime := startTime c;
                            recording := recording c;
                            onstopPending := onstopPending c;
                            progressInterval := true;
                            onEnded := onEnded c |}).

Definition removeEventListener_ended (id : nat) : M unit :=
  onCapture id (fun c => {| startTime := startTime c;
                            recording := recording c;
                            onstopPending := onstopPending c;
                            progressInterval := progressInterval c;
                            onEnded := false |}).

Definition addEventListener_ended (id : nat) : M unit :=
  onCapture id (fun c => {| startTime := startTime c;
                            recording := recording c;
                            onstopPending := onstopPending c;
                            progressInterval := progressInterval c;
                            onEnded := true |}).

(** [video.currentTime = startTime], with the closure's [startTime]. *)
Definition restoreStartTime (id : nat) : M unit :=
  s <- get ;;
  match captures s !! id with
  | Some c => onVideo (seek (startTime c))
  | None => ret tt
  end.

(** The [ended] listener of capture [id]. *)
Definition onEnded_listener (id : nat) : M unit :=
  clearInterval id ;;
  mediaRecorder_stop id ;;
  removeEventListener_ended id ;;
  restoreStartTime id ;;
  onVideo pause.

(** [abortController.abort] of capture [id]. *)
Definition abort (id : nat) : M unit :=
  clearInterval id ;;
  mediaRecorder_stop id ;;
  removeEventListener_ended id ;;
  restoreStartTime id ;;
  onVideo pause.

(** The callback of the progress timer. A zero [duration] gives [NaN] in
    the source and 0 here. *)
Definition onProgressInterval : M unit :=
  s <- get ;;
  match video s with
  | Some v => updateExportProgress (currentTime v / duration v * 70)%Q
  | None => ret tt
  end.

Definition downloadProcessedAudio (env : Env) : M unit :=
  s <- get ;;
  if isExporting s then
    showToast "Export already in progress" warning
  else
    match audioFx s with
    | None => showToast "Please select an audio preset first" warning
    | Some fx =>
        if negb (AudioFX.isAudioProcessed fx) then
          showToast "Please select an audio preset first" warning
        else
          match video s with
          | None => ret tt
          | Some v =>
              modify (set_isExporting true) ;;
              showExportModal "Exporting Audio" ;;
              updateExportStatus "Preparing audio stream..." ;;
              try_catch
                (match AudioFX.getProcessedStream fx with
                 | None => throw "Could not get processed audio stream"
                 | Some _ =>
                     (* new MediaRecorder(stream), and the names the
                        closures below share *)
                     s <- get ;;
                     let id := length (captures s) in
                     modify (set_captures
                               (captures s ++
                                [{| startTime := currentTime v;
                                    recording := false;
                                    onstopPending := false;
                                    progressInterval := false;
                                    onEnded := false |}])) ;;
                     updateExportStatus "Recording processed audio..." ;;
                     (* mediaRecorder.start() *)
                     onCapture id (fun c =>
                       {| startTime := startTime c;
                          recording := true;
                          onstopPending := onstopPending c;
                          progressInterval := progressInterval c;
                          onEnded := onEnded c |}) ;;
                     (* const startTime = video.currentTime;
                        video.currentTime = 0 *)
                     onVideo (seek 0) ;;
                     await (play env) ;;
                     onVideo played ;;
                     setInterval id ;;
                     addEventListener_ended id ;;
                     modify (set_abortController (Some id))
                 end)
                (fun e =>
                 showToast (appendMessage "Audio export failed: " e) error ;;
                 hideExportModal ;;
                 modify (set_isExporting false))
          end
    end.

Definition cancelExport : M unit :=
  s <- get ;;
  match abortController s with
  | Some id => abort id
  | None => ret tt
  end ;;
  hideExportModal ;;
  modify (set_isExporting false) ;;
  showToast "Export cancelled" warning.

(** *** Video export *)

Definition logOp (op : EngineOp) : M unit :=
  modify (fun s => set_engineLog (engineLog s ++ [op]) s).

(** [loadFFmpeg]. A call that finds a load in flight waits for that
    load, which belongs to another run, and returns. *)
Definition loadFFmpeg (env : Env) : M unit :=
  s <- get ;;
  match ffmpeg s with
  | Some _ => ret tt
  | None =>
      if isLoading s then ret tt
      else
        modify (set_isLoading true) ;;
        try_finally
          (try_catch
             (logOp ImportModules ;;
              await (importFFmpeg env) ;;
              modify (set_ffmpeg (Some {| loaded := false; files := [] |})) ;;
              logOp LoadCore ;;
              await (loadFFmpeg_core env) ;;
              modify (fun s =>
                set_ffmpeg
                  ((fun e => {| loaded := true; files := files e |})
                     <$> ffmpeg s) s))
             (fun e => throw (appendMessage "Failed to load ffmpeg.wasm: " e)))
          (set_isLoading false)
  end.

(** A call of a method of [this.ffmpeg]: a [TypeError] when the field is
    [null], the engine's own rejection when it was never loaded, else the
    call settles as the environment says and, when it resolves, changes
    the working storage. *)
Definition ffmpeg_call (env : Env) (op : EngineOp) (o : Outcome)
    (effect : list string -> list string) : M unit :=
  s <- get ;;
  match ffmpeg s with
  | None => throw "Cannot read properties of null"
  | Some e =>
      logOp op ;;
      if loaded e then
        await o ;;
        modify (set_ffmpeg
                  (Some {| loaded := true; files := effect (files e) |}))
      else reject (notLoaded env)
  end.

Definition addFile (name : string) (fs : list string) : list string :=
  name :: List.filter (fun n => negb (String.eqb n name)) fs.

Definition removeFile (name : string) (fs : list string) : list string :=
  List.filter (fun n => negb (String.eqb n name)) fs.

Definition ffmpeg_writeFile (env : Env) (name : string) : M unit :=
  ffmpeg_call env (WriteFile name) (writeFile env) (addFile name).

Definition ffmpeg_readFile (env : Env) (name : string) : M unit :=
  ffmpeg_call env (ReadFile name) (readFile env) (fun fs => fs).

Definition ffmpeg_deleteFile (env : Env) (o : Outcome) (name : string)
    : M unit :=
  ffmpeg_call env (DeleteFile name) o (removeFile name).

(** The listener of the engine's [progress] event, once per event. *)
Fixpoint onProgress (events : list Q) : M unit :=
  match events with
  | [] => ret tt
  | progress :: rest =>
      updateExportProgress (60 + progress * 35)%Q ;;
      onProgress rest
  end.

(** [ffmpeg.exec([... , outputName])]: the progress events, then the
    settlement; the output file exists once it resolves. *)
Definition ffmpeg_exec (env : Env) (audioFilter : AudioFilter)
    (outputName : string) : M unit :=
  s <- get ;;
  match ffmpeg s with
  | None => throw "Cannot read properties of null"
  | Some e =>
      logOp (Exec audioFilter) ;;
      if loaded e then
        onProgress (execProgress env) ;;
        await (exec env) ;;
        modify (set_ffmpeg
                  (Some {| loaded := true;
                           files := addFile outputName (files e) |}))
      else reject (notLoaded env)
  end.

Definition downloadProcessedVideo (env : Env) : M unit :=
  s <- get ;;
  if isExporting s then
    showToast "Export already in progress" warning
  else
    modify (set_isExporting true) ;;
    showExportModal "Exporting Video" ;;
    updateExportStatus "Loading ffmpeg.wasm (this may take a moment)..." ;;
    try_catch
      (loadFFmpeg env ;;
       s <- get ;;
       match video s, videoFile s with
       | Some _, Some videoData =>
           updateExportStatus "Processing video..." ;;
           updateExportProgress 20 ;;
           ffmpeg_writeFile env "input.mp4" ;;
           updateExportStatus "Extracting and processing audio..." ;;
           updateExportProgress 40 ;;
           let preset :=
             match audioFx s with
             | Some fx => orElse (AudioFX.getCurrentPreset fx) "off"
             | None => "off"
             end in
           let audioFilter :=
             if String.eqb preset "speech" then SpeechFilter
             else if String.eqb preset "music-reduce" then MusicReduceFilter
             else NoFilter in
           updateExportStatus "Encoding video with processed audio..." ;;
           updateExportProgress 60 ;;
           let outputName := "output.mp4" in
           ffmpeg_exec env audioFilter outputName ;;
           updateExportStatus "Preparing download..." ;;
           updateExportProgress 95 ;;
           ffmpeg_readFile env outputName ;;
           filename <- getExportFilename "mp4" ;;
           downloadBlob Mp4Blob filename ;;
           (* Cleanup *)
           ffmpeg_deleteFile env (deleteInput env) "input.mp4" ;;
           ffmpeg_deleteFile env (deleteOutput env) outputName ;;
           updateExportProgress 100 ;;
           showToast "Video exported successfully!" success ;;
           (* setTimeout(..., 500) *)
           modify (fun s => set_timeouts (S (timeouts s)) s)
       | _, _ =>
           throw "Video file required for export. URL-based videos cannot be re-encoded."
       end)
      (fun e =>
       match messageOf e with
       | None =>
           (* e.message.includes: a TypeError inside the catch block *)
           throw "Cannot read properties of undefined (reading 'includes')"
       | Some text =>
           let message :=
             if includes "SharedArrayBuffer" text then
               "Video export requires HTTPS with proper headers. Try audio export instead."
             else if includes "URL-based" text then text
             else "Video export failed" in
           showToast message error ;;
           hideExportModal ;;
           modify (set_isExporting false)
       end).

(** The callback of the success path's [setTimeout]. *)
Definition onTimeout : M unit :=
  hideExportModal ;;
  modify (set_isExporting false).

(** *** Events *)

(** What can happen to the page: the three buttons, and the callbacks
    the browser owes to earlier calls. *)
Inductive Event :=
| ClickDownloadAudio (env : Env)
| ClickDownloadVideo (env : Env)
| ClickCancel
| Playback (position : Q)
| IntervalTick (id : nat)
| MediaEnded
| RecorderStopped (id : nat) (env : Env)
| TimeoutFired.

(** The [ended] listeners still attached, in the order they were added. *)
Definition endedListeners (s : t) : list nat :=
  List.filter (fun id => from_option onEnded false (captures s !! id))
              (seq 0 (length (captures s))).

Definition step (ev : Event) (s : t) : t :=
  match ev with
  | ClickDownloadAudio env => run (downloadProcessedAudio env) s
  | ClickDownloadVideo env => run (downloadProcessedVideo env) s
  | ClickCancel => run cancelExport s
  | Playback position => run (onVideo (seek position)) s
  | IntervalTick id =>
      if from_option progressInterval false (captures s !! id)
      then run onProgressInterval s else s
  | MediaEnded =>
      let s := run (onVideo (fun m => seek (duration m) m)) s in
      fold_left (fun s id => run (onEnded_listener id) s) (endedListeners s) s
  | RecorderStopped id env =>
      if from_option onstopPending false (captures s !! id)
      then run (onCapture id (fun c =>
                  {| startTime := startTime c;
                     recording := recording c;
                     onstopPending := false;
                     progressInterval := progressInterval c;
                     onEnded := onEnded c |}) ;;
                onstop id env) s
      else s
  | TimeoutFired =>
      match timeouts s with
      | O => s
      | S n => run onTimeout (set_timeouts n s)
      end
  end.

Definition steps (evs : list Event) (s : t) : t :=
  fold_left (fun s ev => step ev s) evs s.

(** The exporter as its constructor leaves it, in a page that shows the
    given video. *)
Definition new (fx : option AudioFX.t) (file : option (list Z))
    (name : option string) (v : option Media) : t :=
  {| ffmpeg := None;
     isLoading := false;
     isExporting := false;
     abortController := None;
     audioFx := fx;
     videoFile := file;
     currentVideo := name;
     video := v;
     modal := {| hidden := true; title := EmptyString; status := EmptyString; percent := 0 |};
     captures := [];
     timeouts := 0;
     toasts := [];
     downloads := [];
     engineLog := [] |}.

(** *** The two rejections of the entry points *)

Definition busyToast : string * Severity :=
  ("Export already in progress", warning).

Definition noPresetToast : string * Severity :=
  ("Please select an audio preset first", warning).

Definition sourceNotReencodable : string :=
  "Video file required for export. URL-based videos cannot be re-encoded.".

(** The state a rejected request leaves: the toast, and nothing else. *)
Definition rejected (toast : string * Severity) (s : t) : t :=
  set_toasts (toasts s ++ [toast]) s.

(** The names in the engine's working storage. *)
Definition workingStorage (s : t) : list string :=
  from_option files [] (ffmpeg s).

(** The position and the paused flag of the media. *)
Definition mediaState (s : t) : option (Q * bool) :=
  (fun m => (currentTime m, paused m)) <$> video s.

(** The events of a capture that runs undisturbed: the playback advances
    and the progress timer fires. *)
Definition playbackEvent (ev : Event) : Prop :=
  match ev with
  | Playback _ | IntervalTick _ => True
  | _ => False
  end.

(** Capture [id], begun at position [t0], is under way: it is the newest
    capture, its recorder runs, its [ended] listener is attached and the
    abort handle is its own. *)
Definition capturing (id : nat) (t0 : Q) (s : t) : Prop :=
  abortController s = Some id /\
  length (captures s) = S id /\
  (exists c, captures s !! id = Some c /\ startTime c = t0 /\
             recording c = true /\ onEnded c = true) /\
  is_Some (video s).

End Exporter.


(** ** Concrete inputs *)

(** The buffer of the specification's example: 2 channels, 44100 Hz, 1000
    frames of silence; its header reads 2, 44100, 16 and 4000. *)
Definition exampleBuffer : Wav.AudioBuffer :=
  {| Wav.sampleRate := 44100;
     Wav.length := 1000;
     Wav.channelData := [repeat 0%Q 1000; repeat 0%Q 1000] |}.

(** A two-channel buffer with full-scale and fractional samples. *)
Definition roundTripBuffer : Wav.AudioBuffer :=
  {| Wav.sampleRate := 44100;
     Wav.length := 2;
     Wav.channelData := [[1; -1]; [1 # 2; -(1 # 3)]]%Q |}.


Module Scenario.
Import Exporter.
Local Open Scope string_scope.

(** The rejection of an engine whose worker never loaded the core: the
    text of the worker's error. *)
Definition workerNotLoaded : Exception :=
  Primitive "Error: ffmpeg is not loaded, call `await ffmpeg.load()` first".

(** Every awaited operation resolves. *)
Definition allResolve : Env :=
  {| play := Resolves;
     decodeAudioData := Some roundTripBuffer;
     importFFmpeg := Resolves;
     loadFFmpeg_core := Resolves;
     writeFile := Resolves;
     exec := Resolves;
     execProgress := [(1 # 2)%Q; 1%Q];
     readFile := Resolves;
     deleteInput := Resolves;
     deleteOutput := Resolves;
     notLoaded := workerNotLoaded |}.

(** As [allResolve], but the transcode fails. *)
Definition execFails : Env :=
  {| play := Resolves;
     decodeAudioData := Some roundTripBuffer;
     importFFmpeg := Resolves;
     loadFFmpeg_core := Resolves;
     writeFile := Resolves;
     exec := Rejects "Aborted()";
     execProgress := [(1 # 2)%Q];
     readFile := Resolves;
     deleteInput := Resolves;
     deleteOutput := Resolves;
     notLoaded := workerNotLoaded |}.

(** The effects after the first play and a click on the speech preset,
    and after a further click on the A/B toggle. *)
Definition speechFx : AudioFX.t :=
  AudioFX.setPreset "speech" (AudioFX.initAudioContext AudioFX.new).

Definition speechFx_original : AudioFX.t := AudioFX.toggleAB speechFx.

(** A video that is playing, 5 seconds in. *)
Definition playingAt5 : Media :=
  {| currentTime := 5; paused := false; duration := 60 |}.

(** The watch page of a video given by URL, and of an uploaded file. *)
Definition urlPage : t :=
  new (Some speechFx) None (Some "clip.mp4") (Some playingAt5).

Definition filePage : t :=
  new (Some speechFx) (Some [0; 0; 0; 24]) (Some "clip.mp4")
      (Some playingAt5).

Definition toggledPage : t :=
  new (Some speechFx_original) None (Some "clip.mp4") (Some playingAt5).

(** The URL page while an audio export is capturing. *)
Definition busyPage : t := step (ClickDownloadAudio allResolve) urlPage.

End Scenario.

(** ** The controls of the audio effects

    What the listeners that [AudioFX.init] attaches can do to the
    processor: the first [play] event of the video, a click on a preset
    button, a move of the strength slider, a click on the A/B toggle. *)

Module Controls.

Inductive Action :=
| FirstPlay
| ClickPreset (preset : string)
| SlideStrength (value : Z)
| ClickAB.

Definition act (a : Action) (fx : AudioFX.t) : AudioFX.t :=
  match a with
  | FirstPlay => AudioFX.initAudioContext fx
  | ClickPreset preset => AudioFX.setPreset preset fx
  | SlideStrength value => AudioFX.setStrength value fx
  | ClickAB => AudioFX.toggleAB fx
  end.

(** The processor after a session of actions, from its constructor on. *)
Definition session (actions : list Action) : AudioFX.t :=
  fold_left (fun fx a => act a fx) actions AudioFX.new.

(** The two ramps of the crossfade end where [isProcessed] says, and the
    node parameters no method assigns are those of [createFilters]. *)
Definition settled (fx : AudioFX.t) : Prop :=
  match AudioFX.audioContext fx with
  | None => True
  | Some g =>
      AudioFX.bypassGain g = (if AudioFX.isProcessed fx then 0 else 1)%Q /\
      AudioFX.processedGain g = (if AudioFX.isProcessed fx then 1 else 0)%Q /\
      AudioFX.lowShelf_frequency (AudioFX.filters g) = 200%Q /\
      AudioFX.highShelf_frequency (AudioFX.filters g) = 4000%Q /\
      AudioFX.compressor_knee (AudioFX.filters g) = 30%Q /\
      AudioFX.compressor_attack (AudioFX.filters g) = (3 # 1000)%Q /\
      AudioFX.compressor_release (AudioFX.filters g) = (25 # 100)%Q
  end.

End Controls.

(** ** Frames and further cases of the export jobs *)

Module Frame.
Import Exporter.

(** A method keeps the relation [R] between the state it starts in and the
    state it leaves, whether it returns or throws. *)
Definition preserves (R : t -> t -> Prop) {A} (m : M A) : Prop :=
  forall s, match m s with
            | Return _ s' | Throw _ s' => R s s'
            end.

(** Nothing is shown, delivered, asked of the engine or scheduled, and the
    job flag stays. *)
Definition quiet (s s' : t) : Prop :=
  toasts s' = toasts s /\
  downloads s' = downloads s /\
  modal s' = modal s /\
  isExporting s' = isExporting s /\
  engineLog s' = engineLog s /\
  ffmpeg s' = ffmpeg s /\
  timeouts s' = timeouts s.

(** The two ways a full-video export ends. One file more is offered for
    download. *)
Definition delivered (s s' : t) : Prop :=
  exists name, downloads s' = downloads s ++ [(name, Mp4Blob)].

(** The success path: the file, the success toast, the modal still open
    and the job still busy, with the timeout that closes both scheduled. *)
Definition succeeded (s s' : t) : Prop :=
  isExporting s' = true /\ timeouts s' = S (timeouts s) /\
  toasts s' = toasts s ++ [("Video exported successfully!"%string, success)] /\
  hidden (modal s') = false /\
  delivered s s'.

(** The [catch] block: one error toast, the modal hidden and the job idle
    at once, nothing scheduled. *)
Definition failed (s s' : t) : Prop :=
  isExporting s' = false /\ timeouts s' = timeouts s /\
  (exists m, toasts s' = toasts s ++ [(m, error)]) /\
  hidden (modal s') = true /\
  (downloads s' = downloads s \/ delivered s s').

(** The [catch] block throws on reading [e.message.includes]: no toast,
    the modal left open and the job left busy, nothing scheduled. *)
Definition stuck (s s' : t) : Prop :=
  isExporting s' = true /\ timeouts s' = timeouts s /\
  toasts s' = toasts s /\
  hidden (modal s') = false /\
  (downloads s' = downloads s \/ delivered s s').

(** How the [catch] block of the video export ends on what it caught. *)
Definition caught (e : Exception) (s s' : t) : Prop :=
  match messageOf e with
  | Some _ => failed s s'
  | None => stuck s s'
  end.

(** The exception of a rejection. *)
Definition rejection (o : Outcome) : option Exception :=
  match o with
  | Resolves => None
  | Rejects message => Some (ErrorObject message)
  | RejectsValue value => Some (Primitive value)
  end.

(** Every rejection the engine can answer a call with carries a
    [message]. *)
Definition hasMessage (e : Exception) : bool :=
  match messageOf e with Some _ => true | None => false end.

Definition rejectsWithMessages (env : Env) : bool :=
  forallb (fun o => from_option hasMessage true (rejection o))
          [writeFile env; exec env; readFile env;
           deleteInput env; deleteOutput env]
  && hasMessage (notLoaded env).

End Frame.

Module Cases.
Import Exporter.
Local Open Scope string_scope.

(** The browser refuses to play. *)
Definition playRefused : Env :=
  {| play := Rejects "NotAllowedError";
     decodeAudioData := None;
     importFFmpeg := Resolves;
     loadFFmpeg_core := Resolves;
     writeFile := Resolves;
     exec := Resolves;
     execProgress := [];
     readFile := Resolves;
     deleteInput := Resolves;
     deleteOutput := Resolves;
     notLoaded := Scenario.workerNotLoaded |}.

(** The recording cannot be decoded. *)
Definition decodeFails : Env :=
  {| play := Resolves;
     decodeAudioData := None;
     importFFmpeg := Resolves;
     loadFFmpeg_core := Resolves;
     writeFile := Resolves;
     exec := Resolves;
     execProgress := [];
     readFile := Resolves;
     deleteInput := Resolves;
     deleteOutput := Resolves;
     notLoaded := Scenario.workerNotLoaded |}.

(** The modules are imported but the core does not load. *)
Definition coreLoadFails : Env :=
  {| play := Resolves;
     decodeAudioData := None;
     importFFmpeg := Resolves;
     loadFFmpeg_core := Rejects "SharedArrayBuffer is not defined";
     writeFile := Resolves;
     exec := Resolves;
     execProgress := [];
     readFile := Resolves;
     deleteInput := Resolves;
     deleteOutput := Resolves;
     notLoaded := Scenario.workerNotLoaded |}.

(** The output is delivered but the input cannot be deleted. *)
Definition cleanupFails : Env :=
  {| play := Resolves;
     decodeAudioData := None;
     importFFmpeg := Resolves;
     loadFFmpeg_core := Resolves;
     writeFile := Resolves;
     exec := Resolves;
     execProgress := [1%Q];
     readFile := Resolves;
     deleteInput := RejectsValue "ErrnoError: FS error";
     deleteOutput := Resolves;
     notLoaded := Scenario.workerNotLoaded |}.

(** The speech preset was clicked before the video ever played. *)
Definition earlyPresetPage : t :=
  new (Some (AudioFX.setPreset "speech" AudioFX.new)) None (Some "clip.mp4")
      (Some Scenario.playingAt5).

(** The audio graph after the first play and a click on the speech preset
    at strength 50: the chain holds the speech values. *)
Definition speechGraph : AudioFX.Graph :=
  {| AudioFX.filters := AudioFX.presetFilters "speech" 50 AudioFX.createFilters;
     AudioFX.bypassGain := 0;
     AudioFX.processedGain := 1 |}.

(** The processor as [updateFilters] finds it when [off] is clicked next,
    and when [music-reduce] is selected with the slider at 0. *)
Definition offAfterSpeech : AudioFX.t :=
  {| AudioFX.audioContext := Some speechGraph;
     AudioFX.currentPreset := "off";
     AudioFX.reductionStrength := 50;
     AudioFX.isProcessed := true |}.


End Cases.

(** * Properties *)

(** ** The encoder on a small buffer *)

Example audioBufferToWav_two_frames :
  Wav.audioBufferToWav
    {| Wav.sampleRate := 44100; Wav.length := 2;
       Wav.channelData := [[1; -1]; [1 # 2; -(1 # 2)]]%Q |}
  = Some [82; 73; 70; 70; 44; 0; 0; 0; 87; 65; 86; 69; 102; 109; 116; 32;
          16; 0; 0; 0; 1; 0; 2; 0; 68; 172; 0; 0; 16; 177; 2; 0; 4; 0; 16; 0;
          100; 97; 116; 97; 8; 0; 0; 0;
          255; 127; 255; 63; 0; 128; 0; 192].
Proof. vm_compute. reflexivity. Qed.


(** ** Bytes and the DataView setters *)

Section DataViewFacts.
Import DataView.

Lemma byte_range k v : 0 <= byte k v < 256.
Proof. unfold byte. apply Z.mod_pos_bound. lia. Qed.

(** Two bytes hold a value modulo 2^16, four bytes modulo 2^32. *)
Lemma bytes16 v : byte 0 v + 256 * byte 1 v = v mod 65536.
Proof.
  unfold byte. change (2 ^ (8 * 0)) with 1. change (2 ^ (8 * 1)) with 256.
  rewrite Z.div_1_r.
  change 65536 with (256 * 256).
  rewrite Z.rem_mul_r by lia. reflexivity.
Qed.

Lemma bytes32 v :
  byte 0 v + 256 * byte 1 v + 65536 * byte 2 v + 16777216 * byte 3 v
  = v mod 4294967296.
Proof.
  unfold byte.
  change (2 ^ (8 * 0)) with 1. change (2 ^ (8 * 1)) with 256.
  change (2 ^ (8 * 2)) with (256 * 256).
  change (2 ^ (8 * 3)) with (256 * (256 * 256)).
  rewrite Z.div_1_r.
  rewrite <- !Z.div_div by lia.
  change 4294967296 with (256 * (256 * (256 * 256))).
  rewrite (Z.rem_mul_r v 256) by lia.
  rewrite (Z.rem_mul_r (v / 256) 256) by lia.
  rewrite (Z.rem_mul_r (v / 256 / 256) 256) by lia.
  lia.
Qed.

(** An in-range 16-bit store, as a splice of the buffer. *)
Lemma insert2_splice (b0 b1 : Z) (offset : nat) (view : t) :
  (offset + 2 <= length view)%nat ->
  <[S offset := b1]> (<[offset := b0]> view)
  = take offset view ++ [b0; b1] ++ drop (offset + 2) view.
Proof.
  revert view. induction offset as [|o IH]; intros view Hlen.
  - destruct view as [|x [|y rest]]; simpl in Hlen; try lia. reflexivity.
  - destruct view as [|x rest]; simpl in Hlen; try lia.
    simpl. f_equal. apply IH. lia.
Qed.

Lemma setUint16_splice offset v (view : t) :
  (offset + 2 <= length view)%nat ->
  setUint16 offset v view
  = Some (take offset view ++ [byte 0 v; byte 1 v] ++ drop (offset + 2) view).
Proof.
  intros Hlen. unfold setUint16.
  destruct (Nat.leb_spec (offset + 2) (length view)); [|lia].
  f_equal. now apply insert2_splice.
Qed.

(** Out of range the store raises. *)
Lemma setUint16_RangeError offset v (view : t) :
  (length view < offset + 2)%nat -> setUint16 offset v view = None.
Proof.
  intros Hlen. unfold setUint16.
  destruct (Nat.leb_spec (offset + 2) (length view)); [lia|reflexivity].
Qed.

(** Reading a stored signed 16-bit value back. *)
Lemma getInt16_bytes (pre post : t) v :
  -32768 <= v <= 32767 ->
  getInt16 (length pre) (pre ++ [byte 0 v; byte 1 v] ++ post) = Some v.
Proof.
  intros Hv. unfold getInt16, getUint16.
  rewrite !(lookup_app_r pre) by lia.
  replace (length pre - length pre)%nat with 0%nat by lia.
  replace (S (length pre) - length pre)%nat with 1%nat by lia.
  simpl. rewrite bytes16. f_equal.
  destruct (Z.ltb_spec (v mod 65536) 32768) as [Hlt|Hge].
  - destruct (Z_lt_le_dec v 0) as [Hneg|Hpos].
    + rewrite <- (Z.mod_add v 1 65536), Z.mod_small in Hlt by lia. lia.
    + now rewrite Z.mod_small by lia.
  - destruct (Z_lt_le_dec v 0) as [Hneg|Hpos].
    + rewrite <- (Z.mod_add v 1 65536), Z.mod_small by lia. lia.
    + rewrite Z.mod_small in Hge by lia. lia.
Qed.

End DataViewFacts.

(** ** The encoder in closed form *)

Section WavLayout.
Import DataView.

Lemma writeHeader_ArrayBuffer numChannels sampleRate dataLength bufferLength n :
  Wav.writeHeader 1 16 numChannels sampleRate (numChannels * 2) dataLength
    bufferLength (ArrayBuffer (44 + n))
  = Some (Wav.headerBytes numChannels sampleRate dataLength bufferLength
          ++ replicate n 0).
Proof. reflexivity. Qed.

Lemma length_frameBytes channels chans i :
  length (Wav.frameBytes channels chans i) = (2 * length chans)%nat.
Proof.
  unfold Wav.frameBytes. induction chans as [|c chans IH]; simpl; [reflexivity|].
  rewrite IH. lia.
Qed.

Lemma length_sampleBytes channels numChannels frames :
  length (Wav.sampleBytes channels numChannels frames)
  = (2 * numChannels * length frames)%nat.
Proof.
  unfold Wav.sampleBytes. induction frames as [|i frames IH]; simpl; [lia|].
  rewrite length_app, IH, length_frameBytes, length_seq. lia.
Qed.

(** Splicing [new] over [k] bytes at [offset], then [more] just behind
    it, is one splice of [new ++ more]. *)
Lemma splice_splice (view new more : t) (offset k m : nat) :
  length new = k -> length more = m ->
  (offset + k + m <= length view)%nat ->
  take (offset + k) (take offset view ++ new ++ drop (offset + k) view)
    ++ more
    ++ drop (offset + k + m)
         (take offset view ++ new ++ drop (offset + k) view)
  = take offset view ++ (new ++ more) ++ drop (offset + (k + m)) view.
Proof.
  intros Hk Hm Hlen.
  assert (Htake : length (take offset view) = offset)
    by (rewrite length_take; lia).
  set (rest := drop (offset + k) view).
  assert (E1 : take (offset + k) (take offset view ++ new ++ rest)
               = take offset view ++ new).
  { rewrite app_assoc. apply take_app_length'. rewrite length_app. lia. }
  assert (E2 : drop (offset + k + m) (take offset view ++ new ++ rest)
               = drop (offset + k + m) view).
  { rewrite app_assoc, drop_app_ge by (rewrite length_app; lia).
    rewrite length_app, Htake, Hk. subst rest. rewrite drop_drop.
    f_equal. lia. }
  rewrite E1, E2, <- !app_assoc, Nat.add_assoc.
  reflexivity.
Qed.

(** The inner loop writes the frame's bytes at the running offset. *)
Lemma writeFrame_splice channels i chans (view : t) offset :
  (offset + 2 * length chans <= length view)%nat ->
  Wav.writeFrame channels i chans (view, offset)
  = Some (take offset view ++ Wav.frameBytes channels chans i
            ++ drop (offset + 2 * length chans) view,
          (offset + 2 * length chans)%nat).
Proof.
  revert view offset.
  induction chans as [|c chans IH]; intros view offset Hlen.
  - cbn [Wav.writeFrame Wav.frameBytes flat_map length].
    rewrite Nat.mul_0_r, Nat.add_0_r, app_nil_l, take_drop. reflexivity.
  - assert (Hl : (2 * length (c :: chans) = 2 + 2 * length chans)%nat)
      by (cbn [length]; lia).
    rewrite Hl in *.
    cbn [Wav.writeFrame]. unfold setInt16.
    rewrite setUint16_splice by lia. cbn [mbind option_bind].
    change (ToIntegerOrZero _) with (Wav.storedSample channels i c).
    rewrite IH
      by (rewrite !length_app, length_take, length_drop; cbn [length]; lia).
    f_equal. f_equal; [|lia].
    apply (splice_splice view (Wav.le16 (Wav.storedSample channels i c))
             (Wav.frameBytes channels chans i) offset 2
             (2 * length chans)); [reflexivity|apply length_frameBytes|lia].
Qed.

(** The outer loop writes every frame in turn. *)
Lemma writeFrames_splice channels numChannels frames (view : t) offset :
  (offset + 2 * numChannels * length frames <= length view)%nat ->
  Wav.writeFrames channels numChannels frames (view, offset)
  = Some (take offset view ++ Wav.sampleBytes channels numChannels frames
            ++ drop (offset + 2 * numChannels * length frames) view,
          (offset + 2 * numChannels * length frames)%nat).
Proof.
  revert view offset.
  induction frames as [|i frames IH]; intros view offset Hlen.
  - cbn [Wav.writeFrames Wav.sampleBytes flat_map length].
    rewrite Nat.mul_0_r, Nat.add_0_r, app_nil_l, take_drop. reflexivity.
  - assert (Hl : (2 * numChannels * length (i :: frames)
                  = 2 * numChannels + 2 * numChannels * length frames)%nat)
      by (cbn [length]; lia).
    rewrite Hl in *.
    cbn [Wav.writeFrames].
    rewrite writeFrame_splice by (rewrite length_seq; lia).
    rewrite length_seq. cbn [mbind option_bind].
    rewrite IH
      by (rewrite !length_app, length_take, length_drop, length_frameBytes,
            length_seq; lia).
    f_equal. f_equal; [|lia].
    apply (splice_splice view
             (Wav.frameBytes channels (seq 0 numChannels) i)
             (Wav.sampleBytes channels numChannels frames) offset
             (2 * numChannels) (2 * numChannels * length frames)).
    + rewrite length_frameBytes, length_seq. reflexivity.
    + apply length_sampleBytes.
    + lia.
Qed.

(** The encoder always returns, and what it returns is the header
    followed by the samples. *)
Lemma audioBufferToWav_layout (buffer : Wav.AudioBuffer) :
  let numChannels := Wav.numberOfChannels buffer in
  let dataLength := (Wav.length buffer * (numChannels * 2))%nat in
  Wav.audioBufferToWav buffer
  = Some (Wav.headerBytes numChannels (Wav.sampleRate buffer) dataLength
            (44 + dataLength)
          ++ Wav.sampleBytes (Wav.channelData buffer) numChannels
               (seq 0 (Wav.length buffer))).
Proof.
  intros numChannels dataLength. unfold Wav.audioBufferToWav.
  cbv zeta. change (16 / 8)%nat with 2%nat. change (Z.of_nat 16) with 16.
  fold numChannels. fold dataLength.
  rewrite writeHeader_ArrayBuffer. cbn [mbind option_bind].
  set (header := Wav.headerBytes _ _ _ _).
  assert (Hh : length header = 44%nat) by reflexivity.
  rewrite writeFrames_splice
    by (rewrite length_app, Hh, length_replicate, length_seq;
        subst dataLength; lia).
  cbn [mbind option_bind fst]. f_equal.
  rewrite length_seq.
  rewrite <- Hh at 1. rewrite take_app_length.
  rewrite drop_ge
    by (rewrite length_app, Hh, length_replicate; subst dataLength; lia).
  rewrite app_nil_r. reflexivity.
Qed.

(** The header fields, read back little-endian; each holds its value
    modulo the width of the field. *)
Lemma header_fields numChannels sampleRate dataLength bufferLength
    (samples : list Z) :
  let file := Wav.headerBytes numChannels sampleRate dataLength bufferLength
              ++ samples in
  getUint16 22 file = Some (Z.of_nat numChannels mod 65536) /\
  getUint32 24 file = Some (sampleRate mod 4294967296) /\
  getUint16 34 file = Some 16 /\
  getUint32 40 file = Some (Z.of_nat dataLength mod 4294967296).
Proof.
  intros file. subst file.
  set (header := Wav.headerBytes _ _ _ _).
  assert (Hh : length header = 44%nat) by reflexivity.
  unfold getUint16, getUint32.
  rewrite !lookup_app_l by (rewrite Hh; lia).
  subst header. unfold Wav.headerBytes, Wav.le16, Wav.le32.
  cbn [app lookup list_lookup mbind option_bind].
  rewrite !bytes32, !bytes16. repeat split; reflexivity.
Qed.

End WavLayout.

(** ** The length and the header of the WAV file *)

(** C1. For a decoded audio buffer with [numChannels] channels, sample rate
    [sampleRate] and [numFrames] frames, each within the width of its
    header field, the encoder returns a byte sequence of length
    [44 + numFrames * numChannels * 2] whose header holds, little-endian,
    the channel count at offset 22, the sample rate at offset 24, the bit
    depth 16 at offset 34 and the data length [numFrames * numChannels * 2]
    at offset 40. *)
Theorem audioBufferToWav_length_and_header (buffer : Wav.AudioBuffer) :
  let numChannels := Z.of_nat (Wav.numberOfChannels buffer) in
  let sampleRate := Wav.sampleRate buffer in
  let numFrames := Z.of_nat (Wav.length buffer) in
  numChannels < 2 ^ 16 ->
  0 <= sampleRate < 2 ^ 32 ->
  numFrames * numChannels * 2 < 2 ^ 32 ->
  exists file,
    Wav.audioBufferToWav buffer = Some file /\
    Z.of_nat (length file) = 44 + numFrames * numChannels * 2 /\
    DataView.getUint16 22 file = Some numChannels /\
    DataView.getUint32 24 file = Some sampleRate /\
    DataView.getUint16 34 file = Some 16 /\
    DataView.getUint32 40 file = Some (numFrames * numChannels * 2).
Proof.
  intros numChannels sampleRate numFrames Hc Hr Hd.
  eexists. split; [apply audioBufferToWav_layout|].
  split.
  - rewrite length_app, length_sampleBytes, length_seq.
    change (length (Wav.headerBytes _ _ _ _)) with 44%nat.
    subst numChannels numFrames. lia.
  - pose proof (header_fields (Wav.numberOfChannels buffer)
                  (Wav.sampleRate buffer)
                  (Wav.length buffer * (Wav.numberOfChannels buffer * 2))
                  (44 + Wav.length buffer * (Wav.numberOfChannels buffer * 2))
                  (Wav.sampleBytes (Wav.channelData buffer)
                     (Wav.numberOfChannels buffer)
                     (seq 0 (Wav.length buffer))))
      as (H22 & H24 & H34 & H40).
    cbv zeta in H22, H24, H34, H40.
    rewrite H22, H24, H34, H40.
    change 65536 with (2 ^ 16). change 4294967296 with (2 ^ 32).
    rewrite !Z.mod_small by (subst numChannels numFrames sampleRate; lia).
    repeat split; f_equal. subst numChannels numFrames. lia.
Qed.


Lemma audioBufferToWav_length_and_header_witness :
  exists file,
    Wav.audioBufferToWav exampleBuffer = Some file /\
    Z.of_nat (length file) = 4044 /\
    DataView.getUint16 22 file = Some 2 /\
    DataView.getUint32 24 file = Some 44100 /\
    DataView.getUint16 34 file = Some 16 /\
    DataView.getUint32 40 file = Some 4000.
Proof.
  apply (audioBufferToWav_length_and_header exampleBuffer);
    vm_compute; intuition congruence.
Defined.

(** ** Quantisation of one sample *)

Section Quantisation.
Import DataView.
Local Open Scope Q_scope.

(** Truncation towards zero stays within one unit, on the side of zero. *)
Lemma truncate_nonneg (q : Q) :
  0 <= q ->
  inject_Z (ToIntegerOrZero (Some q)) <= q /\
  q < inject_Z (ToIntegerOrZero (Some q)) + 1.
Proof.
  destruct q as [n d]. unfold Qle, Qlt, ToIntegerOrZero. cbn.
  intros Hn. rewrite Z.mul_1_r in *.
  assert (Hn' : (0 <= n)%Z) by lia.
  rewrite Z.quot_div_nonneg by lia.
  pose proof (Z.mul_div_le n (Z.pos d) ltac:(lia)).
  pose proof (Z.mul_succ_div_gt n (Z.pos d) ltac:(lia)).
  split; nia.
Qed.

Lemma truncate_nonpos (q : Q) :
  q <= 0 ->
  q <= inject_Z (ToIntegerOrZero (Some q)) /\
  inject_Z (ToIntegerOrZero (Some q)) < q + 1.
Proof.
  destruct q as [n d]. unfold Qle, Qlt, ToIntegerOrZero. cbn.
  intros Hn. rewrite Z.mul_1_r in *.
  assert (Hn' : (n <= 0)%Z) by lia.
  assert (Ht : (n ÷ Z.pos d = - (- n / Z.pos d))%Z).
  { rewrite <- Z.quot_div_nonneg by lia.
    rewrite Z.quot_opp_l by lia. lia. }
  rewrite Ht.
  pose proof (Z.mul_div_le (- n) (Z.pos d) ltac:(lia)).
  pose proof (Z.mul_succ_div_gt (- n) (Z.pos d) ltac:(lia)).
  split; nia.
Qed.

(** The clamp always lands in [-1, 1], and is the identity there. *)
Lemma clampSample_range (s : Q) :
  exists s', Wav.clampSample (Some s) = Some s' /\ -1 <= s' <= 1 /\
             (-1 <= s <= 1 -> s' == s).
Proof.
  unfold Wav.clampSample, Wav.Math_max, Wav.Math_min.
  eexists. split; [reflexivity|].
  destruct (Qlt_le_dec s 1); destruct (Qlt_le_dec (-1) _);
    split; try split; intros; lra.
Qed.

Lemma decodeSample_neg (v : Z) :
  (v < 0)%Z -> Wav.decodeSample v == inject_Z v * (1 # 32768).
Proof.
  intros Hv. unfold Wav.decodeSample.
  destruct (Z.ltb_spec v 0); [|lia]. reflexivity.
Qed.

Lemma decodeSample_nonneg (v : Z) :
  (0 <= v)%Z -> Wav.decodeSample v == inject_Z v * (1 # 32767).
Proof.
  intros Hv. unfold Wav.decodeSample.
  destruct (Z.ltb_spec v 0); [lia|]. reflexivity.
Qed.

(** One sample through the encoder: the scaled value fits sixteen signed
    bits, so does its truncation, and the truncation decodes to within
    one quantisation step of the sample. *)
Lemma sample_quantisation (s : Q) :
  -1 <= s <= 1 ->
  exists q,
    Wav.intSample (Wav.clampSample (Some s)) = Some q /\
    -32768 <= q <= 32767 /\
    let v := ToIntegerOrZero (Some q) in
    (-32768 <= v <= 32767)%Z /\
    Qabs (inject_Z v - q) < 1 /\
    Qabs (Wav.decodeSample v - s) < 1 # 32767.
Proof.
  intros Hs.
  destruct (clampSample_range s) as (s' & -> & Hr & He).
  specialize (He Hs). unfold Wav.intSample.
  destruct (Qlt_le_dec s' 0) as [Hneg|Hpos]; eexists; (split; [reflexivity|]).
  - set (q := s' * 32768). split; [subst q; lra|].
    cbv zeta.
    destruct (truncate_nonpos q ltac:(subst q; lra)) as [Hlo Hhi].
    set (v := ToIntegerOrZero (Some q)) in *.
    assert (Hv : (-32768 <= v <= 0)%Z).
    { split.
      - rewrite Zle_Qle. change (inject_Z (-32768)) with (-32768). subst q. lra.
      - assert (Hlt : (v < 1)%Z)
          by (rewrite Zlt_Qlt; change (inject_Z 1) with 1; subst q; lra).
        lia. }
    split; [lia|]. split.
    + apply Qabs_Qlt_condition. lra.
    + apply Qabs_Qlt_condition.
      destruct (Z_lt_le_dec v 0) as [Hv0|Hv0].
      * rewrite decodeSample_neg by assumption. subst q. lra.
      * assert (Hz : v = 0%Z) by lia.
        rewrite decodeSample_nonneg by assumption.
        rewrite Hz in *. change (inject_Z 0) with 0 in *. subst q. lra.
  - set (q := s' * 32767). split; [subst q; lra|].
    cbv zeta.
    destruct (truncate_nonneg q ltac:(subst q; lra)) as [Hlo Hhi].
    set (v := ToIntegerOrZero (Some q)) in *.
    assert (Hv : (0 <= v <= 32767)%Z).
    { split.
      - assert (Hlt : (-1 < v)%Z)
          by (rewrite Zlt_Qlt; change (inject_Z (-1)) with (-1); subst q; lra).
        lia.
      - rewrite Zle_Qle. change (inject_Z 32767) with 32767. subst q. lra. }
    split; [lia|]. split.
    + apply Qabs_Qlt_condition. lra.
    + apply Qabs_Qlt_condition.
      rewrite decodeSample_nonneg by lia. subst q. lra.
Qed.

End Quantisation.

(** ** The WAV round trip *)

Section RoundTrip.
Import DataView.

Lemma seq_split_at (n i : nat) :
  (i < n)%nat -> seq 0 n = seq 0 i ++ i :: seq (S i) (n - S i).
Proof.
  intros Hi. replace n with (i + S (n - S i))%nat at 1 by lia.
  rewrite seq_app. reflexivity.
Qed.

Lemma frameBytes_at channels numChannels i channel :
  (channel < numChannels)%nat ->
  Wav.frameBytes channels (seq 0 numChannels) i
  = Wav.frameBytes channels (seq 0 channel) i
    ++ Wav.le16 (Wav.storedSample channels i channel)
    ++ Wav.frameBytes channels
         (seq (S channel) (numChannels - S channel)) i.
Proof.
  intros Hc. unfold Wav.frameBytes.
  rewrite (seq_split_at numChannels channel Hc), flat_map_app.
  reflexivity.
Qed.

(** Where the encoder puts sample [i] of channel [channel]. *)
Lemma sampleBytes_at channels numChannels numFrames i channel :
  (i < numFrames)%nat -> (channel < numChannels)%nat ->
  exists pre post,
    Wav.sampleBytes channels numChannels (seq 0 numFrames)
    = pre ++ Wav.le16 (Wav.storedSample channels i channel) ++ post /\
    length pre = (2 * (i * numChannels + channel))%nat.
Proof.
  intros Hi Hc.
  exists (Wav.sampleBytes channels numChannels (seq 0 i)
          ++ Wav.frameBytes channels (seq 0 channel) i),
         (Wav.frameBytes channels
            (seq (S channel) (numChannels - S channel)) i
          ++ Wav.sampleBytes channels numChannels
               (seq (S i) (numFrames - S i))).
  split.
  - unfold Wav.sampleBytes.
    rewrite (seq_split_at numFrames i Hi), flat_map_app.
    cbn [flat_map]. rewrite (frameBytes_at _ _ _ _ Hc).
    rewrite <- !app_assoc. reflexivity.
  - rewrite length_app, length_sampleBytes, length_frameBytes, !length_seq.
    lia.
Qed.

End RoundTrip.

(** C5. For a buffer whose samples all lie in [-1, 1], the encoder returns
    a file in which every sample, read back as a little-endian signed
    16-bit value and decoded, is within one quantisation step of the
    original; the scaled value the encoder computes (negatives by 32768,
    the others by 32767) fits a signed 16-bit value. *)
Theorem audioBufferToWav_round_trip (buffer : Wav.AudioBuffer) :
  Wav.wellFormed buffer ->
  Forall (Forall (fun s => -1 <= s <= 1)%Q) (Wav.channelData buffer) ->
  exists file,
    Wav.audioBufferToWav buffer = Some file /\
    forall channel ch i s,
      Wav.channelData buffer !! channel = Some ch ->
      ch !! i = Some s ->
      exists q v,
        Wav.intSample (Wav.clampSample (Some s)) = Some q /\
        (-32768 <= q <= 32767)%Q /\
        DataView.getInt16
          (Wav.sampleOffset (Wav.numberOfChannels buffer) i channel) file
        = Some v /\
        (Qabs (inject_Z v - q) < 1)%Q /\
        (Qabs (Wav.decodeSample v - s) < 1 # 32767)%Q.
Proof.
  intros Hwf Hrange.
  eexists. split; [apply audioBufferToWav_layout|].
  intros channel ch i s Hch Hs.
  assert (Hc : (channel < Wav.numberOfChannels buffer)%nat)
    by (apply lookup_lt_Some in Hch; exact Hch).
  assert (Hi : (i < Wav.length buffer)%nat).
  { unfold Wav.wellFormed in Hwf. rewrite Forall_lookup in Hwf.
    rewrite <- (Hwf _ _ Hch). apply lookup_lt_Some in Hs. exact Hs. }
  assert (Hin : (-1 <= s <= 1)%Q).
  { rewrite Forall_lookup in Hrange. specialize (Hrange _ _ Hch).
    rewrite Forall_lookup in Hrange. exact (Hrange _ _ Hs). }
  destruct (sample_quantisation s Hin) as (q & Hq & Hfit & Hv & Hstep & Hdec).
  exists q, (DataView.ToIntegerOrZero (Some q)).
  split; [exact Hq|]. split; [exact Hfit|].
  split; [|split; [exact Hstep | exact Hdec]].
  destruct (sampleBytes_at (Wav.channelData buffer)
              (Wav.numberOfChannels buffer) (Wav.length buffer) i channel
              Hi Hc) as (pre & post & -> & Hpre).
  assert (Hst : Wav.storedSample (Wav.channelData buffer) i channel
                = DataView.ToIntegerOrZero (Some q)).
  { unfold Wav.storedSample, Wav.channelSample.
    rewrite Hch. cbn [mbind option_bind]. rewrite Hs, Hq. reflexivity. }
  rewrite Hst, app_assoc.
  replace (Wav.sampleOffset (Wav.numberOfChannels buffer) i channel)
    with (length (Wav.headerBytes (Wav.numberOfChannels buffer)
                    (Wav.sampleRate buffer)
                    (Wav.length buffer * (Wav.numberOfChannels buffer * 2))
                    (44 + Wav.length buffer
                          * (Wav.numberOfChannels buffer * 2)) ++ pre)).
  - apply getInt16_bytes. exact Hv.
  - rewrite length_app, Hpre. reflexivity.
Qed.


Lemma audioBufferToWav_round_trip_witness :
  exists file,
    Wav.audioBufferToWav roundTripBuffer = Some file /\
    forall channel ch i s,
      Wav.channelData roundTripBuffer !! channel = Some ch ->
      ch !! i = Some s ->
      exists q v,
        Wav.intSample (Wav.clampSample (Some s)) = Some q /\
        (-32768 <= q <= 32767)%Q /\
        DataView.getInt16 (Wav.sampleOffset 2 i channel) file = Some v /\
        (Qabs (inject_Z v - q) < 1)%Q /\
        (Qabs (Wav.decodeSample v - s) < 1 # 32767)%Q.
Proof.
  apply (audioBufferToWav_round_trip roundTripBuffer).
  - repeat constructor.
  - repeat constructor; vm_compute; discriminate.
Defined.

(** ** The preset parameter mapping *)

Section Presets.
Import AudioFX.
Local Open Scope Q_scope.
Local Open Scope string_scope.

(** The [off] branch of [updateFilters] does not read the strength, and
    resets the three gains and the compressor on any filter chain. *)
Lemma presetFilters_off (strength : Z) (f : Filters) :
  let g := presetFilters "off" strength f in
  lowShelf_gain g = 0 /\ highShelf_gain g = 0 /\ bandpass_gain g = 0 /\
  compressor_threshold g = compressor_threshold createFilters /\
  compressor_ratio g = compressor_ratio createFilters /\
  bandpass_frequency g = bandpass_frequency f /\
  bandpass_Q g = bandpass_Q f.
Proof. repeat split. Qed.

(** [strength] as the source computes it. *)
Lemma strength_eq (p : Z) : inject_Z p / 100 == inject_Z p * (1 # 100).
Proof. reflexivity. Qed.

Lemma strength_monotone (s1 s2 : Z) :
  (0 <= s1 <= s2)%Z ->
  0 <= inject_Z s1 * (1 # 100) /\
  inject_Z s1 * (1 # 100) <= inject_Z s2 * (1 # 100).
Proof.
  intros [H0 H12]. rewrite Zle_Qle in H0, H12.
  change (inject_Z 0) with 0 in H0. split; lra.
Qed.

End Presets.

(** C6. Whatever the filter chain held before and whatever the strength,
    [updateFilters] with the [off] preset leaves the neutral parameter set:
    the low-shelf, high-shelf and peaking gains are 0 and the compressor
    threshold and ratio are the values the compressor is created with,
    -24 dB and 4. The peak frequency and the peak Q, which are no gains
    and which the [off] branch does not assign, stay as the chain held
    them. *)
Theorem updateFilters_off_neutral (fx : AudioFX.t) (g : AudioFX.Graph) :
  AudioFX.audioContext fx = Some g ->
  AudioFX.currentPreset fx = "off"%string ->
  exists g',
    AudioFX.audioContext (AudioFX.updateFilters fx) = Some g' /\
    let p := AudioFX.parametersOf (AudioFX.filters g') in
    AudioFX.lowShelfGainDb p = 0%Q /\
    AudioFX.highShelfGainDb p = 0%Q /\
    AudioFX.peakGainDb p = 0%Q /\
    AudioFX.compressorThresholdDb p
      = AudioFX.compressor_threshold AudioFX.createFilters /\
    AudioFX.compressorRatio p
      = AudioFX.compressor_ratio AudioFX.createFilters /\
    AudioFX.compressorThresholdDb p = (-24)%Q /\
    AudioFX.compressorRatio p = 4%Q /\
    AudioFX.peakFrequencyHz p
      = AudioFX.bandpass_frequency (AudioFX.filters g) /\
    AudioFX.peakQ p = AudioFX.bandpass_Q (AudioFX.filters g).
Proof.
  intros Hg Hoff. unfold AudioFX.updateFilters. rewrite Hg, Hoff.
  eexists. split; [reflexivity|]. repeat split.
Qed.

(** [off] is clicked after the speech preset at strength 50: the shelves
    come back from -6 dB and -4 dB to 0. *)
Lemma updateFilters_off_neutral_witness :
  (AudioFX.lowShelf_gain (AudioFX.filters Cases.speechGraph) == -6)%Q /\
  exists g',
    AudioFX.audioContext (AudioFX.updateFilters Cases.offAfterSpeech)
    = Some g' /\
    let p := AudioFX.parametersOf (AudioFX.filters g') in
    AudioFX.lowShelfGainDb p = 0%Q /\
    AudioFX.highShelfGainDb p = 0%Q /\
    AudioFX.peakGainDb p = 0%Q /\
    AudioFX.compressorThresholdDb p
      = AudioFX.compressor_threshold AudioFX.createFilters /\
    AudioFX.compressorRatio p
      = AudioFX.compressor_ratio AudioFX.createFilters /\
    AudioFX.compressorThresholdDb p = (-24)%Q /\
    AudioFX.compressorRatio p = 4%Q /\
    AudioFX.peakFrequencyHz p
      = AudioFX.bandpass_frequency (AudioFX.filters Cases.speechGraph) /\
    AudioFX.peakQ p = AudioFX.bandpass_Q (AudioFX.filters Cases.speechGraph).
Proof.
  split; [reflexivity|].
  apply (updateFilters_off_neutral Cases.offAfterSpeech Cases.speechGraph);
    reflexivity.
Defined.




(** C8. For each preset, the effect grows with the strength: for
    [0 <= s1 <= s2 <= 100] the magnitudes of both shelf gains, the peaking
    boost, the compressor ratio and the depth of the compressor threshold
    at [s1] are at most those at [s2]. *)
Theorem computeParameters_monotone (preset : string) (s1 s2 : Z) :
  0 <= s1 -> s1 <= s2 -> s2 <= 100 ->
  let p1 := AudioFX.computeParameters preset s1 in
  let p2 := AudioFX.computeParameters preset s2 in
  (Qabs (AudioFX.lowShelfGainDb p1) <= Qabs (AudioFX.lowShelfGainDb p2))%Q /\
  (Qabs (AudioFX.highShelfGainDb p1) <= Qabs (AudioFX.highShelfGainDb p2))%Q /\
  (AudioFX.peakGainDb p1 <= AudioFX.peakGainDb p2)%Q /\
  (AudioFX.compressorRatio p1 <= AudioFX.compressorRatio p2)%Q /\
  (Qabs (AudioFX.compressorThresholdDb p1)
   <= Qabs (AudioFX.compressorThresholdDb p2))%Q.
Proof.
  intros H0 H12 H100.
  destruct (strength_monotone s1 s2 ltac:(lia)) as [Hpos Hle].
  unfold AudioFX.computeParameters, AudioFX.presetFilters.
  destruct (String.eqb preset "speech");
    [|destruct (String.eqb preset "music-reduce")];
    cbn [AudioFX.parametersOf AudioFX.lowShelfGainDb AudioFX.highShelfGainDb
         AudioFX.peakGainDb AudioFX.compressorRatio
         AudioFX.compressorThresholdDb AudioFX.lowShelf_gain
         AudioFX.highShelf_gain AudioFX.bandpass_gain
         AudioFX.compressor_ratio AudioFX.compressor_threshold
         AudioFX.createFilters];
    cbv zeta; rewrite ?strength_eq;
    set (x1 := (inject_Z s1 * (1 # 100))%Q) in *;
    set (x2 := (inject_Z s2 * (1 # 100))%Q) in *;
    repeat split;
    try (rewrite !Qabs_neg by lra); lra.
Qed.

Lemma computeParameters_monotone_witness :
  let p1 := AudioFX.computeParameters "speech" 25 in
  let p2 := AudioFX.computeParameters "speech" 75 in
  (Qabs (AudioFX.lowShelfGainDb p1) <= Qabs (AudioFX.lowShelfGainDb p2))%Q /\
  (Qabs (AudioFX.highShelfGainDb p1) <= Qabs (AudioFX.highShelfGainDb p2))%Q /\
  (AudioFX.peakGainDb p1 <= AudioFX.peakGainDb p2)%Q /\
  (AudioFX.compressorRatio p1 <= AudioFX.compressorRatio p2)%Q /\
  (Qabs (AudioFX.compressorThresholdDb p1)
   <= Qabs (AudioFX.compressorThresholdDb p2))%Q.
Proof.
  apply (computeParameters_monotone "speech" 25 75); lia.
Defined.

(** ** One export at a time *)

Section SingleJob.
Import Exporter.

Lemma downloadProcessedAudio_busy env s :
  isExporting s = true ->
  run (downloadProcessedAudio env) s = rejected busyToast s.
Proof.
  intros Hbusy. unfold run, downloadProcessedAudio, bind, get.
  rewrite Hbusy. reflexivity.
Qed.

Lemma downloadProcessedVideo_busy env s :
  isExporting s = true ->
  run (downloadProcessedVideo env) s = rejected busyToast s.
Proof.
  intros Hbusy. unfold run, downloadProcessedVideo, bind, get.
  rewrite Hbusy. reflexivity.
Qed.

End SingleJob.

(** The guard itself: while the flag [isExporting] is up, either entry
    point only tells the caller that an export is already in progress; the
    flags, the abort handle, the progress shown, the captures, the pending
    timers and the engine stay as they were. *)
Theorem export_rejected_while_busy (env : Exporter.Env) (s : Exporter.t) :
  Exporter.isExporting s = true ->
  forall entry,
    entry = Exporter.downloadProcessedAudio env \/
    entry = Exporter.downloadProcessedVideo env ->
    let s' := Exporter.run entry s in
    s' = Exporter.rejected Exporter.busyToast s /\
    Exporter.toasts s' = Exporter.toasts s ++ [Exporter.busyToast] /\
    Exporter.isExporting s' = true /\
    Exporter.isLoading s' = Exporter.isLoading s /\
    Exporter.abortController s' = Exporter.abortController s /\
    Exporter.modal s' = Exporter.modal s /\
    Exporter.captures s' = Exporter.captures s /\
    Exporter.timeouts s' = Exporter.timeouts s /\
    Exporter.ffmpeg s' = Exporter.ffmpeg s /\
    Exporter.engineLog s' = Exporter.engineLog s /\
    Exporter.downloads s' = Exporter.downloads s /\
    Exporter.video s' = Exporter.video s.
Proof.
  intros Hbusy entry Hentry s'. subst s'.
  assert (Hrej : Exporter.run entry s = Exporter.rejected Exporter.busyToast s).
  { destruct Hentry as [-> | ->];
      [apply downloadProcessedAudio_busy | apply downloadProcessedVideo_busy];
      exact Hbusy. }
  rewrite Hrej. cbn. rewrite Hbusy. repeat split.
Qed.

Lemma export_rejected_while_busy_witness :
  Exporter.isExporting Scenario.busyPage = true /\
  let s' := Exporter.run (Exporter.downloadProcessedVideo Scenario.allResolve)
              Scenario.busyPage in
  s' = Exporter.rejected Exporter.busyToast Scenario.busyPage /\
  Exporter.toasts s'
  = Exporter.toasts Scenario.busyPage ++ [Exporter.busyToast] /\
  Exporter.isExporting s' = true /\
  Exporter.isLoading s' = Exporter.isLoading Scenario.busyPage /\
  Exporter.abortController s' = Exporter.abortController Scenario.busyPage /\
  Exporter.modal s' = Exporter.modal Scenario.busyPage /\
  Exporter.captures s' = Exporter.captures Scenario.busyPage /\
  Exporter.timeouts s' = Exporter.timeouts Scenario.busyPage /\
  Exporter.ffmpeg s' = Exporter.ffmpeg Scenario.busyPage /\
  Exporter.engineLog s' = Exporter.engineLog Scenario.busyPage /\
  Exporter.downloads s' = Exporter.downloads Scenario.busyPage /\
  Exporter.video s' = Exporter.video Scenario.busyPage.
Proof.
  split; [reflexivity|].
  apply (export_rejected_while_busy Scenario.allResolve Scenario.busyPage);
    [reflexivity | right; reflexivity].
Defined.

(** C2. The guard does not keep the exports apart. [cancelExport] lowers
    the flag at once, while the stop event of the cancelled recorder, which
    delivers its file, is still owed; and that stop event lowers the flag
    again, under whatever job runs by then. On the page of a video given by
    URL: an audio export, Cancel, and a second audio export is admitted
    while the first has not delivered; the first recorder's stop event then
    hides the modal and lowers the flag while the second recorder records;
    in that state neither entry point is rejected: a third audio export
    starts a recorder beside the running one and takes over the abort
    handle, and a video export loads the engine. *)
Theorem export_admitted_while_capture_runs :
  let audio := Exporter.ClickDownloadAudio Scenario.allResolve in
  let video := Exporter.ClickDownloadVideo Scenario.allResolve in
  let recording (s : Exporter.t) (id : nat) :=
    Exporter.recording <$> Exporter.captures s !! id in
  let s1 := Exporter.steps [audio; Exporter.ClickCancel] Scenario.urlPage in
  let s2 := Exporter.step audio s1 in
  let s3 := Exporter.step (Exporter.RecorderStopped 0 Scenario.allResolve)
              s2 in
  let s4 := Exporter.step audio s3 in
  let s5 := Exporter.step video s3 in
  (* Cancel: the flag is down, the first job has yet to deliver *)
  Exporter.isExporting s1 = false /\
  Exporter.onstopPending <$> Exporter.captures s1 !! 0%nat = Some true /\
  Exporter.downloads s1 = [] /\
  (* the second request is admitted *)
  Exporter.toasts s2 = Exporter.toasts s1 /\
  Exporter.isExporting s2 = true /\
  recording s2 1%nat = Some true /\
  Exporter.onstopPending <$> Exporter.captures s2 !! 0%nat = Some true /\
  (* the first job's stop event lowers the flag under the second job *)
  Exporter.isExporting s3 = false /\
  Exporter.hidden (Exporter.modal s3) = true /\
  recording s3 1%nat = Some true /\
  (* so that neither entry point is rejected while a capture records *)
  s4 <> Exporter.rejected Exporter.busyToast s3 /\
  Exporter.toasts s4 = Exporter.toasts s3 /\
  recording s4 1%nat = Some true /\
  recording s4 2%nat = Some true /\
  Exporter.abortController s3 = Some 1%nat /\
  Exporter.abortController s4 = Some 2%nat /\
  s5 <> Exporter.rejected Exporter.busyToast s3 /\
  Exporter.engineLog s5 = [Exporter.ImportModules; Exporter.LoadCore] /\
  recording s5 1%nat = Some true.
Proof.
  vm_compute. repeat split; discriminate.
Qed.

(** ** The admission of an audio export *)

Section Admission.
Import Exporter.

Lemma alter_last {A} (f : A -> A) (l : list A) (x : A) :
  alter f (length l) (l ++ [x]) = l ++ [f x].
Proof. induction l as [|y l IH]; cbn; [reflexivity|]. now f_equal. Qed.

Lemma app_singleton_neq {A} (l : list A) (x : A) : l <> l ++ [x].
Proof.
  intros H. apply (f_equal length) in H. rewrite length_app in H.
  cbn in H. lia.
Qed.

Lemma downloadProcessedAudio_no_preset env s fx :
  isExporting s = false ->
  audioFx s = Some fx ->
  AudioFX.isAudioProcessed fx = false ->
  run (downloadProcessedAudio env) s = rejected noPresetToast s.
Proof.
  intros Hidle Hfx Hgate. unfold run, downloadProcessedAudio, bind, get.
  rewrite Hidle, Hfx, Hgate. reflexivity.
Qed.

(** The state a capture that got going leaves. *)
Lemma downloadProcessedAudio_started env s fx v g :
  isExporting s = false ->
  audioFx s = Some fx ->
  AudioFX.isAudioProcessed fx = true ->
  video s = Some v ->
  AudioFX.audioContext fx = Some g ->
  play env = Resolves ->
  run (downloadProcessedAudio env) s
  = set_abortController (Some (length (captures s)))
      (set_captures
         (captures s ++ [{| startTime := currentTime v;
                            recording := true;
                            onstopPending := false;
                            progressInterval := true;
                            onEnded := true |}])
         (set_video (Some (played (seek 0 v)))
            (set_modal {| hidden := false;
                          title := "Exporting Audio"%string;
                          status := "Recording processed audio..."%string;
                          percent := 0 |}
               (set_isExporting true s)))).
Proof.
  intros Hidle Hfx Hgate Hv Hg Hplay.
  unfold run, downloadProcessedAudio, bind, get.
  rewrite Hidle, Hfx, Hgate, Hv. cbn [negb].
  unfold AudioFX.getProcessedStream. rewrite Hg, Hplay.
  unfold try_catch, showExportModal, updateExportStatus, updateExportProgress,
    setInterval, addEventListener_ended, onCapture, onVideo, await, modify,
    bind, ret.
  cbn. rewrite Hv. cbn. rewrite !alter_last. reflexivity.
Qed.

(** The state a capture leaves when [video.play()] is refused, or no
    stream can be had. *)
Lemma downloadProcessedAudio_failed_toasts env s fx v :
  isExporting s = false ->
  audioFx s = Some fx ->
  AudioFX.isAudioProcessed fx = true ->
  video s = Some v ->
  toasts (run (downloadProcessedAudio env) s) = toasts s \/
  exists message,
    toasts (run (downloadProcessedAudio env) s)
    = toasts s ++ [(message, error)].
Proof.
  intros Hidle Hfx Hgate Hv.
  unfold run, downloadProcessedAudio, bind, get.
  rewrite Hidle, Hfx, Hgate, Hv. cbn [negb].
  unfold AudioFX.getProcessedStream.
  unfold try_catch, showExportModal, updateExportStatus, updateExportProgress,
    setInterval, addEventListener_ended, onCapture, onVideo, await, modify,
    hideExportModal, showToast, throw, reject, bind, ret.
  destruct (AudioFX.audioContext fx); [destruct (play env)|]; cbn;
    [left; reflexivity | right; eexists; reflexivity ..].
Qed.

End Admission.

(** C10. With no export in progress and the page complete, an audio export
    is turned away with the no-preset warning exactly when the preset is
    [off] or the A/B toggle is on the original signal; it is admitted if
    and only if the preset is not [off] and the processed path is the one
    auditioned. A state with a preset selected and the toggle switched
    back to the original is therefore rejected. *)
Theorem audio_export_admission (env : Exporter.Env) (s : Exporter.t)
    (fx : AudioFX.t) (v : Exporter.Media) :
  Exporter.isExporting s = false ->
  Exporter.audioFx s = Some fx ->
  Exporter.video s = Some v ->
  let s' := Exporter.run (Exporter.downloadProcessedAudio env) s in
  (s' = Exporter.rejected Exporter.noPresetToast s <->
   (AudioFX.currentPreset fx = "off"%string \/ AudioFX.isProcessed fx = false))
  /\
  (s' <> Exporter.rejected Exporter.noPresetToast s <->
   (AudioFX.currentPreset fx <> "off"%string /\ AudioFX.isProcessed fx = true)).
Proof.
  intros Hidle Hfx Hv s'. subst s'.
  assert (Hgate : AudioFX.isAudioProcessed fx = true <->
                  AudioFX.currentPreset fx <> "off"%string /\
                  AudioFX.isProcessed fx = true).
  { unfold AudioFX.isAudioProcessed.
    destruct (String.eqb_spec (AudioFX.currentPreset fx) "off");
      destruct (AudioFX.isProcessed fx); cbn; intuition congruence. }
  destruct (AudioFX.isAudioProcessed fx) eqn:Hp.
  - assert (Hne : Exporter.run (Exporter.downloadProcessedAudio env) s
                  <> Exporter.rejected Exporter.noPresetToast s).
    { intros Heq. apply (f_equal Exporter.toasts) in Heq. cbn in Heq.
      destruct (downloadProcessedAudio_failed_toasts env s fx v Hidle Hfx Hp Hv)
        as [Ht | [message Ht]]; rewrite Ht in Heq.
      - exact (app_singleton_neq _ _ Heq).
      - apply app_inv_head in Heq. discriminate. }
    destruct Hgate as [Hg _]. specialize (Hg eq_refl).
    split; split; intros H; try tauto.
    destruct H as [H | H]; [tauto | destruct Hg; congruence].
  - rewrite (downloadProcessedAudio_no_preset env s fx Hidle Hfx Hp).
    assert (Hoff : AudioFX.currentPreset fx = "off"%string \/
                   AudioFX.isProcessed fx = false).
    { unfold AudioFX.isAudioProcessed in Hp.
      destruct (String.eqb_spec (AudioFX.currentPreset fx) "off");
        destruct (AudioFX.isProcessed fx); cbn in Hp;
        try discriminate; tauto. }
    split; split; intros H; try tauto; try congruence.
    destruct Hgate as [_ Hg]. specialize (Hg H). discriminate.
Qed.

(** A preset is selected, then the A/B toggle is switched back to the
    original: the export is rejected. *)
Lemma audio_export_admission_witness :
  let s' := Exporter.run (Exporter.downloadProcessedAudio Scenario.allResolve)
              Scenario.toggledPage in
  (s' = Exporter.rejected Exporter.noPresetToast Scenario.toggledPage <->
   (AudioFX.currentPreset Scenario.speechFx_original = "off"%string \/
    AudioFX.isProcessed Scenario.speechFx_original = false))
  /\
  (s' <> Exporter.rejected Exporter.noPresetToast Scenario.toggledPage <->
   (AudioFX.currentPreset Scenario.speechFx_original <> "off"%string /\
    AudioFX.isProcessed Scenario.speechFx_original = true)).
Proof.
  apply (audio_export_admission Scenario.allResolve Scenario.toggledPage
           Scenario.speechFx_original Scenario.playingAt5);
    reflexivity.
Defined.

(** ** Video export: the source check and the working storage *)

Section VideoExport.
Import Exporter.

Ltac unfold_exporter :=
  unfold run, downloadProcessedVideo, loadFFmpeg, ffmpeg_writeFile,
    ffmpeg_readFile, ffmpeg_deleteFile, ffmpeg_exec, ffmpeg_call,
    getExportFilename, downloadBlob, logOp,
    try_catch, try_finally, showExportModal, updateExportStatus,
    updateExportProgress, hideExportModal, showToast, onVideo, await,
    modify, throw, reject, bind, get, ret.

(** A request for a video without a file settles as follows: the engine is
    acquired as the environment allows, and the job ends with one error
    toast, nothing written and nothing downloaded. *)
Lemma downloadProcessedVideo_no_file env s :
  isExporting s = false ->
  videoFile s = None ->
  let s' := run (downloadProcessedVideo env) s in
  isExporting s' = false /\
  hidden (modal s') = true /\
  downloads s' = downloads s /\
  workingStorage s' = workingStorage s /\
  exists message, toasts s' = toasts s ++ [(message, error)].
Proof.
  intros Hidle Hfile. unfold_exporter. rewrite Hidle. cbn.
  destruct (ffmpeg s) as [e|] eqn:He; cbn.
  - rewrite ?He, ?Hfile. unfold workingStorage.
    destruct (video s); cbn; rewrite ?He; repeat split; eexists; reflexivity.
  - destruct (isLoading s); cbn.
    + rewrite ?He, ?Hfile. unfold workingStorage.
      destruct (video s); cbn; rewrite ?He; repeat split;
        eexists; reflexivity.
    + unfold workingStorage.
      destruct (importFFmpeg env); [destruct (loadFFmpeg_core env)| |];
        cbn; rewrite ?Hfile, ?He; try (destruct (video s)); cbn;
        repeat split; eexists; reflexivity.
Qed.

(** With an engine that loads, the request fails on the source check. *)
Lemma downloadProcessedVideo_no_file_loaded env s :
  isExporting s = false ->
  videoFile s = None ->
  importFFmpeg env = Resolves ->
  loadFFmpeg_core env = Resolves ->
  let s' := run (downloadProcessedVideo env) s in
  toasts s' = toasts s ++ [(sourceNotReencodable, error)] /\
  engineLog s'
  = engineLog s ++ match ffmpeg s with
                   | Some _ => []
                   | None => if isLoading s then [] else [ImportModules; LoadCore]
                   end.
Proof.
  intros Hidle Hfile Himport Hload. unfold_exporter.
  rewrite Hidle, Himport, Hload. cbn.
  destruct (ffmpeg s) as [e|] eqn:He; cbn.
  - rewrite ?He, ?Hfile, app_nil_r.
    destruct (video s); cbn; split; reflexivity.
  - destruct (isLoading s); cbn.
    + rewrite ?He, ?Hfile, app_nil_r.
      destruct (video s); cbn; split; reflexivity.
    + rewrite ?Hfile, <- app_assoc.
      destruct (video s); cbn; split; reflexivity.
Qed.

(** The progress listener only moves the progress ring. *)
Lemma onProgress_frame events s :
  exists s',
    onProgress events s = Return tt s' /\
    ffmpeg s' = ffmpeg s /\ engineLog s' = engineLog s /\
    toasts s' = toasts s /\ downloads s' = downloads s.
Proof.
  revert s. induction events as [|p events IH]; intros s; cbn [onProgress].
  - eexists. split; [reflexivity|]. repeat split.
  - unfold bind, updateExportProgress, modify.
    destruct (IH (set_modal {| hidden := hidden (modal s);
                               title := title (modal s);
                               status := status (modal s);
                               percent := (60 + p * 35)%Q |} s))
      as (s' & Hs' & Hf & Hl & Ht & Hd).
    exists s'. split; [exact Hs'|]. cbn in Hf, Hl, Ht, Hd.
    repeat split; assumption.
Qed.

(** Whenever the transcode is rejected, with an error object or with a
    string, the input written just before stays in the working storage and
    no deletion follows. *)
Lemma downloadProcessedVideo_exec_rejected env s file v e :
  isExporting s = false ->
  videoFile s = Some file ->
  video s = Some v ->
  ffmpeg s = Some e ->
  loaded e = true ->
  writeFile env = Resolves ->
  exec env <> Resolves ->
  let s' := run (downloadProcessedVideo env) s in
  workingStorage s' = addFile "input.mp4" (files e) /\
  exists audioFilter,
    engineLog s'
    = engineLog s ++ [WriteFile "input.mp4"; Exec audioFilter].
Proof.
  intros Hidle Hfile Hv He Hloaded Hwrite Hexec.
  unfold run, downloadProcessedVideo, loadFFmpeg, ffmpeg_writeFile,
    ffmpeg_exec, ffmpeg_call, logOp, try_catch, showExportModal,
    updateExportStatus, updateExportProgress, hideExportModal, showToast,
    await, modify, throw, reject, bind, get, ret.
  rewrite Hidle. cbn. rewrite He. cbn. rewrite Hv, Hfile. cbn.
  rewrite He. cbn. rewrite Hloaded, Hwrite. cbn.
  match goal with
  | |- context [onProgress ?evs ?st] =>
      destruct (onProgress_frame evs st) as (s1 & -> & Hf & Hl & _ & _)
  end.
  cbn in Hf, Hl.
  destruct (exec env); [congruence| |]; cbn;
    unfold workingStorage; cbn; rewrite Hf, Hl; cbn;
    (split; [reflexivity|]); rewrite <- app_assoc; eexists; reflexivity.
Qed.

End VideoExport.

(** C3, as stated, fails: on the page of a video given by URL, with no
    engine cached, the request imports and loads the engine, and only then
    fails on the source check. *)
Lemma url_export_loads_engine_counterexample :
  ~ (forall env s,
       Exporter.isExporting s = false ->
       Exporter.videoFile s = None ->
       let s' := Exporter.run (Exporter.downloadProcessedVideo env) s in
       Exporter.toasts s'
       = Exporter.toasts s
         ++ [(Exporter.sourceNotReencodable, Exporter.error)] /\
       Exporter.engineLog s' = Exporter.engineLog s /\
       Exporter.ffmpeg s' = Exporter.ffmpeg s).
Proof.
  intros H.
  destruct (H Scenario.allResolve Scenario.urlPage eq_refl eq_refl)
    as (_ & Hlog & _).
  vm_compute in Hlog. discriminate.
Qed.

(** C3, amended. A full-video export of a URL-based source, requested
    while no export is in progress, first acquires the engine: unless an
    instance is cached (or a load is in flight) the import and the load are
    attempted. When they resolve the export then fails with the
    source-not-reencodable error; nothing is written to the working
    storage, nothing is transcoded or downloaded, and the job is idle
    again. *)
Theorem url_export_fails_after_engine_load (env : Exporter.Env)
    (s : Exporter.t) :
  Exporter.isExporting s = false ->
  Exporter.videoFile s = None ->
  Exporter.importFFmpeg env = Exporter.Resolves ->
  Exporter.loadFFmpeg_core env = Exporter.Resolves ->
  let s' := Exporter.run (Exporter.downloadProcessedVideo env) s in
  Exporter.toasts s'
  = Exporter.toasts s ++ [(Exporter.sourceNotReencodable, Exporter.error)] /\
  Exporter.engineLog s'
  = Exporter.engineLog s
    ++ match Exporter.ffmpeg s with
       | Some _ => []
       | None => if Exporter.isLoading s then []
                 else [Exporter.ImportModules; Exporter.LoadCore]
       end /\
  Exporter.workingStorage s' = Exporter.workingStorage s /\
  Exporter.downloads s' = Exporter.downloads s /\
  Exporter.isExporting s' = false /\
  Exporter.hidden (Exporter.modal s') = true.
Proof.
  intros Hidle Hfile Himport Hload s'. subst s'.
  destruct (downloadProcessedVideo_no_file env s Hidle Hfile)
    as (Hdone & Hhidden & Hdl & Hws & _).
  destruct (downloadProcessedVideo_no_file_loaded env s Hidle Hfile
              Himport Hload) as (Htoast & Hlog).
  repeat split; assumption.
Qed.

Lemma url_export_fails_after_engine_load_witness :
  let s' := Exporter.run (Exporter.downloadProcessedVideo Scenario.allResolve)
              Scenario.urlPage in
  Exporter.toasts s' = [(Exporter.sourceNotReencodable, Exporter.error)] /\
  Exporter.engineLog s' = [Exporter.ImportModules; Exporter.LoadCore] /\
  Exporter.workingStorage s' = [] /\
  Exporter.downloads s' = [] /\
  Exporter.isExporting s' = false /\
  Exporter.hidden (Exporter.modal s') = true.
Proof.
  apply (url_export_fails_after_engine_load Scenario.allResolve
           Scenario.urlPage); reflexivity.
Defined.

(** C9. The cleanup is not unconditional: when the transcode fails, the
    export of an uploaded file ends with the input still in the engine's
    working storage; no deletion is attempted. *)
Theorem video_export_failure_skips_cleanup :
  let s' := Exporter.run (Exporter.downloadProcessedVideo Scenario.execFails)
              Scenario.filePage in
  Exporter.workingStorage s' = ["input.mp4"%string] /\
  Exporter.engineLog s'
  = [Exporter.ImportModules; Exporter.LoadCore; Exporter.WriteFile "input.mp4";
     Exporter.Exec Exporter.SpeechFilter] /\
  Exporter.toasts s' = [("Video export failed"%string, Exporter.error)] /\
  Exporter.isExporting s' = false.
Proof. vm_compute. repeat split. Qed.

(** On the success path both entries are deleted. *)
Lemma video_export_success_cleans_up :
  let s' := Exporter.run (Exporter.downloadProcessedVideo Scenario.allResolve)
              Scenario.filePage in
  Exporter.workingStorage s' = [] /\
  Exporter.engineLog s'
  = [Exporter.ImportModules; Exporter.LoadCore; Exporter.WriteFile "input.mp4";
     Exporter.Exec Exporter.SpeechFilter; Exporter.ReadFile "output.mp4";
     Exporter.DeleteFile "input.mp4"; Exporter.DeleteFile "output.mp4"] /\
  Exporter.downloads s' = [("clip_speech.mp4"%string, Exporter.Mp4Blob)].
Proof. vm_compute. repeat split. Qed.

(** ** Capture: what cancellation and the end of the media restore *)

Section Capture.
Import Exporter.

Ltac unfold_capture :=
  unfold run, cancelExport, abort, onEnded_listener, onProgressInterval,
    clearInterval, mediaRecorder_stop, removeEventListener_ended,
    restoreStartTime, hideExportModal, showToast, updateExportProgress,
    onCapture, onVideo, modify, throw, reject, bind, get, ret.

Lemma capturing_started env s fx v g :
  isExporting s = false ->
  audioFx s = Some fx ->
  AudioFX.isAudioProcessed fx = true ->
  video s = Some v ->
  AudioFX.audioContext fx = Some g ->
  play env = Resolves ->
  capturing (length (captures s)) (currentTime v)
    (step (ClickDownloadAudio env) s).
Proof.
  intros Hidle Hfx Hgate Hv Hg Hplay. cbn [step].
  rewrite (downloadProcessedAudio_started env s fx v g) by assumption.
  unfold capturing. cbn.
  split; [reflexivity|]. split; [rewrite length_app; cbn; lia|].
  split; [|eexists; reflexivity].
  eexists. split.
  - rewrite lookup_app_r by lia. rewrite Nat.sub_diag. reflexivity.
  - repeat split; reflexivity.
Qed.

Lemma capturing_playback id t0 ev s :
  playbackEvent ev -> capturing id t0 s -> capturing id t0 (step ev s).
Proof.
  intros Hev (Habort & Hlen & Hc & [v Hv]).
  destruct ev; try contradiction; cbn [step].
  - unfold_capture. cbn. rewrite Hv. cbn.
    repeat split; try assumption. eexists; reflexivity.
  - destruct (from_option progressInterval false (captures s !! id0));
      [|repeat split; try assumption; eexists; exact Hv].
    unfold_capture. cbn. rewrite Hv. cbn.
    repeat split; try assumption. eexists; exact Hv.
Qed.

Lemma capturing_steps id t0 evs s :
  Forall playbackEvent evs -> capturing id t0 s ->
  capturing id t0 (steps evs s).
Proof.
  intros Hevs. revert s. unfold steps.
  induction Hevs as [|ev evs Hev _ IH]; intros s Hs; cbn [fold_left].
  - exact Hs.
  - apply IH. now apply capturing_playback.
Qed.

(** The abort handle of a running capture goes through: the position is
    the saved one and the media is paused. *)
Lemma abort_restores id s c v :
  captures s !! id = Some c ->
  recording c = true ->
  video s = Some v ->
  exists s',
    abort id s = Return tt s' /\
    video s' = Some (pause (seek (startTime c) v)).
Proof.
  intros Hc Hrec Hv. unfold_capture. cbn.
  rewrite list_lookup_alter_eq, Hc. cbn. rewrite Hrec. cbn.
  rewrite !list_lookup_alter_eq, Hc. cbn. rewrite Hv. cbn.
  eexists. split; reflexivity.
Qed.

(** So does its [ended] listener. *)
Lemma onEnded_listener_restores id s c v :
  captures s !! id = Some c ->
  recording c = true ->
  video s = Some v ->
  exists s',
    onEnded_listener id s = Return tt s' /\
    video s' = Some (pause (seek (startTime c) v)).
Proof.
  intros Hc Hrec Hv. unfold_capture. cbn.
  rewrite list_lookup_alter_eq, Hc. cbn. rewrite Hrec. cbn.
  rewrite !list_lookup_alter_eq, Hc. cbn. rewrite Hv. cbn.
  eexists. split; reflexivity.
Qed.

(** The listener of another capture leaves this one alone, and leaves a
    video in place. *)
Lemma onEnded_listener_other id' id s :
  id' <> id ->
  let s' := run (onEnded_listener id') s in
  captures s' !! id = captures s !! id /\
  (is_Some (video s) -> is_Some (video s')).
Proof.
  intros Hne. unfold_capture. cbn.
  rewrite list_lookup_alter_eq.
  destruct (captures s !! id') as [c'|] eqn:Hc'; cbn.
  - destruct (recording c'); cbn.
    + rewrite !list_lookup_alter_eq, Hc'. cbn.
      rewrite !list_lookup_alter_ne by exact Hne.
      split; [reflexivity|]. intros [v ->]. cbn. eexists; reflexivity.
    + rewrite !list_lookup_alter_ne by exact Hne. split; [reflexivity|auto].
  - rewrite !list_lookup_alter_ne by exact Hne. split; [reflexivity|auto].
Qed.

Lemma older_listeners_preserve id olds s :
  Forall (fun id' => id' <> id) olds ->
  let s' := fold_left (fun s id' => run (onEnded_listener id') s) olds s in
  captures s' !! id = captures s !! id /\
  (is_Some (video s) -> is_Some (video s')).
Proof.
  intros Holds. revert s.
  induction Holds as [|id' olds Hne _ IH]; intros s; cbn [fold_left].
  - split; auto.
  - destruct (IH (run (onEnded_listener id') s)) as [IHc IHv].
    destruct (onEnded_listener_other id' id s Hne) as [Hc Hv].
    cbv zeta in *. split; [congruence|auto].
Qed.

(** Cancelling a running capture. *)
Lemma cancelExport_restores id t0 s :
  capturing id t0 s ->
  mediaState (step ClickCancel s) = Some (t0, true).
Proof.
  intros (Habort & _ & (c & Hc & Ht0 & Hrec & _) & [v Hv]).
  destruct (abort_restores id s c v Hc Hrec Hv) as (s' & Hs' & Hvideo).
  cbn [step]. unfold run, cancelExport, bind, get. rewrite Habort, Hs'.
  unfold hideExportModal, showToast, modify, bind. cbn.
  unfold mediaState. cbn. rewrite Hvideo, <- Ht0. reflexivity.
Qed.

(** The media reaching its end during a running capture. *)
Lemma mediaEnded_restores id t0 s :
  capturing id t0 s ->
  mediaState (step MediaEnded s) = Some (t0, true).
Proof.
  intros (_ & Hlen & (c & Hc & Ht0 & Hrec & Hon) & Hv).
  cbn [step].
  set (s1 := run (onVideo (fun m => seek (duration m) m)) s).
  assert (Hcaps : captures s1 = captures s) by reflexivity.
  assert (Hv1 : is_Some (video s1)).
  { destruct Hv as [v Hv]. subst s1. unfold run, onVideo, modify. cbn.
    rewrite Hv. eexists; reflexivity. }
  unfold endedListeners. rewrite Hcaps, Hlen, seq_S, List.filter_app.
  cbn [List.filter Nat.add]. rewrite Hc. cbn [from_option]. rewrite Hon.
  rewrite fold_left_app. cbn [fold_left].
  set (olds := List.filter _ (seq 0 id)).
  assert (Holds : Forall (fun id' => id' <> id) olds).
  { apply List.Forall_forall. intros id' Hin. subst olds.
    apply List.filter_In in Hin. destruct Hin as [Hin _].
    apply in_seq in Hin. lia. }
  destruct (older_listeners_preserve id olds s1 Holds) as [Hc2 Hv2].
  cbv zeta in Hc2, Hv2.
  set (s2 := fold_left _ olds s1) in *.
  rewrite Hcaps, Hc in Hc2. destruct (Hv2 Hv1) as [v2 Hvideo2].
  destruct (onEnded_listener_restores id s2 c v2 Hc2 Hrec Hvideo2)
    as (s3 & Hs3 & Hvideo3).
  unfold run at 1. rewrite Hs3. unfold mediaState. rewrite Hvideo3, <- Ht0.
  reflexivity.
Qed.

End Capture.

(** C4, as stated, fails: a capture begun while the video plays, 5
    seconds in, and then cancelled leaves the video at 5 seconds but
    paused. *)
Lemma cancel_leaves_media_paused_counterexample :
  ~ (forall env s fx g v evs final,
       Exporter.isExporting s = false ->
       Exporter.audioFx s = Some fx ->
       AudioFX.isAudioProcessed fx = true ->
       AudioFX.audioContext fx = Some g ->
       Exporter.video s = Some v ->
       Exporter.play env = Exporter.Resolves ->
       Forall Exporter.playbackEvent evs ->
       final = Exporter.ClickCancel \/ final = Exporter.MediaEnded ->
       Exporter.mediaState
         (Exporter.step final
            (Exporter.steps evs
               (Exporter.step (Exporter.ClickDownloadAudio env) s)))
       = Some (Exporter.currentTime v, Exporter.paused v)).
Proof.
  intros H.
  specialize (H Scenario.allResolve Scenario.urlPage Scenario.speechFx _
                Scenario.playingAt5 [Exporter.Playback 7]
                Exporter.ClickCancel
                eq_refl eq_refl eq_refl eq_refl eq_refl eq_refl
                ltac:(repeat constructor) (or_introl eq_refl)).
  vm_compute in H. discriminate.
Qed.

(** C4, amended. For every audio-export capture started from a media
    state with playback position [t0], cancellation through the abort
    handle and the end of the media both restore the position [t0] and
    leave the media paused, whatever the paused flag was before. *)
Theorem capture_restores_position_and_pauses (env : Exporter.Env)
    (s : Exporter.t) (fx : AudioFX.t) (g : AudioFX.Graph)
    (v : Exporter.Media) (evs : list Exporter.Event)
    (final : Exporter.Event) :
  Exporter.isExporting s = false ->
  Exporter.audioFx s = Some fx ->
  AudioFX.isAudioProcessed fx = true ->
  AudioFX.audioContext fx = Some g ->
  Exporter.video s = Some v ->
  Exporter.play env = Exporter.Resolves ->
  Forall Exporter.playbackEvent evs ->
  final = Exporter.ClickCancel \/ final = Exporter.MediaEnded ->
  Exporter.mediaState
    (Exporter.step final
       (Exporter.steps evs
          (Exporter.step (Exporter.ClickDownloadAudio env) s)))
  = Some (Exporter.currentTime v, true).
Proof.
  intros Hidle Hfx Hgate Hg Hv Hplay Hevs Hfinal.
  pose proof (capturing_started env s fx v g Hidle Hfx Hgate Hv Hg Hplay)
    as Hstart.
  pose proof (capturing_steps _ _ evs _ Hevs Hstart) as Hrun.
  destruct Hfinal as [-> | ->].
  - exact (cancelExport_restores _ _ _ Hrun).
  - exact (mediaEnded_restores _ _ _ Hrun).
Qed.

Lemma capture_restores_position_and_pauses_witness :
  Exporter.mediaState
    (Exporter.step Exporter.ClickCancel
       (Exporter.steps [Exporter.Playback 7; Exporter.IntervalTick 0]
          (Exporter.step (Exporter.ClickDownloadAudio Scenario.allResolve)
             Scenario.urlPage)))
  = Some (5%Q, true).
Proof.
  refine (capture_restores_position_and_pauses Scenario.allResolve
            Scenario.urlPage Scenario.speechFx _ Scenario.playingAt5
            [Exporter.Playback 7; Exporter.IntervalTick 0]
            Exporter.ClickCancel _ _ _ _ _ _ _ _).
  - reflexivity.
  - reflexivity.
  - reflexivity.
  - reflexivity.
  - reflexivity.
  - reflexivity.
  - repeat constructor.
  - left. reflexivity.
Defined.

(** * Further properties of the encoder *)

Section WavMore.
Import DataView.
Local Open Scope Q_scope.

(** Truncation towards zero is monotone. *)
Lemma truncate_monotone (q1 q2 : Q) :
  q1 <= q2 ->
  (ToIntegerOrZero (Some q1) <= ToIntegerOrZero (Some q2))%Z.
Proof.
  intros Hle.
  destruct (Qlt_le_dec q1 0) as [H1|H1]; destruct (Qlt_le_dec q2 0) as [H2|H2].
  - destruct (truncate_nonpos q1 ltac:(lra)) as [_ Hhi].
    destruct (truncate_nonpos q2 ltac:(lra)) as [Hlo _].
    assert (H : (ToIntegerOrZero (Some q1) < ToIntegerOrZero (Some q2) + 1)%Z).
    { rewrite Zlt_Qlt, inject_Z_plus. change (inject_Z 1) with 1. lra. }
    lia.
  - destruct (truncate_nonpos q1 ltac:(lra)) as [_ Hhi].
    destruct (truncate_nonneg q2 H2) as [_ Hhi2].
    assert (Ha : (ToIntegerOrZero (Some q1) < 1)%Z).
    { rewrite Zlt_Qlt. change (inject_Z 1) with 1. lra. }
    assert (Hb : (-1 < ToIntegerOrZero (Some q2))%Z).
    { rewrite Zlt_Qlt. change (inject_Z (-1)) with (-1). lra. }
    lia.
  - lra.
  - destruct (truncate_nonneg q1 H1) as [Hlo _].
    destruct (truncate_nonneg q2 H2) as [_ Hhi].
    assert (H : (ToIntegerOrZero (Some q1) < ToIntegerOrZero (Some q2) + 1)%Z).
    { rewrite Zlt_Qlt, inject_Z_plus. change (inject_Z 1) with 1. lra. }
    lia.
Qed.

(** Whatever the sample, a missing one included, the number stored for it
    fits sixteen signed bits. *)
Lemma storedSample_range channels i channel :
  (-32768 <= Wav.storedSample channels i channel <= 32767)%Z.
Proof.
  unfold Wav.storedSample.
  destruct (Wav.channelSample channels channel i) as [s|]; [|cbn; lia].
  destruct (clampSample_range s) as (s' & -> & Hr & _).
  unfold Wav.intSample.
  destruct (Qlt_le_dec s' 0).
  - split.
    + exact (truncate_monotone (-32768) (s' * 32768) ltac:(lra)).
    + transitivity (ToIntegerOrZero (Some 0));
        [|change (ToIntegerOrZero (Some 0)) with 0%Z; lia].
      apply truncate_monotone. lra.
  - split.
    + transitivity (ToIntegerOrZero (Some 0));
        [change (ToIntegerOrZero (Some 0)) with 0%Z; lia|].
      apply truncate_monotone. lra.
    + exact (truncate_monotone (s' * 32767) 32767 ltac:(lra)).
Qed.

(** The sixteen-bit word of sample [i] of channel [channel], for any
    buffer. *)
Lemma stored_sample_at (buffer : Wav.AudioBuffer) i channel :
  (i < Wav.length buffer)%nat ->
  (channel < Wav.numberOfChannels buffer)%nat ->
  exists file,
    Wav.audioBufferToWav buffer = Some file /\
    getInt16 (Wav.sampleOffset (Wav.numberOfChannels buffer) i channel) file
    = Some (Wav.storedSample (Wav.channelData buffer) i channel).
Proof.
  intros Hi Hc. eexists. split; [apply audioBufferToWav_layout|].
  destruct (sampleBytes_at (Wav.channelData buffer)
              (Wav.numberOfChannels buffer) (Wav.length buffer) i channel
              Hi Hc) as (pre & post & -> & Hpre).
  rewrite app_assoc.
  replace (Wav.sampleOffset (Wav.numberOfChannels buffer) i channel)
    with (length (Wav.headerBytes (Wav.numberOfChannels buffer)
                    (Wav.sampleRate buffer)
                    (Wav.length buffer * (Wav.numberOfChannels buffer * 2))
                    (44 + Wav.length buffer
                          * (Wav.numberOfChannels buffer * 2)) ++ pre)).
  - apply getInt16_bytes. apply storedSample_range.
  - rewrite length_app, Hpre. reflexivity.
Qed.

(** Full scale and beyond: what the clamp and the two scale factors give. *)
Lemma clamp_saturates_high (s : Q) :
  1 <= s ->
  ToIntegerOrZero (Wav.intSample (Wav.clampSample (Some s))) = 32767%Z.
Proof.
  intros Hs. unfold Wav.clampSample, Wav.Math_min, Wav.Math_max.
  destruct (Qlt_le_dec s 1); [lra|]. reflexivity.
Qed.

Lemma clamp_saturates_low (s : Q) :
  s <= -1 ->
  ToIntegerOrZero (Wav.intSample (Wav.clampSample (Some s))) = (-32768)%Z.
Proof.
  intros Hs. unfold Wav.clampSample, Wav.Math_min, Wav.Math_max.
  destruct (Qlt_le_dec s 1); [|lra].
  destruct (Qlt_le_dec (-1) s); [lra|]. reflexivity.
Qed.

Lemma clamp_monotone (s1 s2 : Q) :
  s1 <= s2 ->
  exists c1 c2,
    Wav.clampSample (Some s1) = Some c1 /\
    Wav.clampSample (Some s2) = Some c2 /\ c1 <= c2.
Proof.
  intros Hle. unfold Wav.clampSample, Wav.Math_min, Wav.Math_max.
  do 2 eexists. split; [reflexivity|]. split; [reflexivity|].
  destruct (Qlt_le_dec s1 1); destruct (Qlt_le_dec s2 1);
    repeat match goal with
           | |- context [Qlt_le_dec (-1) ?b] => destruct (Qlt_le_dec (-1) b)
           end; lra.
Qed.

End WavMore.

(** X1. For every buffer whose channel count, sample rate and data length
    fit the width of their header fields, the encoder returns a file (no
    write is out of bounds) whose 44 bytes of header are the canonical
    ones: the tags RIFF, WAVE, fmt and data, the RIFF size (file length
    less 8), the chunk size 16, the PCM format 1, the channel count, the
    sample rate, the byte rate, the block align, the bit depth 16 and the
    data length, each little-endian; the RIFF size, the byte rate and the
    block align, which can exceed their fields, are stored modulo the
    width. *)
Theorem audioBufferToWav_canonical_header (buffer : Wav.AudioBuffer) :
  let numChannels := Wav.numberOfChannels buffer in
  let blockAlign := Z.of_nat (numChannels * 2) in
  let dataLength := Z.of_nat (Wav.length buffer * (numChannels * 2)) in
  Z.of_nat numChannels < 2 ^ 16 ->
  0 <= Wav.sampleRate buffer < 2 ^ 32 ->
  dataLength < 2 ^ 32 ->
  exists file,
    Wav.audioBufferToWav buffer = Some file /\
    Z.of_nat (length file) = 44 + dataLength /\
    take 4 file = [82; 73; 70; 70] /\
    DataView.getUint32 4 file
    = Some ((Z.of_nat (length file) - 8) mod 2 ^ 32) /\
    take 8 (drop 8 file) = [87; 65; 86; 69; 102; 109; 116; 32] /\
    DataView.getUint32 16 file = Some 16 /\
    DataView.getUint16 20 file = Some 1 /\
    DataView.getUint16 22 file = Some (Z.of_nat numChannels) /\
    DataView.getUint32 24 file = Some (Wav.sampleRate buffer) /\
    DataView.getUint32 28 file
    = Some ((Wav.sampleRate buffer * blockAlign) mod 2 ^ 32) /\
    DataView.getUint16 32 file = Some (blockAlign mod 2 ^ 16) /\
    DataView.getUint16 34 file = Some 16 /\
    take 4 (drop 36 file) = [100; 97; 116; 97] /\
    DataView.getUint32 40 file = Some dataLength.
Proof.
  intros numChannels blockAlign dataLength Hc Hr Hd.
  eexists. split; [apply audioBufferToWav_layout|].
  fold numChannels.
  set (samples := Wav.sampleBytes _ _ _).
  assert (Hlen : Z.of_nat (length (Wav.headerBytes numChannels
                   (Wav.sampleRate buffer)
                   (Wav.length buffer * (numChannels * 2))
                   (44 + Wav.length buffer * (numChannels * 2)) ++ samples))
                 = 44 + dataLength).
  { rewrite length_app. subst samples.
    rewrite length_sampleBytes, length_seq.
    change (length (Wav.headerBytes _ _ _ _)) with 44%nat.
    subst dataLength. lia. }
  split; [exact Hlen|]. rewrite Hlen.
  set (header := Wav.headerBytes _ _ _ _).
  assert (Hh : length header = 44%nat) by reflexivity.
  unfold DataView.getUint16, DataView.getUint32.
  rewrite !lookup_app_l by (rewrite Hh; lia).
  subst header. unfold Wav.headerBytes, Wav.le16, Wav.le32.
  cbn [app lookup list_lookup mbind option_bind take drop].
  rewrite !bytes32, !bytes16.
  change 65536 with (2 ^ 16). change 4294967296 with (2 ^ 32).
  replace (Z.of_nat (44 + Wav.length buffer * (numChannels * 2)) - 8)
    with (44 + dataLength - 8) by (subst dataLength; lia).
  fold dataLength.
  rewrite (Z.mod_small (Z.of_nat numChannels)) by lia.
  rewrite (Z.mod_small (Wav.sampleRate buffer)) by lia.
  rewrite (Z.mod_small dataLength) by (subst dataLength; lia).
  repeat split; reflexivity.
Qed.

Lemma audioBufferToWav_canonical_header_witness :
  exists file,
    Wav.audioBufferToWav exampleBuffer = Some file /\
    Z.of_nat (length file) = 4044 /\
    take 4 file = [82; 73; 70; 70] /\
    DataView.getUint32 4 file
    = Some ((Z.of_nat (length file) - 8) mod 2 ^ 32) /\
    take 8 (drop 8 file) = [87; 65; 86; 69; 102; 109; 116; 32] /\
    DataView.getUint32 16 file = Some 16 /\
    DataView.getUint16 20 file = Some 1 /\
    DataView.getUint16 22 file = Some 2 /\
    DataView.getUint32 24 file = Some 44100 /\
    DataView.getUint32 28 file = Some 176400 /\
    DataView.getUint16 32 file = Some 4 /\
    DataView.getUint16 34 file = Some 16 /\
    take 4 (drop 36 file) = [100; 97; 116; 97] /\
    DataView.getUint32 40 file = Some 4000.
Proof.
  apply (audioBufferToWav_canonical_header exampleBuffer);
    vm_compute; intuition congruence.
Defined.

(** X3. The samples are interleaved frame after frame, channel after
    channel: for any buffer, in range or not, the signed 16-bit word at
    offset [44 + 2 * (i * numChannels + channel)] is the truncation of the
    clamped and scaled sample [i] of that channel (0 for a sample that is
    not there), and it lies in [-32768, 32767]. *)
Theorem audioBufferToWav_interleaved (buffer : Wav.AudioBuffer)
    (i channel : nat) :
  (i < Wav.length buffer)%nat ->
  (channel < Wav.numberOfChannels buffer)%nat ->
  let v := DataView.ToIntegerOrZero
             (Wav.intSample
                (Wav.clampSample
                   (Wav.channelSample (Wav.channelData buffer) channel i))) in
  exists file,
    Wav.audioBufferToWav buffer = Some file /\
    DataView.getInt16
      (44 + 2 * (i * Wav.numberOfChannels buffer + channel)) file = Some v /\
    -32768 <= v <= 32767.
Proof.
  intros Hi Hc v.
  destruct (stored_sample_at buffer i channel Hi Hc) as (file & Hfile & Hread).
  exists file. split; [exact Hfile|]. split; [exact Hread|].
  apply storedSample_range.
Qed.

Lemma audioBufferToWav_interleaved_witness :
  exists file,
    Wav.audioBufferToWav roundTripBuffer = Some file /\
    DataView.getInt16 (44 + 2 * (1 * 2 + 1)) file = Some (-10922) /\
    -32768 <= -10922 <= 32767.
Proof.
  apply (audioBufferToWav_interleaved roundTripBuffer 1 1); cbn; lia.
Defined.

(** X4. Samples at or beyond full scale saturate: a sample of 1 or more is
    stored as 32767 and a sample of -1 or less as -32768, so no sample
    wraps around. *)
Theorem audioBufferToWav_saturates (buffer : Wav.AudioBuffer)
    (i channel : nat) (ch : list Q) (s : Q) :
  (i < Wav.length buffer)%nat ->
  Wav.channelData buffer !! channel = Some ch ->
  ch !! i = Some s ->
  (1 <= Qabs s)%Q ->
  exists file,
    Wav.audioBufferToWav buffer = Some file /\
    DataView.getInt16
      (Wav.sampleOffset (Wav.numberOfChannels buffer) i channel) file
    = Some (if Qlt_le_dec s 0 then -32768 else 32767).
Proof.
  intros Hi Hch Hs Hfull.
  assert (Hc : (channel < Wav.numberOfChannels buffer)%nat)
    by (apply lookup_lt_Some in Hch; exact Hch).
  destruct (stored_sample_at buffer i channel Hi Hc) as (file & Hfile & Hread).
  exists file. split; [exact Hfile|]. rewrite Hread. f_equal.
  unfold Wav.storedSample, Wav.channelSample.
  rewrite Hch. cbn [mbind option_bind]. rewrite Hs.
  destruct (Qlt_le_dec s 0) as [Hneg|Hpos].
  - apply clamp_saturates_low. rewrite Qabs_neg in Hfull by lra. lra.
  - apply clamp_saturates_high. rewrite Qabs_pos in Hfull by lra. lra.
Qed.

(** A buffer that overshoots full scale on both sides. *)
Lemma audioBufferToWav_saturates_witness :
  exists file,
    Wav.audioBufferToWav
      {| Wav.sampleRate := 8000; Wav.length := 1;
         Wav.channelData := [[3 # 2]; [-(5 # 4)]]%Q |} = Some file /\
    DataView.getInt16 (Wav.sampleOffset 2 0 1) file = Some (-32768).
Proof.
  apply (audioBufferToWav_saturates
           {| Wav.sampleRate := 8000; Wav.length := 1;
              Wav.channelData := [[3 # 2]; [-(5 # 4)]]%Q |}
           0 1 [-(5 # 4)]%Q (-(5 # 4))%Q).
  - cbn. lia.
  - reflexivity.
  - reflexivity.
  - vm_compute. discriminate.
Defined.

(** X5. Quantisation keeps the order of samples: a larger sample is never
    stored as a smaller number. *)
Theorem quantisation_monotone (s1 s2 : Q) :
  (s1 <= s2)%Q ->
  DataView.ToIntegerOrZero (Wav.intSample (Wav.clampSample (Some s1)))
  <= DataView.ToIntegerOrZero (Wav.intSample (Wav.clampSample (Some s2))).
Proof.
  intros Hle.
  destruct (clamp_monotone s1 s2 Hle) as (c1 & c2 & -> & -> & Hc).
  unfold Wav.intSample. apply truncate_monotone.
  destruct (Qlt_le_dec c1 0); destruct (Qlt_le_dec c2 0); lra.
Qed.

Lemma quantisation_monotone_witness :
  DataView.ToIntegerOrZero
    (Wav.intSample (Wav.clampSample (Some (-(1 # 3))%Q)))
  <= DataView.ToIntegerOrZero
       (Wav.intSample (Wav.clampSample (Some (1 # 2)%Q))).
Proof.
  apply (quantisation_monotone (-(1 # 3)) (1 # 2)).
  vm_compute. discriminate.
Defined.

(** * Further properties of the audio effects *)

Section ControlsFacts.
Import AudioFX Controls.
Local Open Scope Q_scope.

Lemma presetFilters_fixed preset strength f :
  let f' := presetFilters preset strength f in
  lowShelf_frequency f' = lowShelf_frequency f /\
  highShelf_frequency f' = highShelf_frequency f /\
  compressor_knee f' = compressor_knee f /\
  compressor_attack f' = compressor_attack f /\
  compressor_release f' = compressor_release f.
Proof.
  unfold presetFilters.
  destruct (String.eqb preset "speech");
    [|destruct (String.eqb preset "music-reduce")]; cbn; repeat split.
Qed.

Lemma settled_updateFilters fx : settled fx -> settled (updateFilters fx).
Proof.
  unfold settled, updateFilters.
  destruct (audioContext fx) as [g|] eqn:Hg; [|rewrite Hg; auto].
  cbn. intros (Hb & Hp & H1 & H2 & H3 & H4 & H5).
  destruct (presetFilters_fixed (currentPreset fx) (reductionStrength fx)
              (filters g)) as (F1 & F2 & F3 & F4 & F5).
  cbv zeta in *. repeat split; congruence.
Qed.

Lemma settled_updateBypass fx b :
  settled fx -> settled (updateBypass (set_isProcessed b fx)).
Proof.
  unfold settled, updateBypass, set_isProcessed. cbn.
  destruct (audioContext fx) as [g|]; cbn; [|auto].
  intros (_ & _ & H). repeat split; apply H.
Qed.

Lemma settled_act a fx : settled fx -> settled (act a fx).
Proof.
  intros H. destruct a as [|p|v|]; cbn [act].
  - unfold initAudioContext.
    destruct (audioContext fx) as [g|] eqn:Hg; [exact H|].
    unfold settled, updateBypass. cbn. repeat split.
  - unfold setPreset.
    set (fx1 := updateFilters _).
    assert (H1 : settled fx1).
    { apply settled_updateFilters. unfold settled in *. cbn. exact H. }
    destruct (negb (String.eqb p "off") && negb (isProcessed fx1))%bool;
      [apply settled_updateBypass; exact H1|].
    destruct (String.eqb p "off" && isProcessed fx1)%bool;
      [apply settled_updateBypass; exact H1 | exact H1].
  - unfold setStrength. apply settled_updateFilters.
    unfold settled in *. cbn. exact H.
  - unfold toggleAB. apply settled_updateBypass. exact H.
Qed.

Lemma settled_session actions : settled (session actions).
Proof.
  unfold session.
  assert (H : settled AudioFX.new) by exact I.
  revert H. generalize AudioFX.new.
  induction actions as [|a actions IH]; intros fx H; cbn [fold_left].
  - exact H.
  - apply IH. now apply settled_act.
Qed.

Lemma setPreset_flags preset fx :
  isProcessed (setPreset preset fx) = negb (String.eqb preset "off") /\
  currentPreset (setPreset preset fx) = preset /\
  reductionStrength (setPreset preset fx) = reductionStrength fx.
Proof.
  unfold setPreset, updateFilters, updateBypass, set_isProcessed. cbn.
  destruct (audioContext fx); cbn;
    destruct (String.eqb preset "off"); destruct (isProcessed fx); cbn;
    repeat split.
Qed.

End ControlsFacts.

(** X6. The crossfade invariant: after any session of first play, preset
    clicks, slider moves and A/B clicks, the two path gains ramp to
    complementary targets, the processed path to 1 and the bypass to 0
    exactly when the processed output is selected, and the other way round
    otherwise. *)
Theorem crossfade_targets_complementary (actions : list Controls.Action)
    (g : AudioFX.Graph) :
  AudioFX.audioContext (Controls.session actions) = Some g ->
  (AudioFX.bypassGain g + AudioFX.processedGain g == 1)%Q /\
  AudioFX.processedGain g
  = (if AudioFX.isProcessed (Controls.session actions) then 1 else 0)%Q /\
  AudioFX.bypassGain g
  = (if AudioFX.isProcessed (Controls.session actions) then 0 else 1)%Q.
Proof.
  intros Hg. pose proof (settled_session actions) as H.
  unfold Controls.settled in H. rewrite Hg in H.
  destruct H as (Hb & Hp & _). rewrite Hb, Hp.
  destruct (AudioFX.isProcessed (Controls.session actions));
    repeat split; reflexivity.
Qed.

Lemma crossfade_targets_complementary_witness :
  exists g,
    AudioFX.audioContext
      (Controls.session
         [Controls.FirstPlay; Controls.ClickPreset "speech";
          Controls.ClickAB]) = Some g /\
    (AudioFX.bypassGain g + AudioFX.processedGain g == 1)%Q /\
    AudioFX.processedGain g = 0%Q /\
    AudioFX.bypassGain g = 1%Q.
Proof.
  eexists. split; [reflexivity|].
  apply (crossfade_targets_complementary
           [Controls.FirstPlay; Controls.ClickPreset "speech";
            Controls.ClickAB]).
  reflexivity.
Defined.

(** X7. No control ever moves the corner frequencies of the two shelves
    (200 Hz and 4000 Hz) or the knee, attack and release of the
    compressor: after any session they are the values the nodes were
    created with. *)
Theorem fixed_node_parameters (actions : list Controls.Action)
    (g : AudioFX.Graph) :
  AudioFX.audioContext (Controls.session actions) = Some g ->
  AudioFX.lowShelf_frequency (AudioFX.filters g) = 200%Q /\
  AudioFX.highShelf_frequency (AudioFX.filters g) = 4000%Q /\
  AudioFX.compressor_knee (AudioFX.filters g) = 30%Q /\
  AudioFX.compressor_attack (AudioFX.filters g) = (3 # 1000)%Q /\
  AudioFX.compressor_release (AudioFX.filters g) = (25 # 100)%Q.
Proof.
  intros Hg. pose proof (settled_session actions) as H.
  unfold Controls.settled in H. rewrite Hg in H.
  destruct H as (_ & _ & H). exact H.
Qed.

Lemma fixed_node_parameters_witness :
  exists g,
    AudioFX.audioContext
      (Controls.session
         [Controls.FirstPlay; Controls.ClickPreset "music-reduce";
          Controls.SlideStrength 80]) = Some g /\
    AudioFX.lowShelf_frequency (AudioFX.filters g) = 200%Q /\
    AudioFX.highShelf_frequency (AudioFX.filters g) = 4000%Q /\
    AudioFX.compressor_knee (AudioFX.filters g) = 30%Q /\
    AudioFX.compressor_attack (AudioFX.filters g) = (3 # 1000)%Q /\
    AudioFX.compressor_release (AudioFX.filters g) = (25 # 100)%Q.
Proof.
  eexists. split; [reflexivity|].
  apply (fixed_node_parameters
           [Controls.FirstPlay; Controls.ClickPreset "music-reduce";
            Controls.SlideStrength 80]).
  reflexivity.
Defined.


(** X9. A preset clicked before the first play does not reach the
    filters: when the audio graph is built afterwards, the chain has the
    neutral values of [createFilters], although the processed path is the
    one selected and tapped, and an export would be admitted. Clicked after
    the first play, the same preset sets the filters. *)
Theorem preset_before_first_play_is_neutral (preset : string)
    (fx : AudioFX.t) :
  AudioFX.audioContext fx = None ->
  preset <> "off"%string ->
  let early := AudioFX.initAudioContext (AudioFX.setPreset preset fx) in
  let late := AudioFX.setPreset preset (AudioFX.initAudioContext fx) in
  AudioFX.filters <$> AudioFX.audioContext early
  = Some AudioFX.createFilters /\
  AudioFX.isAudioProcessed early = true /\
  AudioFX.getProcessedStream early = Some AudioFX.CompressorTap /\
  AudioFX.filters <$> AudioFX.audioContext late
  = Some (AudioFX.presetFilters preset (AudioFX.reductionStrength fx)
            AudioFX.createFilters) /\
  AudioFX.isAudioProcessed late = true.
Proof.
  intros Hnone Hne early late.
  apply String.eqb_neq in Hne.
  assert (Hearly : AudioFX.audioContext (AudioFX.setPreset preset fx) = None).
  { unfold AudioFX.setPreset, AudioFX.updateFilters, AudioFX.updateBypass,
      AudioFX.set_isProcessed. cbn. rewrite Hnone, Hne. cbn.
    destruct (AudioFX.isProcessed fx); cbn; rewrite ?Hnone; reflexivity. }
  destruct (setPreset_flags preset fx) as (Hp & Hc & Hs).
  destruct (setPreset_flags preset (AudioFX.initAudioContext fx))
    as (Hp' & Hc' & Hs').
  rewrite Hne in Hp, Hp'. cbn in Hp, Hp'.
  subst early late. split; [|split; [|split; [|split]]].
  - unfold AudioFX.initAudioContext. rewrite Hearly.
    unfold AudioFX.updateBypass. reflexivity.
  - unfold AudioFX.isAudioProcessed, AudioFX.initAudioContext.
    rewrite Hearly. unfold AudioFX.updateBypass. cbn.
    rewrite Hp, Hc, Hne. reflexivity.
  - unfold AudioFX.getProcessedStream, AudioFX.initAudioContext.
    rewrite Hearly. unfold AudioFX.updateBypass. cbn.
    rewrite Hc, Hne. reflexivity.
  - unfold AudioFX.initAudioContext. rewrite Hnone.
    unfold AudioFX.setPreset, AudioFX.updateFilters, AudioFX.updateBypass,
      AudioFX.set_isProcessed. cbn. rewrite Hne. cbn.
    destruct (AudioFX.isProcessed fx); reflexivity.
  - unfold AudioFX.isAudioProcessed. rewrite Hp', Hc', Hne. reflexivity.
Qed.

Lemma preset_before_first_play_is_neutral_witness :
  let early := AudioFX.initAudioContext
                 (AudioFX.setPreset "speech" AudioFX.new) in
  let late := AudioFX.setPreset "speech"
                (AudioFX.initAudioContext AudioFX.new) in
  AudioFX.filters <$> AudioFX.audioContext early
  = Some AudioFX.createFilters /\
  AudioFX.isAudioProcessed early = true /\
  AudioFX.getProcessedStream early = Some AudioFX.CompressorTap /\
  AudioFX.filters <$> AudioFX.audioContext late
  = Some (AudioFX.presetFilters "speech" 50 AudioFX.createFilters) /\
  AudioFX.isAudioProcessed late = true.
Proof.
  apply (preset_before_first_play_is_neutral "speech" AudioFX.new).
  - reflexivity.
  - discriminate.
Defined.

(** X10. For strengths from 0 to 100 every preset stays inside fixed
    bounds: the shelves only attenuate, by at most 15 dB and 10 dB, the
    peaking band only boosts, by at most 6 dB, between 1500 Hz and 2500 Hz
    with a positive Q, the compressor ratio stays between 4 and 12 and its
    threshold between -30 dB and -20 dB. *)
Theorem computeParameters_bounds (preset : string) (strength : Z) :
  0 <= strength <= 100 ->
  let p := AudioFX.computeParameters preset strength in
  (-15 <= AudioFX.lowShelfGainDb p <= 0)%Q /\
  (-10 <= AudioFX.highShelfGainDb p <= 0)%Q /\
  (0 <= AudioFX.peakGainDb p <= 6)%Q /\
  (1500 <= AudioFX.peakFrequencyHz p <= 2500)%Q /\
  (0 < AudioFX.peakQ p)%Q /\
  (4 <= AudioFX.compressorRatio p <= 12)%Q /\
  (-30 <= AudioFX.compressorThresholdDb p <= -20)%Q.
Proof.
  intros [H0 H100].
  destruct (strength_monotone strength 100 ltac:(lia)) as [Hlo Hhi].
  assert (Hone : (inject_Z 100 * (1 # 100) == 1)%Q) by reflexivity.
  rewrite Hone in Hhi. clear Hone.
  unfold AudioFX.computeParameters, AudioFX.presetFilters.
  destruct (String.eqb preset "speech");
    [|destruct (String.eqb preset "music-reduce")];
    cbn [AudioFX.parametersOf AudioFX.lowShelfGainDb AudioFX.highShelfGainDb
         AudioFX.peakGainDb AudioFX.peakFrequencyHz AudioFX.peakQ
         AudioFX.compressorRatio AudioFX.compressorThresholdDb
         AudioFX.lowShelf_gain AudioFX.highShelf_gain AudioFX.bandpass_gain
         AudioFX.bandpass_frequency AudioFX.bandpass_Q
         AudioFX.compressor_ratio AudioFX.compressor_threshold
         AudioFX.createFilters];
    cbv zeta; rewrite ?strength_eq;
    set (x := (inject_Z strength * (1 # 100))%Q) in *;
    repeat split; lra.
Qed.

Lemma computeParameters_bounds_witness :
  let p := AudioFX.computeParameters "music-reduce" 100 in
  (-15 <= AudioFX.lowShelfGainDb p <= 0)%Q /\
  (-10 <= AudioFX.highShelfGainDb p <= 0)%Q /\
  (0 <= AudioFX.peakGainDb p <= 6)%Q /\
  (1500 <= AudioFX.peakFrequencyHz p <= 2500)%Q /\
  (0 < AudioFX.peakQ p)%Q /\
  (4 <= AudioFX.compressorRatio p <= 12)%Q /\
  (-30 <= AudioFX.compressorThresholdDb p <= -20)%Q.
Proof.
  apply (computeParameters_bounds "music-reduce" 100). lia.
Defined.

(** X11. The A/B toggle is an involution: after any session, two clicks
    on it give back the very same state, gains included. *)
Theorem toggleAB_twice (actions : list Controls.Action) :
  AudioFX.toggleAB (AudioFX.toggleAB (Controls.session actions))
  = Controls.session actions.
Proof.
  pose proof (settled_session actions) as H.
  destruct (Controls.session actions)
    as [[[f bg pg]|] preset strength processed];
    unfold Controls.settled in H; cbn in H.
  - destruct H as (-> & -> & _). destruct processed; reflexivity.
  - destruct processed; reflexivity.
Qed.

(** * Further properties of the export jobs *)

Section AudioExportEdges.
Import Exporter.

Ltac unfold_audio :=
  unfold run, downloadProcessedAudio, try_catch, showExportModal,
    updateExportStatus, updateExportProgress, hideExportModal, showToast,
    setInterval, addEventListener_ended, onCapture, onVideo, await, modify,
    throw, reject, bind, get, ret.

(** The state a capture leaves when [video.play()] is refused. *)
Lemma downloadProcessedAudio_play_rejected env s fx v g message :
  isExporting s = false ->
  audioFx s = Some fx ->
  AudioFX.isAudioProcessed fx = true ->
  video s = Some v ->
  AudioFX.audioContext fx = Some g ->
  play env = Rejects message ->
  run (downloadProcessedAudio env) s
  = set_toasts (toasts s ++ [(("Audio export failed: " ++ message)%string,
                              error)])
      (set_captures
         (captures s ++ [{| startTime := currentTime v;
                            recording := true;
                            onstopPending := false;
                            progressInterval := false;
                            onEnded := false |}])
         (set_video (Some (seek 0 v))
            (set_modal {| hidden := true;
                          title := "Exporting Audio"%string;
                          status := "Recording processed audio..."%string;
                          percent := 0 |}
               (set_isExporting false s)))).
Proof.
  intros Hidle Hfx Hgate Hv Hg Hplay.
  unfold run, downloadProcessedAudio, bind, get.
  rewrite Hidle, Hfx, Hgate, Hv. cbn [negb].
  unfold AudioFX.getProcessedStream. rewrite Hg, Hplay.
  unfold_audio. cbn. rewrite Hv. cbn. rewrite !alter_last. reflexivity.
Qed.

(** The state a request leaves when there is no audio graph yet. *)
Lemma downloadProcessedAudio_no_graph env s fx v :
  isExporting s = false ->
  audioFx s = Some fx ->
  AudioFX.isAudioProcessed fx = true ->
  video s = Some v ->
  AudioFX.audioContext fx = None ->
  run (downloadProcessedAudio env) s
  = set_toasts
      (toasts s
       ++ [("Audio export failed: Could not get processed audio stream"%string,
            error)])
      (set_modal {| hidden := true;
                    title := "Exporting Audio"%string;
                    status := "Preparing audio stream..."%string;
                    percent := 0 |}
         (set_isExporting false s)).
Proof.
  intros Hidle Hfx Hgate Hv Hg.
  unfold run, downloadProcessedAudio, bind, get.
  rewrite Hidle, Hfx, Hgate, Hv. cbn [negb].
  unfold AudioFX.getProcessedStream. rewrite Hg.
  unfold_audio. reflexivity.
Qed.

End AudioExportEdges.

(** X12. When the browser refuses [video.play()], the audio export
    reports the failure and returns to idle, but it has already moved the
    media to position 0 and started the recorder: the position is not
    restored, the recorder is left recording with no [ended] listener and
    no timer, and the abort handle is not set to it. *)
Theorem audio_export_play_refused (env : Exporter.Env) (s : Exporter.t)
    (fx : AudioFX.t) (g : AudioFX.Graph) (v : Exporter.Media)
    (message : string) :
  Exporter.isExporting s = false ->
  Exporter.audioFx s = Some fx ->
  AudioFX.isAudioProcessed fx = true ->
  AudioFX.audioContext fx = Some g ->
  Exporter.video s = Some v ->
  Exporter.play env = Exporter.Rejects message ->
  let s' := Exporter.run (Exporter.downloadProcessedAudio env) s in
  Exporter.toasts s'
  = Exporter.toasts s
    ++ [(("Audio export failed: " ++ message)%string, Exporter.error)] /\
  Exporter.isExporting s' = false /\
  Exporter.hidden (Exporter.modal s') = true /\
  Exporter.mediaState s' = Some (0%Q, Exporter.paused v) /\
  Exporter.abortController s' = Exporter.abortController s /\
  Exporter.captures s'
  = Exporter.captures s
    ++ [{| Exporter.startTime := Exporter.currentTime v;
           Exporter.recording := true;
           Exporter.onstopPending := false;
           Exporter.progressInterval := false;
           Exporter.onEnded := false |}].
Proof.
  intros Hidle Hfx Hgate Hg Hv Hplay s'. subst s'.
  rewrite (downloadProcessedAudio_play_rejected env s fx v g message)
    by assumption.
  repeat split.
Qed.

Lemma audio_export_play_refused_witness :
  let s' := Exporter.run (Exporter.downloadProcessedAudio Cases.playRefused)
              Scenario.urlPage in
  Exporter.toasts s'
  = [("Audio export failed: NotAllowedError"%string, Exporter.error)] /\
  Exporter.isExporting s' = false /\
  Exporter.hidden (Exporter.modal s') = true /\
  Exporter.mediaState s' = Some (0%Q, false) /\
  Exporter.abortController s' = None /\
  Exporter.captures s'
  = [{| Exporter.startTime := 5%Q;
        Exporter.recording := true;
        Exporter.onstopPending := false;
        Exporter.progressInterval := false;
        Exporter.onEnded := false |}].
Proof.
  refine (audio_export_play_refused Cases.playRefused Scenario.urlPage
            Scenario.speechFx _ Scenario.playingAt5 "NotAllowedError"
            _ _ _ _ _ _); reflexivity.
Defined.

(** X13. An audio export requested while the audio graph does not exist
    yet (a preset was clicked but the video never played) passes the
    admission gate and then fails at once with 'Could not get processed
    audio stream': nothing is recorded, the media is not touched, and the
    job is idle again. *)
Theorem audio_export_without_graph (env : Exporter.Env) (s : Exporter.t)
    (fx : AudioFX.t) (v : Exporter.Media) :
  Exporter.isExporting s = false ->
  Exporter.audioFx s = Some fx ->
  AudioFX.isAudioProcessed fx = true ->
  AudioFX.audioContext fx = None ->
  Exporter.video s = Some v ->
  let s' := Exporter.run (Exporter.downloadProcessedAudio env) s in
  Exporter.toasts s'
  = Exporter.toasts s
    ++ [("Audio export failed: Could not get processed audio stream"%string,
         Exporter.error)] /\
  Exporter.isExporting s' = false /\
  Exporter.hidden (Exporter.modal s') = true /\
  Exporter.video s' = Exporter.video s /\
  Exporter.captures s' = Exporter.captures s /\
  Exporter.abortController s' = Exporter.abortController s /\
  Exporter.downloads s' = Exporter.downloads s.
Proof.
  intros Hidle Hfx Hgate Hg Hv s'. subst s'.
  rewrite (downloadProcessedAudio_no_graph env s fx v) by assumption.
  repeat split.
Qed.

Lemma audio_export_without_graph_witness :
  let s' := Exporter.run (Exporter.downloadProcessedAudio Scenario.allResolve)
              Cases.earlyPresetPage in
  Exporter.toasts s'
  = [("Audio export failed: Could not get processed audio stream"%string,
      Exporter.error)] /\
  Exporter.isExporting s' = false /\
  Exporter.hidden (Exporter.modal s') = true /\
  Exporter.video s' = Some Scenario.playingAt5 /\
  Exporter.captures s' = [] /\
  Exporter.abortController s' = None /\
  Exporter.downloads s' = [].
Proof.
  refine (audio_export_without_graph Scenario.allResolve
            Cases.earlyPresetPage
            (AudioFX.setPreset "speech" AudioFX.new) Scenario.playingAt5
            _ _ _ _ _); reflexivity.
Defined.

(** ** What a method leaves alone *)

Section FrameFacts.
Import Exporter Frame.

Variable R : t -> t -> Prop.
Hypothesis R_refl : forall s, R s s.
Hypothesis R_trans : forall s1 s2 s3, R s1 s2 -> R s2 s3 -> R s1 s3.

Lemma preserves_ret {A} (a : A) : preserves R (ret a).
Proof. intros s. apply R_refl. Qed.

Lemma preserves_throw {A} message : preserves R (@throw A message).
Proof. intros s. apply R_refl. Qed.

Lemma preserves_reject {A} e : preserves R (@reject A e).
Proof. intros s. apply R_refl. Qed.

Lemma preserves_get : preserves R get.
Proof. intros s. apply R_refl. Qed.

Lemma preserves_modify f : (forall s, R s (f s)) -> preserves R (modify f).
Proof. intros Hf s. apply Hf. Qed.

Lemma preserves_bind {A B} (m : M A) (k : A -> M B) :
  preserves R m -> (forall a, preserves R (k a)) -> preserves R (bind m k).
Proof.
  intros Hm Hk s. unfold bind. specialize (Hm s).
  destruct (m s) as [a s1|e s1]; [|exact Hm].
  specialize (Hk a s1). destruct (k a s1); eapply R_trans; eassumption.
Qed.

Lemma preserves_try_catch {A} (body : M A) handler :
  preserves R body -> (forall e, preserves R (handler e)) ->
  preserves R (try_catch body handler).
Proof.
  intros Hb Hh s. unfold try_catch. specialize (Hb s).
  destruct (body s) as [a s1|e s1]; [exact Hb|].
  specialize (Hh e s1). destruct (handler e s1); eapply R_trans; eassumption.
Qed.

Lemma preserves_try_finally {A} (body : M A) fin :
  preserves R body -> (forall s, R s (fin s)) ->
  preserves R (try_finally body fin).
Proof.
  intros Hb Hf s. unfold try_finally. specialize (Hb s).
  destruct (body s) as [a s1|e s1]; eapply R_trans; eauto.
Qed.

Lemma preserves_await o : preserves R (await o).
Proof.
  destruct o;
    [apply preserves_ret | apply preserves_throw | apply preserves_reject].
Qed.

Lemma preserves_run {A} (m : M A) s : preserves R m -> R s (run m s).
Proof. intros Hm. unfold run. specialize (Hm s). now destruct (m s). Qed.

Lemma preserves_fold {X} (f : X -> M unit) (xs : list X) s :
  (forall x, preserves R (f x)) ->
  R s (fold_left (fun s x => run (f x) s) xs s).
Proof.
  intros Hf. revert s. induction xs as [|x xs IH]; intros s; cbn [fold_left].
  - apply R_refl.
  - eapply R_trans; [exact (preserves_run (f x) s (Hf x)) | apply IH].
Qed.

End FrameFacts.

Section AppFrame.
Import Exporter Frame.

Lemma quiet_refl s : quiet s s.
Proof. repeat split. Qed.

Lemma quiet_trans s1 s2 s3 : quiet s1 s2 -> quiet s2 s3 -> quiet s1 s3.
Proof.
  intros (A1 & B1 & C1 & D1 & E1 & F1 & G1) (A2 & B2 & C2 & D2 & E2 & F2 & G2).
  repeat split; congruence.
Qed.

(** One update of the state keeps the relation. *)
Ltac frame_update :=
  let s := fresh "s" in
  intros s; unfold quiet; cbn;
  repeat split; try reflexivity;
  destruct (video s); reflexivity.

(** A method built from the combinators keeps the relation when each of its
    updates does. *)
Ltac frame_step refl trans :=
  first
    [ apply (preserves_ret _ refl)
    | apply (preserves_throw _ refl)
    | apply (preserves_reject _ refl)
    | apply (preserves_get _ refl)
    | apply (preserves_await _ refl)
    | apply preserves_modify; frame_update
    | apply (preserves_bind _ trans); [|intros ?]
    | apply (preserves_try_catch _ trans); [|intros ?]
    | apply (preserves_try_finally _ trans); [|frame_update]
    | match goal with
      | |- preserves _ (if ?c then _ else _) => destruct c
      | |- preserves _ (match ?x with _ => _ end) => destruct x
      | |- preserves _ (let _ := _ in _) => cbv zeta
      end
    | progress unfold showToast, updateExportProgress, updateExportStatus,
        showExportModal, hideExportModal, downloadBlob, onVideo, onCapture,
        getExportFilename, convertToWav, onstop, mediaRecorder_stop,
        clearInterval, setInterval, removeEventListener_ended,
        addEventListener_ended, restoreStartTime, onEnded_listener, abort,
        onProgressInterval, downloadProcessedAudio, cancelExport, logOp,
        loadFFmpeg, ffmpeg_call, ffmpeg_writeFile, ffmpeg_readFile,
        ffmpeg_deleteFile, ffmpeg_exec, downloadProcessedVideo, onTimeout ].

Lemma quiet_onEnded_listener id : preserves quiet (onEnded_listener id).
Proof. repeat frame_step quiet_refl quiet_trans. Qed.

Lemma quiet_abort id : preserves quiet (abort id).
Proof. repeat frame_step quiet_refl quiet_trans. Qed.

End AppFrame.

(** ** The recorder's stop event *)

Section RecorderStop.
Import Exporter.

(** The export file name depends on the current video and on the preset
    only. *)
Lemma getExportFilename_reads extension s :
  exists name,
    forall s', currentVideo s' = currentVideo s -> audioFx s' = audioFx s ->
               getExportFilename extension s' = Return name s'.
Proof.
  eexists. intros s' Hc Ha. unfold getExportFilename, bind, get, ret.
  rewrite Hc, Ha. reflexivity.
Qed.

Lemma onstop_delivers id env s :
  let s' := run (onstop id env) s in
  isExporting s' = false /\
  hidden (modal s') = true /\
  percent (modal s') = 80%Q /\
  captures s' = captures s /\
  video s' = video s /\
  match decodeAudioData env with
  | Some buffer =>
      exists name file,
        getExportFilename "wav" s = Return name s /\
        Wav.audioBufferToWav buffer = Some file /\
        downloads s' = downloads s ++ [(name, WavBlob file)] /\
        toasts s'
        = toasts s ++ [("Audio exported successfully!"%string, success)]
  | None =>
      exists name,
        getExportFilename "webm" s = Return name s /\
        downloads s' = downloads s ++ [(name, WebmBlob)] /\
        toasts s'
        = toasts s
          ++ [("Audio exported as WebM (WAV conversion unavailable)"%string,
               success)]
  end.
Proof.
  destruct (getExportFilename_reads "wav" s) as (wav & Hwav).
  destruct (getExportFilename_reads "webm" s) as (webm & Hwebm).
  unfold run, onstop, convertToWav.
  destruct (decodeAudioData env) as [buffer|].
  - pose proof (audioBufferToWav_layout buffer) as HL. cbv zeta in HL.
    rewrite HL.
    unfold try_catch, updateExportStatus, updateExportProgress,
      hideExportModal, downloadBlob, showToast, modify, throw, reject, bind,
      ret.
    cbn -[getExportFilename]. rewrite Hwav by reflexivity. cbn.
    repeat split. exists wav. eexists.
    split; [apply Hwav; reflexivity|]. repeat split.
  - unfold try_catch, updateExportStatus, updateExportProgress,
      hideExportModal, downloadBlob, showToast, modify, throw, reject, bind,
      ret.
    cbn -[getExportFilename]. rewrite Hwebm by reflexivity. cbn.
    repeat split. exists webm.
    split; [apply Hwebm; reflexivity|]. repeat split.
Qed.

Lemma getExportFilename_same extension s s' name :
  currentVideo s' = currentVideo s -> audioFx s' = audioFx s ->
  getExportFilename extension s' = Return name s' ->
  getExportFilename extension s = Return name s.
Proof.
  intros Hc Ha H.
  destruct (getExportFilename_reads extension s) as (name0 & Hn).
  rewrite (Hn s' Hc Ha) in H. injection H as ->.
  apply Hn; reflexivity.
Qed.

(** The stop event of capture [id], when one is pending. *)
Lemma recorderStopped_delivers id env s c :
  captures s !! id = Some c ->
  onstopPending c = true ->
  let s' := step (RecorderStopped id env) s in
  isExporting s' = false /\
  hidden (modal s') = true /\
  video s' = video s /\
  match decodeAudioData env with
  | Some buffer =>
      exists name file,
        getExportFilename "wav" s = Return name s /\
        Wav.audioBufferToWav buffer = Some file /\
        downloads s' = downloads s ++ [(name, WavBlob file)] /\
        toasts s'
        = toasts s ++ [("Audio exported successfully!"%string, success)]
  | None =>
      exists name,
        getExportFilename "webm" s = Return name s /\
        downloads s' = downloads s ++ [(name, WebmBlob)] /\
        toasts s'
        = toasts s
          ++ [("Audio exported as WebM (WAV conversion unavailable)"%string,
               success)]
  end.
Proof.
  intros Hc Hpending. cbn [step]. rewrite Hc. cbn [from_option].
  rewrite Hpending.
  set (clear := fun c : Capture => _).
  assert (Hrun : run (onCapture id clear ;; onstop id env)%exporter s
                 = run (onstop id env)
                       (set_captures (alter clear id (captures s)) s))
    by reflexivity.
  rewrite Hrun. clear Hrun.
  set (s1 := set_captures _ s).
  pose proof (onstop_delivers id env s1) as H. cbv zeta in H.
  destruct H as (Hidle & Hhidden & _ & _ & Hvideo & Hout).
  split; [exact Hidle|]. split; [exact Hhidden|]. split; [exact Hvideo|].
  destruct (decodeAudioData env) as [buffer|].
  - destruct Hout as (name & file & Hname & Hfile & Hdl & Htoast).
    exists name, file. repeat split; try assumption.
    apply (getExportFilename_same "wav" s s1 name); [reflexivity..|exact Hname].
  - destruct Hout as (name & Hname & Hdl & Htoast).
    exists name. repeat split; try assumption.
    apply (getExportFilename_same "webm" s s1 name);
      [reflexivity..|exact Hname].
Qed.

Ltac unfold_stop :=
  unfold run, cancelExport, abort, onEnded_listener, clearInterval,
    mediaRecorder_stop, removeEventListener_ended, restoreStartTime,
    hideExportModal, showToast, onCapture, onVideo, modify, throw, reject, bind,
    get, ret.

(** What a cancel leaves of a running capture. *)
Lemma cancelExport_stops id t0 s :
  capturing id t0 s ->
  let s' := step ClickCancel s in
  (exists c', captures s' !! id = Some c' /\ onstopPending c' = true /\
              recording c' = false /\ onEnded c' = false /\
              progressInterval c' = false) /\
  toasts s' = toasts s ++ [("Export cancelled"%string, warning)] /\
  downloads s' = downloads s /\
  isExporting s' = false /\
  hidden (modal s') = true.
Proof.
  intros (Habort & _ & (c & Hc & Ht0 & Hrec & _) & [v Hv]).
  cbn [step]. unfold_stop. rewrite Habort. cbn.
  rewrite list_lookup_alter_eq, Hc. cbn. rewrite Hrec. cbn.
  rewrite !list_lookup_alter_eq, Hc. cbn. rewrite ?Hv. cbn.
  rewrite ?list_lookup_alter_eq, ?Hc. cbn.
  split; [|repeat split].
  eexists. split; [reflexivity|]. repeat split.
Qed.

(** What the end of the media leaves of a running capture. *)
Lemma mediaEnded_stops id t0 s :
  capturing id t0 s ->
  let s' := step MediaEnded s in
  (exists c', captures s' !! id = Some c' /\ onstopPending c' = true /\
              recording c' = false /\ onEnded c' = false /\
              progressInterval c' = false) /\
  toasts s' = toasts s /\
  downloads s' = downloads s /\
  isExporting s' = isExporting s.
Proof.
  intros (_ & Hlen & (c & Hc & Ht0 & Hrec & Hon) & Hv).
  cbn [step].
  set (s1 := run (onVideo (fun m => seek (duration m) m)) s).
  assert (Hcaps : captures s1 = captures s) by reflexivity.
  assert (Hq1 : Frame.quiet s s1) by (subst s1; repeat split).
  assert (Hv1 : is_Some (video s1)).
  { destruct Hv as [v Hv]. subst s1. unfold run, onVideo, modify. cbn.
    rewrite Hv. eexists; reflexivity. }
  unfold endedListeners. rewrite Hcaps, Hlen, seq_S, List.filter_app.
  cbn [List.filter Nat.add]. rewrite Hc. cbn [from_option]. rewrite Hon.
  rewrite fold_left_app. cbn [fold_left].
  set (olds := List.filter _ (seq 0 id)).
  assert (Holds : Forall (fun id' => id' <> id) olds).
  { apply List.Forall_forall. intros id' Hin. subst olds.
    apply List.filter_In in Hin. destruct Hin as [Hin _].
    apply in_seq in Hin. lia. }
  destruct (older_listeners_preserve id olds s1 Holds) as [Hc2 Hv2].
  cbv zeta in Hc2, Hv2.
  pose proof (preserves_fold Frame.quiet quiet_refl quiet_trans
                onEnded_listener olds s1 quiet_onEnded_listener) as Hq2.
  set (s2 := fold_left _ olds s1) in *.
  rewrite Hcaps, Hc in Hc2. destruct (Hv2 Hv1) as [v2 Hvideo2].
  pose proof (quiet_trans _ _ _ Hq1 Hq2) as Hq.
  destruct Hq as (Qt & Qd & _ & Qe & _).
  unfold_stop. cbn.
  rewrite list_lookup_alter_eq, Hc2. cbn. rewrite Hrec. cbn.
  rewrite !list_lookup_alter_eq, Hc2. cbn. rewrite ?Hvideo2. cbn.
  rewrite ?list_lookup_alter_eq, ?Hc2. cbn.
  split; [|repeat split; assumption].
  eexists. split; [reflexivity|]. repeat split.
Qed.

End RecorderStop.

(** X15. Whenever the stop event of a recorder fires, exactly one file is
    delivered and the job returns to idle: the WAV encoding of the decoded
    recording under the [.wav] name when decoding succeeds, else the
    recording itself under the [.webm] name; either way the toast is of
    severity success, 'Audio exported successfully!' for the WAV and
    'Audio exported as WebM (WAV conversion unavailable)' for the
    fallback; the recording is never dropped. *)
Theorem recorder_stop_delivers (env : Exporter.Env) (s : Exporter.t)
    (id : nat) (c : Exporter.Capture) :
  Exporter.captures s !! id = Some c ->
  Exporter.onstopPending c = true ->
  let s' := Exporter.step (Exporter.RecorderStopped id env) s in
  Exporter.isExporting s' = false /\
  Exporter.hidden (Exporter.modal s') = true /\
  Exporter.video s' = Exporter.video s /\
  match Exporter.decodeAudioData env with
  | Some buffer =>
      exists name file,
        Exporter.getExportFilename "wav" s = Exporter.Return name s /\
        Wav.audioBufferToWav buffer = Some file /\
        Exporter.downloads s'
        = Exporter.downloads s ++ [(name, Exporter.WavBlob file)] /\
        Exporter.toasts s'
        = Exporter.toasts s
          ++ [("Audio exported successfully!"%string, Exporter.success)]
  | None =>
      exists name,
        Exporter.getExportFilename "webm" s = Exporter.Return name s /\
        Exporter.downloads s'
        = Exporter.downloads s ++ [(name, Exporter.WebmBlob)] /\
        Exporter.toasts s'
        = Exporter.toasts s
          ++ [("Audio exported as WebM (WAV conversion unavailable)"%string,
               Exporter.success)]
  end.
Proof. exact (recorderStopped_delivers id env s c). Qed.

Lemma recorder_stop_delivers_witness :
  let s := Exporter.step Exporter.MediaEnded Scenario.busyPage in
  let s' := Exporter.step (Exporter.RecorderStopped 0 Cases.decodeFails) s in
  Exporter.isExporting s' = false /\
  Exporter.hidden (Exporter.modal s') = true /\
  Exporter.video s' = Exporter.video s /\
  exists name,
    Exporter.getExportFilename "webm" s = Exporter.Return name s /\
    Exporter.downloads s'
    = Exporter.downloads s ++ [(name, Exporter.WebmBlob)] /\
    Exporter.toasts s'
    = Exporter.toasts s
      ++ [("Audio exported as WebM (WAV conversion unavailable)"%string,
           Exporter.success)].
Proof.
  refine (recorder_stop_delivers Cases.decodeFails
            (Exporter.step Exporter.MediaEnded Scenario.busyPage) 0 _ _ _);
    reflexivity.
Defined.

(** X16. A capture that is under way delivers its file however it ends:
    after the end of the media, and just as well after a click on Cancel,
    the stop event of the recorder downloads one file and shows a success
    toast (after the 'Export cancelled' warning in the second case); the
    media is back at the saved position, paused, and the job is idle. *)
Theorem capture_delivers_even_when_cancelled (env : Exporter.Env)
    (s : Exporter.t) (id : nat) (t0 : Q) (final : Exporter.Event) :
  Exporter.capturing id t0 s ->
  final = Exporter.ClickCancel \/ final = Exporter.MediaEnded ->
  let s' := Exporter.step (Exporter.RecorderStopped id env)
              (Exporter.step final s) in
  Exporter.isExporting s' = false /\
  Exporter.hidden (Exporter.modal s') = true /\
  Exporter.mediaState s' = Some (t0, true) /\
  exists name blob message,
    Exporter.downloads s' = Exporter.downloads s ++ [(name, blob)] /\
    Exporter.toasts s'
    = Exporter.toasts s
      ++ match final with
         | Exporter.ClickCancel =>
             [("Export cancelled"%string, Exporter.warning)]
         | _ => []
         end
      ++ [(message, Exporter.success)].
Proof.
  intros Hcap Hfinal s'. subst s'.
  assert (Hmid :
    (exists c', Exporter.captures (Exporter.step final s) !! id = Some c' /\
                Exporter.onstopPending c' = true) /\
    Exporter.mediaState (Exporter.step final s) = Some (t0, true) /\
    Exporter.downloads (Exporter.step final s) = Exporter.downloads s /\
    Exporter.toasts (Exporter.step final s)
    = Exporter.toasts s
      ++ match final with
         | Exporter.ClickCancel =>
             [("Export cancelled"%string, Exporter.warning)]
         | _ => []
         end).
  { destruct Hfinal as [-> | ->].
    - destruct (cancelExport_stops id t0 s Hcap)
        as ((c' & Hc' & Hp & _) & Ht & Hd & _).
      split; [exists c'; split; assumption|].
      split; [exact (cancelExport_restores _ _ _ Hcap)|].
      split; assumption.
    - destruct (mediaEnded_stops id t0 s Hcap)
        as ((c' & Hc' & Hp & _) & Ht & Hd & _).
      split; [exists c'; split; assumption|].
      split; [exact (mediaEnded_restores _ _ _ Hcap)|].
      split; [assumption|]. rewrite app_nil_r. exact Ht. }
  destruct Hmid as ((c' & Hc' & Hp) & Hmedia & Hd & Ht).
  pose proof (recorderStopped_delivers id env (Exporter.step final s) c'
                Hc' Hp) as H.
  cbv zeta in H. destruct H as (Hidle & Hhidden & Hvideo & Hout).
  split; [exact Hidle|]. split; [exact Hhidden|].
  split; [unfold Exporter.mediaState in *; rewrite Hvideo; exact Hmedia|].
  destruct (Exporter.decodeAudioData env) as [buffer|].
  - destruct Hout as (name & file & _ & _ & Hdl & Htoast).
    exists name, (Exporter.WavBlob file). eexists.
    rewrite Hdl, Htoast, Hd, Ht, <- app_assoc. split; reflexivity.
  - destruct Hout as (name & _ & Hdl & Htoast).
    exists name, Exporter.WebmBlob. eexists.
    rewrite Hdl, Htoast, Hd, Ht, <- app_assoc. split; reflexivity.
Qed.

Lemma capture_delivers_even_when_cancelled_witness :
  let s' := Exporter.step (Exporter.RecorderStopped 0 Scenario.allResolve)
              (Exporter.step Exporter.ClickCancel Scenario.busyPage) in
  Exporter.isExporting s' = false /\
  Exporter.hidden (Exporter.modal s') = true /\
  Exporter.mediaState s' = Some (5%Q, true) /\
  exists name blob message,
    Exporter.downloads s'
    = Exporter.downloads Scenario.busyPage ++ [(name, blob)] /\
    Exporter.toasts s'
    = Exporter.toasts Scenario.busyPage
      ++ [("Export cancelled"%string, Exporter.warning)]
      ++ [(message, Exporter.success)].
Proof.
  apply (capture_delivers_even_when_cancelled Scenario.allResolve
           Scenario.busyPage 0 5 Exporter.ClickCancel).
  - split; [reflexivity|]. split; [reflexivity|].
    split; [|eexists; reflexivity].
    eexists. repeat split; reflexivity.
  - left. reflexivity.
Defined.

(** ** Progress *)

Section Progress.
Import Exporter.
Local Open Scope Q_scope.

(** The progress listener leaves the last value it was given, and touches
    nothing but the ring. *)
Lemma onProgress_modal events s :
  exists p,
    onProgress events s
    = Return tt (set_modal {| hidden := hidden (modal s);
                              title := title (modal s);
                              status := status (modal s);
                              percent := p |} s) /\
    p = match last events with
        | Some progress => 60 + progress * 35
        | None => percent (modal s)
        end.
Proof.
  revert s. induction events as [|progress events IH]; intros s.
  - exists (percent (modal s)). split; [|reflexivity].
    cbn. unfold ret. destruct s as [? ? ? ? ? ? ? ? [? ? ? ?] ? ? ? ? ?].
    reflexivity.
  - cbn [onProgress]. unfold bind, updateExportProgress, modify.
    destruct (IH (set_modal {| hidden := hidden (modal s);
                               title := title (modal s);
                               status := status (modal s);
                               percent := 60 + progress * 35 |} s))
      as (p & Hp & Hlast).
    exists p. split; [exact Hp|].
    rewrite Hlast. cbn [modal set_modal percent]. clear IH Hp Hlast.
    destruct events as [|p2 events]; [reflexivity|].
    rewrite (last_cons_cons progress p2 events).
    destruct (last (p2 :: events)) eqn:Hl; [reflexivity|].
    apply last_None in Hl. discriminate.
Qed.

End Progress.

(** X17. While a capture plays, each tick of its progress timer shows
    [currentTime / duration * 70]: with the position inside the media this
    is between 0 and 70, the last 30 points being kept for the encoding. *)
Theorem capture_progress_range (s : Exporter.t) (id : nat)
    (v : Exporter.Media) :
  Exporter.video s = Some v ->
  from_option Exporter.progressInterval false (Exporter.captures s !! id)
  = true ->
  (0 <= Exporter.currentTime v)%Q ->
  (Exporter.currentTime v <= Exporter.duration v)%Q ->
  (0 < Exporter.duration v)%Q ->
  let s' := Exporter.step (Exporter.IntervalTick id) s in
  Exporter.percent (Exporter.modal s')
  = (Exporter.currentTime v / Exporter.duration v * 70)%Q /\
  (0 <= Exporter.percent (Exporter.modal s') <= 70)%Q.
Proof.
  intros Hv Htimer H0 Hle Hd. cbn [Exporter.step]. rewrite Htimer.
  unfold Exporter.run, Exporter.onProgressInterval, Exporter.bind,
    Exporter.get. rewrite Hv.
  unfold Exporter.updateExportProgress, Exporter.modify. cbn.
  split; [reflexivity|].
  assert (H1 : (Exporter.currentTime v / Exporter.duration v <= 1)%Q).
  { apply Qle_shift_div_r; [exact Hd|]. lra. }
  assert (H2 : (0 <= Exporter.currentTime v / Exporter.duration v)%Q).
  { apply Qle_shift_div_l; [exact Hd|]. lra. }
  split; lra.
Qed.

Lemma capture_progress_range_witness :
  let s := Exporter.step (Exporter.Playback 30) Scenario.busyPage in
  let s' := Exporter.step (Exporter.IntervalTick 0) s in
  Exporter.percent (Exporter.modal s') = (30 / 60 * 70)%Q /\
  (0 <= Exporter.percent (Exporter.modal s') <= 70)%Q.
Proof.
  refine (capture_progress_range
            (Exporter.step (Exporter.Playback 30) Scenario.busyPage) 0
            {| Exporter.currentTime := 30; Exporter.paused := false;
               Exporter.duration := 60 |} _ _ _ _ _).
  - reflexivity.
  - reflexivity.
  - vm_compute. discriminate.
  - vm_compute. discriminate.
  - reflexivity.
Defined.

(** X18. The engine's progress events are shown as [60 + progress * 35]:
    with every event between 0 and 1 and the ring between 60 and 95 when
    the transcode starts, the ring stays between 60 and 95, and ends on
    the value of the last event. *)
Theorem engine_progress_range (events : list Q) (s : Exporter.t) :
  Forall (fun progress => 0 <= progress <= 1)%Q events ->
  (60 <= Exporter.percent (Exporter.modal s) <= 95)%Q ->
  exists s',
    Exporter.onProgress events s = Exporter.Return tt s' /\
    Exporter.percent (Exporter.modal s')
    = match last events with
      | Some progress => (60 + progress * 35)%Q
      | None => Exporter.percent (Exporter.modal s)
      end /\
    (60 <= Exporter.percent (Exporter.modal s') <= 95)%Q.
Proof.
  intros Hevents Hs.
  destruct (onProgress_modal events s) as (p & Hp & Hlast).
  eexists. split; [exact Hp|]. cbn. split; [exact Hlast|].
  rewrite Hlast. destruct (last events) as [progress|] eqn:Hl; [|exact Hs].
  apply last_Some_elem_of in Hl. rewrite Forall_forall in Hevents.
  specialize (Hevents _ Hl). cbv beta in Hevents. lra.
Qed.

Lemma engine_progress_range_witness :
  exists s',
    Exporter.onProgress [(1 # 4)%Q; (3 # 4)%Q]
      (Exporter.run (Exporter.updateExportProgress 60) Scenario.filePage)
    = Exporter.Return tt s' /\
    Exporter.percent (Exporter.modal s') = (60 + (3 # 4) * 35)%Q /\
    (60 <= Exporter.percent (Exporter.modal s') <= 95)%Q.
Proof.
  apply (engine_progress_range [(1 # 4)%Q; (3 # 4)%Q]
           (Exporter.run (Exporter.updateExportProgress 60)
              Scenario.filePage)).
  - repeat constructor; vm_compute; discriminate.
  - vm_compute. split; discriminate.
Defined.

(** ** Video export: success, and an engine that failed to load *)

Section VideoExportMore.
Import Exporter.

Ltac unfold_video :=
  unfold run, downloadProcessedVideo, loadFFmpeg, ffmpeg_writeFile,
    ffmpeg_readFile, ffmpeg_deleteFile, ffmpeg_exec, ffmpeg_call,
    downloadBlob, logOp, onTimeout,
    try_catch, try_finally, showExportModal, updateExportStatus,
    updateExportProgress, hideExportModal, showToast, onVideo, await,
    modify, throw, reject, bind, get, ret.

Lemma In_removeFile name a fs :
  In name (removeFile a fs) <-> In name fs /\ name <> a.
Proof.
  unfold removeFile. rewrite List.filter_In.
  destruct (String.eqb_spec name a); cbn; intuition congruence.
Qed.

Lemma In_addFile name a fs :
  In name (addFile a fs) <-> name = a \/ (In name fs /\ name <> a).
Proof.
  unfold addFile. cbn [In]. rewrite List.filter_In.
  destruct (String.eqb_spec name a); cbn; intuition congruence.
Qed.

(** The state a successful export of an uploaded file leaves, with an
    engine that is cached and loaded. *)
Lemma downloadProcessedVideo_success_cached env s file v e :
  isExporting s = false ->
  videoFile s = Some file ->
  video s = Some v ->
  ffmpeg s = Some e ->
  loaded e = true ->
  writeFile env = Resolves ->
  exec env = Resolves ->
  readFile env = Resolves ->
  deleteInput env = Resolves ->
  deleteOutput env = Resolves ->
  let s' := run (downloadProcessedVideo env) s in
  workingStorage s'
  = removeFile "output.mp4"
      (removeFile "input.mp4"
         (addFile "output.mp4" (addFile "input.mp4" (files e)))) /\
  (exists name, downloads s' = downloads s ++ [(name, Mp4Blob)]) /\
  toasts s' = toasts s ++ [("Video exported successfully!"%string, success)] /\
  percent (modal s') = 100%Q /\
  hidden (modal s') = false /\
  isExporting s' = true /\
  timeouts s' = S (timeouts s) /\
  (exists audioFilter,
     engineLog s'
     = engineLog s
       ++ [WriteFile "input.mp4"; Exec audioFilter; ReadFile "output.mp4";
           DeleteFile "input.mp4"; DeleteFile "output.mp4"]).
Proof.
  intros Hidle Hfile Hv He Hloaded Hw Hx Hr Hdi Hdo.
  destruct (getExportFilename_reads "mp4" s) as (name & Hname).
  unfold_video. rewrite Hidle. cbn -[getExportFilename].
  rewrite He. cbn -[getExportFilename]. rewrite Hv, Hfile.
  cbn -[getExportFilename]. rewrite He. cbn -[getExportFilename].
  rewrite Hloaded, Hw. cbn -[getExportFilename].
  match goal with
  | |- context [onProgress ?evs ?st] =>
      destruct (onProgress_modal evs st) as (p & -> & _)
  end.
  cbn -[getExportFilename]. rewrite Hx, Hr. cbn -[getExportFilename].
  rewrite Hname by reflexivity. cbn. rewrite Hdi, Hdo. cbn.
  unfold workingStorage. cbn.
  split; [reflexivity|]. split; [eexists; reflexivity|].
  repeat split. rewrite <- !app_assoc. eexists. reflexivity.
Qed.

(** The same with an engine that is imported and loaded on the way. *)
Lemma downloadProcessedVideo_success_fresh env s file v :
  isExporting s = false ->
  videoFile s = Some file ->
  video s = Some v ->
  ffmpeg s = None ->
  isLoading s = false ->
  importFFmpeg env = Resolves ->
  loadFFmpeg_core env = Resolves ->
  writeFile env = Resolves ->
  exec env = Resolves ->
  readFile env = Resolves ->
  deleteInput env = Resolves ->
  deleteOutput env = Resolves ->
  let s' := run (downloadProcessedVideo env) s in
  workingStorage s' = [] /\
  (exists name, downloads s' = downloads s ++ [(name, Mp4Blob)]) /\
  toasts s' = toasts s ++ [("Video exported successfully!"%string, success)] /\
  percent (modal s') = 100%Q /\
  hidden (modal s') = false /\
  isExporting s' = true /\
  isLoading s' = false /\
  timeouts s' = S (timeouts s) /\
  (exists audioFilter,
     engineLog s'
     = engineLog s
       ++ [ImportModules; LoadCore; WriteFile "input.mp4"; Exec audioFilter;
           ReadFile "output.mp4"; DeleteFile "input.mp4";
           DeleteFile "output.mp4"]).
Proof.
  intros Hidle Hfile Hv He Hloading Hi Hl Hw Hx Hr Hdi Hdo.
  destruct (getExportFilename_reads "mp4" s) as (name & Hname).
  unfold_video. rewrite Hidle. cbn -[getExportFilename].
  rewrite He, Hloading. cbn -[getExportFilename].
  rewrite Hi, Hl. cbn -[getExportFilename].
  rewrite Hv, Hfile. cbn -[getExportFilename]. rewrite Hw.
  cbn -[getExportFilename].
  match goal with
  | |- context [onProgress ?evs ?st] =>
      destruct (onProgress_modal evs st) as (p & -> & _)
  end.
  cbn -[getExportFilename]. rewrite Hx, Hr. cbn -[getExportFilename].
  rewrite Hname by reflexivity. cbn. rewrite Hdi, Hdo. cbn.
  unfold workingStorage. cbn.
  split; [reflexivity|]. split; [eexists; reflexivity|].
  repeat split. rewrite <- !app_assoc. eexists. reflexivity.
Qed.

(** The timeout of the success path closes the job. *)
Lemma timeoutFired_closes s n :
  timeouts s = S n ->
  let s' := step TimeoutFired s in
  isExporting s' = false /\ hidden (modal s') = true /\ timeouts s' = n /\
  downloads s' = downloads s /\ toasts s' = toasts s.
Proof.
  intros Hn. cbn [step]. rewrite Hn. unfold_video. cbn. repeat split.
Qed.

(** An engine whose core failed to load stays cached, unloaded. *)
Lemma downloadProcessedVideo_core_load_fails env s :
  isExporting s = false ->
  ffmpeg s = None ->
  isLoading s = false ->
  importFFmpeg env = Resolves ->
  loadFFmpeg_core env <> Resolves ->
  let s' := run (downloadProcessedVideo env) s in
  ffmpeg s' = Some {| loaded := false; files := [] |} /\
  isLoading s' = false /\
  downloads s' = downloads s /\
  engineLog s' = engineLog s ++ [ImportModules; LoadCore] /\
  Frame.failed s s'.
Proof.
  intros Hidle He Hloading Hi Hl. unfold Frame.failed.
  unfold_video. rewrite Hidle. cbn. rewrite He, Hloading. cbn.
  rewrite Hi. destruct (loadFFmpeg_core env); [congruence| |]; cbn;
    rewrite <- app_assoc; repeat split; eauto.
Qed.

(** With an instance cached, loaded or not, no import or load is
    attempted; an unloaded one fails the export at its first use, and the
    engine's rejection decides how the [catch] block ends. *)
Lemma downloadProcessedVideo_unloaded env s e :
  isExporting s = false ->
  ffmpeg s = Some e ->
  loaded e = false ->
  let s' := run (downloadProcessedVideo env) s in
  ffmpeg s' = ffmpeg s /\
  downloads s' = downloads s /\
  (engineLog s' = engineLog s \/
   engineLog s' = engineLog s ++ [WriteFile "input.mp4"]) /\
  match video s, videoFile s with
  | Some _, Some _ => Frame.caught (notLoaded env) s s'
  | _, _ => Frame.failed s s'
  end.
Proof.
  intros Hidle He Hloaded.
  unfold Frame.caught, Frame.failed, Frame.stuck.
  unfold_video. rewrite Hidle. cbn. rewrite He. cbn.
  destruct (video s); [destruct (videoFile s)|]; cbn;
    rewrite ?He; cbn; rewrite ?Hloaded; cbn; rewrite ?He;
    try destruct (notLoaded env); cbn; rewrite ?He;
    repeat split; eauto.
Qed.

(** With the modules imported and the core loaded on the way, the export
    runs as with that engine cached. *)
Lemma fresh_engine_as_cached env s :
  isExporting s = false ->
  ffmpeg s = None ->
  isLoading s = false ->
  importFFmpeg env = Resolves ->
  loadFFmpeg_core env = Resolves ->
  run (downloadProcessedVideo env) s
  = run (downloadProcessedVideo env)
      (set_ffmpeg (Some {| loaded := true; files := [] |})
         (set_engineLog ((engineLog s ++ [ImportModules]) ++ [LoadCore]) s)).
Proof.
  intros Hidle He Hloading Hi Hl.
  destruct s. cbn in Hidle, He, Hloading. subst.
  unfold run, downloadProcessedVideo, loadFFmpeg, try_catch at 2 4,
    try_finally, logOp, showExportModal, updateExportStatus, await, modify,
    bind, get, ret.
  cbn. rewrite Hi, Hl. cbn.
  reflexivity.
Qed.

Ltac settle_failed := split; [right; left; repeat split; eauto|reflexivity].
Ltac settle_stuck :=
  split; [right; right; cbn; rewrite ?andb_false_r; repeat split; eauto
         |reflexivity].

(** The three ways an export ends, first with an instance cached. *)
Lemma downloadProcessedVideo_settles_cached env s e :
  isExporting s = false ->
  ffmpeg s = Some e ->
  let s' := run (downloadProcessedVideo env) s in
  (Frame.succeeded s s' \/ Frame.failed s s' \/
   (Frame.stuck s s' /\ Frame.rejectsWithMessages env = false)) /\
  isLoading s' = isLoading s.
Proof.
  intros Hidle He.
  destruct (getExportFilename_reads "mp4" s) as (name & Hname).
  unfold Frame.succeeded, Frame.failed, Frame.stuck, Frame.delivered,
    Frame.rejectsWithMessages.
  unfold_video. rewrite Hidle. cbn -[getExportFilename forallb].
  rewrite He. cbn -[getExportFilename forallb].
  destruct (video s); [destruct (videoFile s)|];
    cbn -[getExportFilename forallb];
    rewrite ?He; cbn -[getExportFilename forallb].
  2,3: settle_failed.
  destruct (loaded e); cbn -[getExportFilename forallb].
  2: destruct (notLoaded env); cbn -[getExportFilename forallb];
       [settle_failed|settle_stuck].
  destruct (writeFile env); cbn -[getExportFilename forallb].
  2: settle_failed. 2: settle_stuck.
  match goal with
  | |- context [onProgress ?evs ?st] =>
      destruct (onProgress_modal evs st) as (p & -> & _)
  end.
  cbn -[getExportFilename forallb].
  destruct (exec env); cbn -[getExportFilename forallb].
  2: settle_failed. 2: settle_stuck.
  destruct (readFile env); cbn -[getExportFilename forallb].
  2: settle_failed. 2: settle_stuck.
  rewrite Hname by reflexivity. cbn -[forallb].
  destruct (deleteInput env); cbn -[forallb].
  2: settle_failed. 2: settle_stuck.
  destruct (deleteOutput env); cbn -[forallb].
  2: settle_failed. 2: settle_stuck.
  split; [left; repeat split; eauto|reflexivity].
Qed.

Lemma downloadProcessedVideo_settles env s :
  isExporting s = false ->
  let s' := run (downloadProcessedVideo env) s in
  (Frame.succeeded s s' \/ Frame.failed s s' \/
   (Frame.stuck s s' /\ Frame.rejectsWithMessages env = false)) /\
  isLoading s' = isLoading s.
Proof.
  intros Hidle. destruct (ffmpeg s) as [e|] eqn:He.
  - exact (downloadProcessedVideo_settles_cached env s e Hidle He).
  - destruct (isLoading s) eqn:Hloading.
    + unfold Frame.succeeded, Frame.failed, Frame.delivered.
      unfold_video. rewrite Hidle. cbn. rewrite He, Hloading. cbn.
      destruct (video s); [destruct (videoFile s)|]; cbn; rewrite ?He; cbn;
        (split; [right; left; repeat split; eauto|auto]).
    + destruct (importFFmpeg env) eqn:Hi;
        [destruct (loadFFmpeg_core env) eqn:Hl| |].
      * cbv zeta.
        rewrite (fresh_engine_as_cached env s Hidle He Hloading Hi Hl).
        match goal with
        | |- context [run _ ?s1] =>
            destruct (downloadProcessedVideo_settles_cached env s1 _
                        Hidle eq_refl) as (H & Hl')
        end.
        split; [exact H|]. exact (eq_trans Hl' Hloading).
      * destruct (downloadProcessedVideo_core_load_fails env s Hidle He
                    Hloading Hi ltac:(congruence)) as (_ & ? & _ & _ & ?).
        split; [right; left; assumption|assumption].
      * destruct (downloadProcessedVideo_core_load_fails env s Hidle He
                    Hloading Hi ltac:(congruence)) as (_ & ? & _ & _ & ?).
        split; [right; left; assumption|assumption].
      * unfold Frame.succeeded, Frame.failed, Frame.delivered.
        unfold_video. rewrite Hidle. cbn. rewrite He, Hloading. cbn.
        rewrite Hi. cbn. split; [right; left; repeat split; eauto|reflexivity].
      * unfold Frame.succeeded, Frame.failed, Frame.delivered.
        unfold_video. rewrite Hidle. cbn. rewrite He, Hloading. cbn.
        rewrite Hi. cbn. split; [right; left; repeat split; eauto|reflexivity].
Qed.

(** A deletion rejected after the download: the file is delivered, the
    output stays in the working storage, and the export is reported as
    failed, or not reported at all. *)
Lemma downloadProcessedVideo_cleanup_rejected env s file v e :
  isExporting s = false ->
  videoFile s = Some file ->
  video s = Some v ->
  ffmpeg s = Some e ->
  loaded e = true ->
  writeFile env = Resolves ->
  exec env = Resolves ->
  readFile env = Resolves ->
  deleteInput env <> Resolves \/ deleteOutput env <> Resolves ->
  let s' := run (downloadProcessedVideo env) s in
  Frame.delivered s s' /\
  In "output.mp4"%string (workingStorage s') /\
  match Frame.rejection (deleteInput env) with
  | Some x => Frame.caught x s s'
  | None => match Frame.rejection (deleteOutput env) with
            | Some x => Frame.caught x s s'
            | None => False
            end
  end.
Proof.
  intros Hidle Hfile Hv He Hloaded Hw Hx Hr Hdel.
  destruct (getExportFilename_reads "mp4" s) as (name & Hname).
  unfold Frame.caught, Frame.failed, Frame.stuck, Frame.delivered.
  unfold_video. rewrite Hidle. cbn -[getExportFilename].
  rewrite He. cbn -[getExportFilename].
  rewrite Hv, Hfile. cbn -[getExportFilename].
  rewrite He. cbn -[getExportFilename]. rewrite Hloaded, Hw.
  cbn -[getExportFilename].
  match goal with
  | |- context [onProgress ?evs ?st] =>
      destruct (onProgress_modal evs st) as (p & -> & _)
  end.
  cbn -[getExportFilename]. rewrite Hx, Hr. cbn -[getExportFilename].
  rewrite Hname by reflexivity. cbn.
  destruct (deleteInput env); cbn;
    [destruct (deleteOutput env); cbn| |];
    [destruct Hdel; congruence|..];
    unfold workingStorage; cbn; repeat split; eauto.
Qed.

(** The same with an engine loaded on the way. *)
Lemma downloadProcessedVideo_cleanup_rejected_fresh env s file v :
  isExporting s = false ->
  videoFile s = Some file ->
  video s = Some v ->
  ffmpeg s = None ->
  isLoading s = false ->
  importFFmpeg env = Resolves ->
  loadFFmpeg_core env = Resolves ->
  writeFile env = Resolves ->
  exec env = Resolves ->
  readFile env = Resolves ->
  deleteInput env <> Resolves \/ deleteOutput env <> Resolves ->
  let s' := run (downloadProcessedVideo env) s in
  Frame.delivered s s' /\
  In "output.mp4"%string (workingStorage s') /\
  match Frame.rejection (deleteInput env) with
  | Some x => Frame.caught x s s'
  | None => match Frame.rejection (deleteOutput env) with
            | Some x => Frame.caught x s s'
            | None => False
            end
  end.
Proof.
  intros Hidle Hfile Hv He Hloading Hi Hl Hw Hx Hr Hdel. cbv zeta.
  rewrite (fresh_engine_as_cached env s Hidle He Hloading Hi Hl).
  match goal with
  | |- context [run _ ?s1] =>
      exact (downloadProcessedVideo_cleanup_rejected env s1 file v _
               Hidle Hfile Hv eq_refl eq_refl Hw Hx Hr Hdel)
  end.
Qed.

End VideoExportMore.

(** X19. A full-video export of an uploaded file in which every step
    resolves, with the engine loaded on the way or cached and loaded,
    delivers one MP4, shows the success toast and the ring at 100, and
    leaves the working storage without [input.mp4] and [output.mp4] and
    otherwise as it was. The job stays busy until the timeout of the
    success path fires, which hides the modal and makes it idle. *)
Theorem video_export_success (env : Exporter.Env) (s : Exporter.t)
    (file : list Z) (v : Exporter.Media) :
  Exporter.isExporting s = false ->
  Exporter.videoFile s = Some file ->
  Exporter.video s = Some v ->
  (forall e, Exporter.ffmpeg s = Some e -> Exporter.loaded e = true) ->
  (Exporter.ffmpeg s = None -> Exporter.isLoading s = false) ->
  Exporter.importFFmpeg env = Exporter.Resolves ->
  Exporter.loadFFmpeg_core env = Exporter.Resolves ->
  Exporter.writeFile env = Exporter.Resolves ->
  Exporter.exec env = Exporter.Resolves ->
  Exporter.readFile env = Exporter.Resolves ->
  Exporter.deleteInput env = Exporter.Resolves ->
  Exporter.deleteOutput env = Exporter.Resolves ->
  let s' := Exporter.run (Exporter.downloadProcessedVideo env) s in
  let s'' := Exporter.step Exporter.TimeoutFired s' in
  (forall name,
     In name (Exporter.workingStorage s') <->
     In name (Exporter.workingStorage s) /\
     name <> "input.mp4"%string /\ name <> "output.mp4"%string) /\
  (exists name,
     Exporter.downloads s'
     = Exporter.downloads s ++ [(name, Exporter.Mp4Blob)]) /\
  Exporter.toasts s'
  = Exporter.toasts s
    ++ [("Video exported successfully!"%string, Exporter.success)] /\
  Exporter.percent (Exporter.modal s') = 100%Q /\
  Exporter.isExporting s' = true /\
  Exporter.hidden (Exporter.modal s') = false /\
  Exporter.isExporting s'' = false /\
  Exporter.hidden (Exporter.modal s'') = true /\
  Exporter.downloads s'' = Exporter.downloads s'.
Proof.
  intros Hidle Hfile Hv Hloaded Hloading Hi Hl Hw Hx Hr Hdi Hdo s' s''.
  assert (H : (forall name,
                 In name (Exporter.workingStorage s') <->
                 In name (Exporter.workingStorage s) /\
                 name <> "input.mp4"%string /\ name <> "output.mp4"%string) /\
              (exists name,
                 Exporter.downloads s'
                 = Exporter.downloads s ++ [(name, Exporter.Mp4Blob)]) /\
              Exporter.toasts s'
              = Exporter.toasts s
                ++ [("Video exported successfully!"%string,
                     Exporter.success)] /\
              Exporter.percent (Exporter.modal s') = 100%Q /\
              Exporter.isExporting s' = true /\
              Exporter.hidden (Exporter.modal s') = false /\
              Exporter.timeouts s' = S (Exporter.timeouts s)).
  { subst s'. destruct (Exporter.ffmpeg s) as [e|] eqn:He.
    - destruct (downloadProcessedVideo_success_cached env s file v e
                  Hidle Hfile Hv He (Hloaded e eq_refl) Hw Hx Hr Hdi Hdo)
        as (Hws & Hd & Ht & Hp & Hh & Hb & Hto & _).
      split; [|repeat split; assumption].
      intros name. rewrite Hws. unfold Exporter.workingStorage.
      rewrite He. cbn [from_option].
      rewrite !In_removeFile, !In_addFile. intuition congruence.
    - destruct (downloadProcessedVideo_success_fresh env s file v
                  Hidle Hfile Hv He (Hloading eq_refl) Hi Hl Hw Hx Hr
                  Hdi Hdo)
        as (Hws & Hd & Ht & Hp & Hh & Hb & _ & Hto & _).
      split; [|repeat split; assumption].
      intros name. rewrite Hws. unfold Exporter.workingStorage.
      rewrite He. cbn. tauto. }
  destruct H as (Hws & Hd & Ht & Hp & Hb & Hh & Hto).
  destruct (timeoutFired_closes s' _ Hto) as (Ci & Ch & _ & Cd & _).
  split; [exact Hws|]. split; [exact Hd|]. split; [exact Ht|].
  split; [exact Hp|]. split; [exact Hb|]. split; [exact Hh|].
  split; [exact Ci|]. split; [exact Ch|exact Cd].
Qed.

Lemma video_export_success_witness :
  let s' := Exporter.run (Exporter.downloadProcessedVideo Scenario.allResolve)
              Scenario.filePage in
  let s'' := Exporter.step Exporter.TimeoutFired s' in
  (forall name,
     In name (Exporter.workingStorage s') <->
     In name (Exporter.workingStorage Scenario.filePage) /\
     name <> "input.mp4"%string /\ name <> "output.mp4"%string) /\
  (exists name,
     Exporter.downloads s'
     = Exporter.downloads Scenario.filePage ++ [(name, Exporter.Mp4Blob)]) /\
  Exporter.toasts s'
  = Exporter.toasts Scenario.filePage
    ++ [("Video exported successfully!"%string, Exporter.success)] /\
  Exporter.percent (Exporter.modal s') = 100%Q /\
  Exporter.isExporting s' = true /\
  Exporter.hidden (Exporter.modal s') = false /\
  Exporter.isExporting s'' = false /\
  Exporter.hidden (Exporter.modal s'') = true /\
  Exporter.downloads s'' = Exporter.downloads s'.
Proof.
  apply (video_export_success Scenario.allResolve Scenario.filePage
           [0; 0; 0; 24] Scenario.playingAt5);
    try reflexivity; intros; discriminate.
Defined.

(** X20. A failed load of the engine is not retried. When the modules
    are imported but the core fails to load, however it rejects, the
    unloaded instance stays cached and the export fails with one error
    toast and returns to idle. The next export, however its operations
    would settle, attempts neither the import nor the load, delivers
    nothing and leaves the same instance cached; with a video and a file
    it fails at the first use of the engine, and the engine's rejection
    decides the ending: one more error toast and idle when it carries a
    message, no toast and the job left busy with the modal open when it
    does not. *)
Theorem failed_engine_load_not_retried (env1 env2 : Exporter.Env)
    (s : Exporter.t) :
  Exporter.isExporting s = false ->
  Exporter.ffmpeg s = None ->
  Exporter.isLoading s = false ->
  Exporter.importFFmpeg env1 = Exporter.Resolves ->
  Exporter.loadFFmpeg_core env1 <> Exporter.Resolves ->
  let s1 := Exporter.run (Exporter.downloadProcessedVideo env1) s in
  let s2 := Exporter.run (Exporter.downloadProcessedVideo env2) s1 in
  Exporter.ffmpeg s1
  = Some {| Exporter.loaded := false; Exporter.files := [] |} /\
  Exporter.isLoading s1 = false /\
  Exporter.engineLog s1
  = Exporter.engineLog s ++ [Exporter.ImportModules; Exporter.LoadCore] /\
  Frame.failed s s1 /\
  (exists ops,
     Exporter.engineLog s2 = Exporter.engineLog s1 ++ ops /\
     ~ In Exporter.ImportModules ops /\ ~ In Exporter.LoadCore ops) /\
  Exporter.ffmpeg s2 = Exporter.ffmpeg s1 /\
  Exporter.downloads s2 = Exporter.downloads s /\
  match Exporter.video s1, Exporter.videoFile s1 with
  | Some _, Some _ => Frame.caught (Exporter.notLoaded env2) s1 s2
  | _, _ => Frame.failed s1 s2
  end.
Proof.
  intros Hidle He Hloading Hi Hl s1 s2.
  destruct (downloadProcessedVideo_core_load_fails env1 s
              Hidle He Hloading Hi Hl)
    as (He1 & Hload1 & Hd1 & Hlog1 & Hfail1).
  fold s1 in He1, Hload1, Hd1, Hlog1, Hfail1.
  assert (Hidle1 : Exporter.isExporting s1 = false) by apply Hfail1.
  destruct (downloadProcessedVideo_unloaded env2 s1 _ Hidle1 He1 eq_refl)
    as (He2 & Hd2 & Hlog2 & Hend).
  fold s2 in He2, Hd2, Hlog2, Hend.
  split; [exact He1|]. split; [exact Hload1|]. split; [exact Hlog1|].
  split; [exact Hfail1|]. split.
  - destruct Hlog2 as [Hlog2 | Hlog2].
    + exists []. rewrite app_nil_r. split; [exact Hlog2|]. split; intros [].
    + eexists. split; [exact Hlog2|].
      split; intros [H | []]; discriminate.
  - split; [exact He2|]. split; [congruence|exact Hend].
Qed.

Lemma failed_engine_load_not_retried_witness :
  let s1 := Exporter.run (Exporter.downloadProcessedVideo Cases.coreLoadFails)
              Scenario.filePage in
  let s2 := Exporter.run (Exporter.downloadProcessedVideo Scenario.allResolve)
              s1 in
  Exporter.ffmpeg s1
  = Some {| Exporter.loaded := false; Exporter.files := [] |} /\
  Exporter.isLoading s1 = false /\
  Exporter.engineLog s1
  = Exporter.engineLog Scenario.filePage
    ++ [Exporter.ImportModules; Exporter.LoadCore] /\
  Frame.failed Scenario.filePage s1 /\
  (exists ops,
     Exporter.engineLog s2 = Exporter.engineLog s1 ++ ops /\
     ~ In Exporter.ImportModules ops /\ ~ In Exporter.LoadCore ops) /\
  Exporter.ffmpeg s2 = Exporter.ffmpeg s1 /\
  Exporter.downloads s2 = Exporter.downloads Scenario.filePage /\
  Frame.stuck s1 s2.
Proof.
  intros s1 s2.
  pose proof (failed_engine_load_not_retried Cases.coreLoadFails
                Scenario.allResolve Scenario.filePage eq_refl eq_refl
                eq_refl eq_refl ltac:(discriminate)) as H.
  cbv zeta in H. fold s1 in H. fold s2 in H.
  assert (Hv : Exporter.video s1 = Some Scenario.playingAt5) by reflexivity.
  assert (Hf : Exporter.videoFile s1 = Some [0; 0; 0; 24]) by reflexivity.
  rewrite Hv, Hf in H. exact H.
Defined.

(** X21. A full-video export started while idle, with no load of the
    engine under way, ends in one of three ways, whatever the page holds
    and however the import, the load and the calls of the engine settle.
    It delivers one MP4 and shows the success toast, with the modal open
    and the job busy until the scheduled timeout; or it shows exactly one
    error toast and is idle with the modal hidden at once, nothing
    scheduled; or, only if some rejection of the engine carries no
    message, the [catch] block itself throws and the job is left busy with
    the modal open, no toast and nothing scheduled. In all three the
    loading flag is down again. *)
Theorem video_export_settles (env : Exporter.Env) (s : Exporter.t) :
  Exporter.isExporting s = false ->
  Exporter.isLoading s = false ->
  let s' := Exporter.run (Exporter.downloadProcessedVideo env) s in
  (Frame.succeeded s s' \/ Frame.failed s s' \/
   (Frame.stuck s s' /\ Frame.rejectsWithMessages env = false)) /\
  Exporter.isLoading s' = false.
Proof.
  intros Hidle Hloading.
  destruct (downloadProcessedVideo_settles env s Hidle) as (H & Hl).
  split; [exact H|]. exact (eq_trans Hl Hloading).
Qed.

Lemma video_export_settles_witness :
  let s' := Exporter.run (Exporter.downloadProcessedVideo Scenario.execFails)
              Scenario.filePage in
  (Frame.succeeded Scenario.filePage s' \/ Frame.failed Scenario.filePage s' \/
   (Frame.stuck Scenario.filePage s' /\
    Frame.rejectsWithMessages Scenario.execFails = false)) /\
  Exporter.isLoading s' = false.
Proof.
  apply (video_export_settles Scenario.execFails Scenario.filePage);
    reflexivity.
Defined.

(** X22. A deletion rejected during the cleanup comes after the download:
    with the engine ready and the write, the transcode and the read
    resolving, a rejection of either deletion leaves one MP4 offered for
    download, [output.mp4] still in the working storage and no success
    toast. When the rejection carries a message the export is reported as
    failed: one error toast, the job idle and the modal hidden. When it is
    a string the [catch] block itself throws: no toast, the job left busy
    and the modal open. *)
Theorem cleanup_failure_after_delivery (env : Exporter.Env)
    (s : Exporter.t) (file : list Z) (v : Exporter.Media) :
  Exporter.isExporting s = false ->
  Exporter.videoFile s = Some file ->
  Exporter.video s = Some v ->
  (forall e, Exporter.ffmpeg s = Some e -> Exporter.loaded e = true) ->
  (Exporter.ffmpeg s = None -> Exporter.isLoading s = false) ->
  Exporter.importFFmpeg env = Exporter.Resolves ->
  Exporter.loadFFmpeg_core env = Exporter.Resolves ->
  Exporter.writeFile env = Exporter.Resolves ->
  Exporter.exec env = Exporter.Resolves ->
  Exporter.readFile env = Exporter.Resolves ->
  Exporter.deleteInput env <> Exporter.Resolves \/
  Exporter.deleteOutput env <> Exporter.Resolves ->
  let s' := Exporter.run (Exporter.downloadProcessedVideo env) s in
  Frame.delivered s s' /\
  In "output.mp4"%string (Exporter.workingStorage s') /\
  match Frame.rejection (Exporter.deleteInput env) with
  | Some x => Frame.caught x s s'
  | None => match Frame.rejection (Exporter.deleteOutput env) with
            | Some x => Frame.caught x s s'
            | None => False
            end
  end.
Proof.
  intros Hidle Hfile Hv Hloaded Hloading Hi Hl Hw Hx Hr Hdel.
  destruct (Exporter.ffmpeg s) as [e|] eqn:He.
  - exact (downloadProcessedVideo_cleanup_rejected env s file v e
             Hidle Hfile Hv He (Hloaded e eq_refl) Hw Hx Hr Hdel).
  - exact (downloadProcessedVideo_cleanup_rejected_fresh env s file v
             Hidle Hfile Hv He (Hloading eq_refl) Hi Hl Hw Hx Hr Hdel).
Qed.

Lemma cleanup_failure_after_delivery_witness :
  let s' := Exporter.run (Exporter.downloadProcessedVideo Cases.cleanupFails)
              Scenario.filePage in
  Frame.delivered Scenario.filePage s' /\
  In "output.mp4"%string (Exporter.workingStorage s') /\
  Frame.stuck Scenario.filePage s'.
Proof.
  intros s'.
  pose proof (cleanup_failure_after_delivery Cases.cleanupFails
                Scenario.filePage [0; 0; 0; 24] Scenario.playingAt5
                eq_refl eq_refl eq_refl
                ltac:(intros; discriminate) ltac:(reflexivity)
                eq_refl eq_refl eq_refl eq_refl eq_refl
                ltac:(left; discriminate)) as H.
  cbv zeta in H. fold s' in H. exact H.
Defined.

(** ** The names of the exported files *)

Section FileNames.
Import Exporter.

Lemma list_ascii_of_string_app (a b : string) :
  list_ascii_of_string (a ++ b)%string
  = list_ascii_of_string a ++ list_ascii_of_string b.
Proof.
  induction a as [|c a IH]; cbn; [reflexivity|]. rewrite IH. reflexivity.
Qed.

Lemma extensionLength_extension (ext rest : list ascii) :
  Forall (fun c => c <> "."%char /\ c <> "/"%char) ext ->
  extensionLength (ext ++ "."%char :: rest) = Some (length ext).
Proof.
  induction 1 as [|c ext [Hdot Hslash] _ IH]; cbn.
  - reflexivity.
  - apply Ascii.eqb_neq in Hdot, Hslash. rewrite Hdot, Hslash, IH.
    reflexivity.
Qed.

(** The pattern removes a final extension and nothing before it. *)
Lemma stripExtension_extension (base ext : string) :
  ext <> EmptyString ->
  Forall (fun c => c <> "."%char /\ c <> "/"%char)
         (list_ascii_of_string ext) ->
  stripExtension (base ++ "." ++ ext) = base.
Proof.
  intros Hne Hext. unfold stripExtension.
  rewrite !list_ascii_of_string_app. cbn [list_ascii_of_string app].
  rewrite rev_app_distr. cbn [rev]. rewrite <- app_assoc. cbn [app].
  rewrite extensionLength_extension by (apply Forall_rev; exact Hext).
  rewrite length_rev.
  destruct (list_ascii_of_string ext) as [|c le] eqn:Hle.
  - destruct ext; [congruence|discriminate].
  - cbn [length]. rewrite length_app. cbn [length].
    replace (length (list_ascii_of_string base) + S (S (length le))
             - S (S (length le)))%nat
      with (length (list_ascii_of_string base)) by lia.
    rewrite take_app_length. apply string_of_list_ascii_of_string.
Qed.

End FileNames.

(** X23. The name of an exported file keeps everything before the final
    extension of the video's name, whatever dots and slashes it holds, and
    replaces the extension: for a video named [base.ext], with [ext] not
    empty and free of dots and slashes, the export is named
    [base_preset.extension], where an empty base reads [video] and a
    missing or empty preset reads [original]. *)
Theorem export_filename_replaces_extension (base ext extension : string)
    (s : Exporter.t) :
  ext <> EmptyString ->
  Forall (fun c => c <> "."%char /\ c <> "/"%char)
         (list_ascii_of_string ext) ->
  Exporter.currentVideo s = Some (base ++ "." ++ ext)%string ->
  Exporter.getExportFilename extension s
  = Exporter.Return
      (Exporter.orElse base "video" ++ "_"
       ++ match Exporter.audioFx s with
          | Some fx => Exporter.orElse (AudioFX.getCurrentPreset fx) "original"
          | None => "original"
          end
       ++ "." ++ extension)%string
      s.
Proof.
  intros Hne Hext Hname.
  unfold Exporter.getExportFilename, Exporter.bind, Exporter.get,
    Exporter.ret.
  rewrite Hname, (stripExtension_extension base ext Hne Hext). reflexivity.
Qed.

Lemma export_filename_replaces_extension_witness :
  Exporter.getExportFilename "wav" Scenario.filePage
  = Exporter.Return "clip_speech.wav"%string Scenario.filePage.
Proof.
  apply (export_filename_replaces_extension "clip" "mp4" "wav"
           Scenario.filePage).
  - discriminate.
  - repeat constructor; discriminate.
  - reflexivity.
Defined.
